(** * Voiceflow documentation server: ingestion, chunking and retrieval

    A shallow embedding of [voiceflow_mcp_server.py] (classes
    [DocumentCache] and [VoiceflowMCP]) and the properties of its fetch,
    chunking, ranking and warm-up code.

    Conventions of the embedding:
    - a Python [str] is a list of Unicode code points ([N]);
    - [str.lower] needs the Unicode case tables, which are not part of the
      program: it is a parameter [lower] of every definition that calls
      it, and [ascii_lower] is its restriction to ASCII text, used to run
      the definitions on concrete ASCII inputs;
    - the HTTP client is an oracle [server] answering the n-th request of
      the session, and every GET and every back-off sleep is logged in the
      session state;
    - a similarity is a Python float; the finite floats the program
      produces are modelled by the rationals they denote ([Q]). *)

From Stdlib Require Import List Bool Arith NArith ZArith QArith Lia.
From Stdlib Require Import Permutation Sorted.
From Stdlib Require Strings.String Strings.Ascii.
Import ListNotations.
Import String.StringSyntax Ascii.AsciiSyntax.
Delimit Scope string_scope with string.
Delimit Scope char_scope with char.
Close Scope Q_scope.

Set Implicit Arguments.

(** ** Python strings *)

Definition char := N.
Definition str := list char.

(** An ASCII literal as a [str]. *)
Definition lit (s : String.string) : str :=
  map Ascii.N_of_ascii (String.list_ascii_of_string s).
Arguments lit s%_string.

(** The line feed, as a character and as a one-character string. *)
Definition LF : char := 10%N.
Definition newline : str := [LF].

Module Py.

(** [Py_UNICODE_ISSPACE]: the code points for which [str.isspace] holds;
    also the class [\s] of [re] on [str] patterns. *)
Definition isspace (c : char) : bool :=
  ((9 <=? c) && (c <=? 13) || (28 <=? c) && (c <=? 31) || (c =? 32)
   || (c =? 133) || (c =? 160) || (c =? 5760)
   || (8192 <=? c) && (c <=? 8202) || (c =? 8232) || (c =? 8233)
   || (c =? 8239) || (c =? 8287) || (c =? 12288))%N.

(** [Py_UNICODE_ISLINEBREAK]: the line boundaries of [str.splitlines]. *)
Definition islinebreak (c : char) : bool :=
  ((10 <=? c) && (c <=? 13) || (28 <=? c) && (c <=? 30)
   || (c =? 133) || (c =? 8232) || (c =? 8233))%N.

Fixpoint eqb (a b : str) : bool :=
  match a, b with
  | [], [] => true
  | x :: a', y :: b' => (x =? y)%N && eqb a' b'
  | _, _ => false
  end.

(** [s.startswith(p)] *)
Fixpoint startswith (p s : str) : bool :=
  match p, s with
  | [], _ => true
  | _ :: _, [] => false
  | x :: p', y :: s' => (x =? y)%N && startswith p' s'
  end.

(** [s.endswith(p)] *)
Definition endswith (p s : str) : bool := startswith (rev p) (rev s).

(** [p in s] *)
Fixpoint contains (p s : str) : bool :=
  startswith p s || match s with [] => false | _ :: s' => contains p s' end.

(** [s.count(p)]: the number of non-overlapping occurrences, scanning
    from the left; [skip] is the number of characters still covered by
    the occurrence found last.  The empty pattern occurs [len(s) + 1]
    times. *)
Fixpoint count_from (skip : nat) (p s : str) : nat :=
  match s with
  | [] => match skip with O => if startswith p [] then 1 else 0 | S _ => 0 end
  | _ :: s' =>
      match skip with
      | S k => count_from k p s'
      | O => if startswith p s
             then S (count_from (Nat.pred (length p)) p s')
             else count_from 0 p s'
      end
  end.

Definition count (p s : str) : nat := count_from 0 p s.

(** [s.lstrip()], [s.rstrip()], [s.strip()] *)
Fixpoint lstrip (s : str) : str :=
  match s with
  | [] => []
  | c :: s' => if isspace c then lstrip s' else s
  end.

Definition rstrip (s : str) : str := rev (lstrip (rev s)).

Definition strip (s : str) : str := rstrip (lstrip s).

(** [sep.join(parts)] *)
Fixpoint join (sep : str) (parts : list str) : str :=
  match parts with
  | [] => []
  | [p] => p
  | p :: rest => p ++ sep ++ join sep rest
  end.

(** [s.split(sep)] for a one-character separator: never empty. *)
Fixpoint split_char (sep : char) (s : str) : list str :=
  match s with
  | [] => [[]]
  | c :: s' =>
      if (c =? sep)%N then [] :: split_char sep s'
      else match split_char sep s' with
           | [] => [[c]]
           | l :: ls => (c :: l) :: ls
           end
  end.

(** [s.splitlines()]: lines without their boundary; [\r\n] is one
    boundary; no empty last line after a final boundary. *)
Fixpoint splitlines (s : str) : list str :=
  match s with
  | [] => []
  | c :: s' =>
      if islinebreak c then
        [] :: match s' with
              | d :: s'' => if ((c =? 13) && (d =? 10))%N
                            then splitlines s'' else splitlines s'
              | [] => []
              end
      else match splitlines s' with
           | [] => [[c]]
           | l :: ls => (c :: l) :: ls
           end
  end.

(** [s[n:]] and [s[:n]] for a non-negative constant [n]. *)
Definition from (n : nat) (s : str) : str := skipn n s.
Definition upto (n : nat) (s : str) : str := firstn n s.

(** [l[:k]] for any integer [k]: a negative [k] counts from the end. *)
Definition slice_to {A} (k : Z) (l : list A) : list A :=
  if (0 <=? k)%Z then firstn (Z.to_nat k) l
  else firstn (length l - Z.to_nat (- k)) l.

(** truthiness of a string or list *)
Definition truthy {A} (l : list A) : bool :=
  match l with [] => false | _ => true end.

End Py.

(** [str.lower] on ASCII text. *)
Definition ascii_lower (s : str) : str :=
  map (fun c => if ((65 <=? c) && (c <=? 90))%N then (c + 32)%N else c) s.

(** ** MarkdownProcessor: [chunk_markdown] *)

Record Chunk := mkChunk { heading : str; markdown : str }.

(** The character [#]. *)
Definition hash : char := 35%N.

(** The number of [#] a line starts with. *)
Fixpoint hashes (ln : str) : nat :=
  match ln with
  | c :: r => if (c =? hash)%N then S (hashes r) else 0
  | [] => 0
  end.

(** [re.match(r"^#{1,3}\s", ln)]: the line starts with one to three [#]
    and a whitespace character follows them.  The greedy [#{1,3}] takes the
    leading hashes, at most three; when a fourth follows, giving hashes
    back leaves a [#] where [\s] is expected, so there is no match. *)
Definition heading_match (ln : str) : bool :=
  let k := hashes ln in
  (1 <=? k) && (k <=? 3)
  && match skipn k ln with c :: _ => Py.isspace c | [] => false end.

(** [re.sub(r"^#{1,3}\s+", "", ln)]: on a line that matches, the hashes and
    the whitespace after them are removed; any other line is returned as
    it is. *)
Definition heading_text (ln : str) : str :=
  if heading_match ln then Py.lstrip (skipn (hashes ln) ln) else ln.

(** The local variables of [chunk_markdown]. *)
Record Chunker := mkChunker {
  chunks : list Chunk;
  buf : list str;
  current_h : option str;
  in_code : bool
}.

Definition fence : str := lit "```".

Definition is_fence (ln : str) : bool := Py.startswith fence (Py.strip ln).

(** The inner function [flush]. *)
Definition flush (st : Chunker) : Chunker :=
  match buf st with
  | [] => st
  | _ =>
      let text := Py.strip (Py.join newline (buf st)) in
      {| chunks := if Py.truthy text
                   then chunks st ++
                        [{| heading := match current_h st with
                                       | Some h => if Py.truthy h then h else []
                                       | None => []
                                       end;
                            markdown := text |}]
                   else chunks st;
         buf := [];
         current_h := current_h st;
         in_code := in_code st |}
  end.

(** One iteration of [for ln in lines]. *)
Definition chunk_step (st : Chunker) (ln : str) : Chunker :=
  if is_fence ln then
    {| chunks := chunks st; buf := buf st ++ [ln];
       current_h := current_h st; in_code := negb (in_code st) |}
  else if negb (in_code st) && heading_match ln then
    let st' := flush st in
    {| chunks := chunks st'; buf := buf st' ++ [ln];
       current_h := Some (Py.strip (heading_text ln)); in_code := in_code st' |}
  else
    {| chunks := chunks st; buf := buf st ++ [ln];
       current_h := current_h st; in_code := in_code st |}.

Definition chunker_init : Chunker :=
  {| chunks := []; buf := []; current_h := None; in_code := false |}.

Definition chunk_markdown (md : str) : list Chunk :=
  chunks (flush (fold_left chunk_step (Py.splitlines md) chunker_init)).


(** ** MarkdownProcessor: title, description and cleaning *)

Definition untitled : str := lit "Untitled".

(** The body of [for line in lines[:10]]. *)
Fixpoint extract_title_loop (lines : list str) : str :=
  match lines with
  | [] => untitled
  | line :: rest =>
      if Py.startswith (lit "# ") line then Py.strip (Py.from 2 line)
      else if Py.startswith (lit "title:") line then Py.strip (Py.from 6 line)
      else extract_title_loop rest
  end.

Definition extract_title (content : str) : str :=
  extract_title_loop (firstn 10 (Py.split_char LF content)).

(** The inner loop of [extract_description] over [lines[i+1 : i+5]]. *)
Fixpoint first_paragraph (ls : list str) : option str :=
  match ls with
  | [] => None
  | l :: rest =>
      if Py.truthy (Py.strip l) && negb (Py.startswith [hash] l)
      then Some (Py.upto 200 (Py.strip l) ++ lit "...")
      else first_paragraph rest
  end.

(** [enumerate(lines)] *)
Definition enumerate {A} (l : list A) : list (nat * A) := combine (seq 0 (length l)) l.

Fixpoint extract_description_loop (lines : list str) (window : list (nat * str)) : str :=
  match window with
  | [] => []
  | (i, line) :: rest =>
      if Py.startswith (lit "description:") line then Py.strip (Py.from 12 line)
      else if Py.startswith (lit "## ") line && (0 <? i) then
        match first_paragraph (firstn 4 (skipn (S i) lines)) with
        | Some d => d
        | None => extract_description_loop lines rest
        end
      else extract_description_loop lines rest
  end.

Definition extract_description (content : str) : str :=
  let lines := Py.split_char LF content in
  extract_description_loop lines (firstn 20 (enumerate lines)).

(** [s.split(sep, maxsplit)] for a non-empty [sep]; [skip] counts the
    characters of the separator found last that are still to be passed. *)
Fixpoint split_from (skip : nat) (sep : str) (maxsplit : nat) (s : str) : list str :=
  match s with
  | [] => [[]]
  | c :: s' =>
      match skip with
      | S k => split_from k sep maxsplit s'
      | O =>
          match maxsplit with
          | O => [s]
          | S m =>
              if Py.startswith sep s
              then [] :: split_from (Nat.pred (length sep)) sep m s'
              else match split_from 0 sep maxsplit s' with
                   | [] => [[c]]
                   | p :: ps => (c :: p) :: ps
                   end
          end
      end
  end.

Definition split_max (sep : str) (maxsplit : nat) (s : str) : list str :=
  split_from 0 sep maxsplit s.

(** The last position of [x] in [l]. *)
Fixpoint last_index (x : char) (l : str) : option nat :=
  match l with
  | [] => None
  | c :: l' =>
      match last_index x l' with
      | Some i => Some (S i)
      | None => if (c =? x)%N then Some 0 else None
      end
  end.

Fixpoint take_space (s : str) : str :=
  match s with
  | c :: s' => if Py.isspace c then c :: take_space s' else []
  | [] => []
  end.

(** [re.sub(r'\n\s*\n\s*\n', '\n\n', s)].  A match starts at a line feed
    whose following run of whitespace holds two more line feeds, and being
    greedy it ends at the last line feed of that run. *)
Fixpoint collapse_blank_lines (skip : nat) (s : str) : str :=
  match s with
  | [] => []
  | c :: s' =>
      match skip with
      | S k => collapse_blank_lines k s'
      | O =>
          let run := take_space s' in
          if (c =? LF)%N && (2 <=? count_occ N.eq_dec run LF) then
            match last_index LF run with
            | Some f => LF :: LF :: collapse_blank_lines (S f) s'
            | None => c :: collapse_blank_lines 0 s'
            end
          else c :: collapse_blank_lines 0 s'
      end
  end.

Definition clean_markdown (content : str) : str :=
  let content :=
    if Py.startswith (lit "---") content then
      match split_max (lit "---") 2 content with
      | _ :: _ :: part2 :: _ => part2
      | _ => content
      end
    else content in
  let content := collapse_blank_lines 0 content in
  Py.strip content.

(** ** Documents, the cache and the index *)

Record Document := mkDocument {
  url : str;               (* canonical *)
  markdown_url : str;      (* where the markdown was fetched *)
  title : str;
  description : str;
  content : str;
  raw_content : str;
  doc_chunks : list Chunk
}.

(** One entry of [DocumentCache.documents], the metadata of an embedded
    chunk. *)
Record Entry := mkEntry {
  e_url : str;
  e_markdown_url : str;
  e_title : str;
  e_heading : str;
  snippet : str
}.

Definition vector := list Q.

(** The embedding capability, [SentenceTransformer.encode]: one vector per
    text. *)
Definition Encoder := list str -> list vector.

(** [class DocumentCache]; the dict keeps its insertion order. *)
Record DocumentCache := mkDocumentCache {
  cache : list (str * Document);
  embeddings : option (list vector);
  documents : list Entry
}.

Fixpoint dict_get {V} (d : list (str * V)) (k : str) : option V :=
  match d with
  | [] => None
  | (k', v) :: d' => if Py.eqb k' k then Some v else dict_get d' k
  end.

(** [d[k] = v]: a present key keeps its place. *)
Fixpoint dict_set {V} (d : list (str * V)) (k : str) (v : V) : list (str * V) :=
  match d with
  | [] => [(k, v)]
  | (k', v') :: d' => if Py.eqb k' k then (k, v) :: d' else (k', v') :: dict_set d' k v
  end.

Definition get (c : DocumentCache) (u : str) : option Document := dict_get (cache c) u.

Definition set (c : DocumentCache) (u : str) (d : Document) : DocumentCache :=
  {| cache := dict_set (cache c) u d; embeddings := embeddings c; documents := documents c |}.

Definition has_embeddings (c : DocumentCache) : bool :=
  match embeddings c with
  | Some _ => 0 <? length (documents c)
  | None => false
  end.

(** ** The session and its effects *)

(** What the HTTP client gets back for a GET: a response, or a transport
    failure such as a timeout, which [httpx] raises as an exception. *)
Record Response := mkResponse {
  status_code : Z;
  content_type : option str;   (* the content-type header, when present *)
  text : str
}.

Inductive Reply := Answer (r : Response) | TransportError.

Inductive exn := HTTPError | IndexError.

Inductive result (A : Type) := Ok (a : A) | Raise (e : exn).
Arguments Ok {A} a.
Arguments Raise {A} e.

(** [class VoiceflowMCP], with the log of what the session did on the
    network: the URLs of the GETs it issued and the delays it slept, both
    oldest first. *)
Record VoiceflowMCP := mkVoiceflowMCP {
  self_cache : DocumentCache;
  embedding_model : option Encoder;
  requests : list str;
  sleeps : list Q
}.

(** A method of the session: it ends with a value or an exception, in a
    new session state. *)
Definition M (A : Type) : Type := VoiceflowMCP -> result A * VoiceflowMCP.

Definition ret {A} (a : A) : M A := fun s => (Ok a, s).

Definition bind {A B} (m : M A) (f : A -> M B) : M B :=
  fun s => match m s with
           | (Ok a, s') => f a s'
           | (Raise e, s') => (Raise e, s')
           end.

Definition raise {A} (e : exn) : M A := fun s => (Raise e, s).

Notation "x <- m ;; k" := (bind m (fun x => k))
  (at level 61, m at next level, right associativity).
Notation "m ;;; k" := (bind m (fun _ => k))
  (at level 61, right associativity).

Definition get_self : M VoiceflowMCP := fun s => (Ok s, s).

Definition set_cache (c : DocumentCache) : M unit :=
  fun s => (Ok tt, {| self_cache := c; embedding_model := embedding_model s;
                      requests := requests s; sleeps := sleeps s |}).

(** [await asyncio.sleep(d)] *)
Definition sleep (d : Q) : M unit :=
  fun s => (Ok tt, {| self_cache := self_cache s; embedding_model := embedding_model s;
                      requests := requests s; sleeps := sleeps s ++ [d] |}).

Definition is_success (r : Response) : bool :=
  ((200 <=? status_code r) && (status_code r <=? 299))%Z.

Definition base_url : str := lit "https://docs.voiceflow.com".

(** ** Building the embedding texts *)

(** The position of the first occurrence of [p] in [s]. *)
Fixpoint find (p s : str) : option nat :=
  if Py.startswith p s then Some 0
  else match s with
       | [] => None
       | _ :: s' => option_map S (find p s')
       end.

(** [re.sub(r"```[\s\S]*?```", " ", s)]: a fence and the shortest text up
    to the next fence become one space. *)
Fixpoint strip_fenced (skip : nat) (s : str) : str :=
  match s with
  | [] => []
  | c :: s' =>
      match skip with
      | S k => strip_fenced k s'
      | O =>
          if Py.startswith fence s then
            match find fence (skipn 3 s) with
            | Some k => 32%N :: strip_fenced (k + 5) s'
            | None => c :: strip_fenced 0 s'
            end
          else c :: strip_fenced 0 s'
      end
  end.

Fixpoint take_until (stop : char) (s : str) : str :=
  match s with
  | c :: s' => if (c =? stop)%N then [] else c :: take_until stop s'
  | [] => []
  end.

(** [re.sub(r"\[([^\]]+)\]\([^)]+\)", r"\1", s)]: a link is replaced by
    its text. *)
Fixpoint collapse_links (skip : nat) (s : str) : str :=
  match s with
  | [] => []
  | c :: s' =>
      match skip with
      | S k => collapse_links k s'
      | O =>
          let label := take_until 93%N s' in
          let rest := skipn (length label) s' in
          let target := take_until 41%N (skipn 2 rest) in
          if (c =? 91)%N && Py.truthy label && Py.startswith (lit "](") rest
             && Py.truthy target
             && Py.startswith (lit ")") (skipn (length target) (skipn 2 rest))
          then label ++ collapse_links (length label + length target + 3) s'
          else c :: collapse_links 0 s'
      end
  end.

(** [re.sub(r"[#>*_`]", " ", s)] *)
Definition blank_marks (s : str) : str :=
  map (fun c => if ((c =? 35) || (c =? 62) || (c =? 42) || (c =? 95) || (c =? 96))%N
                then 32%N else c) s.

(** [re.sub(r"\s+", " ", s)]; [inside] holds within a run of whitespace. *)
Fixpoint collapse_space (inside : bool) (s : str) : str :=
  match s with
  | [] => []
  | c :: s' =>
      if Py.isspace c
      then if inside then collapse_space true s' else 32%N :: collapse_space true s'
      else c :: collapse_space false s'
  end.

(** The text embedded for a chunk [ch] of a document titled [t]. *)
Definition embedding_text (t : str) (ch : Chunk) : str :=
  let s := t ++ [32; 8211; 32]%N ++ heading ch ++ [LF] ++ strip_fenced 0 (markdown ch) in
  let s := collapse_links 0 s in
  let s := blank_marks s in
  Py.strip (collapse_space false s).

(** ** Ranking *)

(** A search result: an index entry or a whole document, with its
    similarity. *)
Inductive Hit :=
| ChunkHit (e : Entry) (sim : Q)
| DocHit (d : Document) (sim : Q).

Definition similarity (h : Hit) : Q :=
  match h with ChunkHit _ q => q | DocHit _ q => q end.

Definition hit_title (h : Hit) : str :=
  match h with ChunkHit e _ => e_title e | DocHit d _ => title d end.

Definition hit_url (h : Hit) : str :=
  match h with ChunkHit e _ => e_url e | DocHit d _ => url d end.

(** [doc.get("heading", "")] *)
Definition hit_heading (h : Hit) : str :=
  match h with ChunkHit e _ => e_heading e | DocHit _ _ => [] end.

(** [doc.get("snippet")] *)
Definition hit_snippet (h : Hit) : option str :=
  match h with ChunkHit e _ => Some (snippet e) | DocHit _ _ => None end.

(** [l.sort(key=key, reverse=True)]: descending and stable. *)
Fixpoint insert_desc {A} (key : A -> Q) (x : A) (l : list A) : list A :=
  match l with
  | [] => [x]
  | y :: l' => if Qle_bool (key y) (key x) then x :: l
               else y :: insert_desc key x l'
  end.

Definition sort_desc {A} (key : A -> Q) (l : list A) : list A :=
  fold_right (insert_desc key) [] l.

(** [np.argsort(v)]: the indices of [v] in ascending order of value. *)
Fixpoint insert_asc (v : list Q) (i : nat) (l : list nat) : list nat :=
  match l with
  | [] => [i]
  | j :: l' => if Qle_bool (nth i v 0%Q) (nth j v 0%Q) then i :: l
               else j :: insert_asc v i l'
  end.

Definition argsort (v : list Q) : list nat :=
  fold_right (insert_asc v) [] (seq 0 (length v)).

(** [np.dot] of two vectors. *)
Definition dot (a b : vector) : Q :=
  fold_right (fun p acc => (fst p * snd p + acc)%Q) 0%Q (combine a b).

(** [max(l)] of a non-empty list: the first of the largest elements. *)
Definition max_of (first : Q) (rest : list Q) : Q :=
  fold_left (fun m x => if Qle_bool x m then m else x) rest first.

(** The answer of [answer_question]. *)
Record Source := mkSource { s_title : str; s_url : str; relevance : Q }.

Record Answer_ := mkAnswer { answer : str; sources : list Source; confidence : Q }.

Section Session.

(** [str.lower], and the server: its reply to the [n]-th GET of the
    session, for the URL asked. *)
Variable lower : str -> str.
Variable server : nat -> str -> Reply.

(** [await self.http_client.get(u, ...)] *)
Definition http_get (u : str) : M Response :=
  fun s =>
    let s' := {| self_cache := self_cache s; embedding_model := embedding_model s;
                 requests := requests s ++ [u]; sleeps := sleeps s |} in
    match server (length (requests s)) u with
    | Answer r => (Ok r, s')
    | TransportError => (Raise HTTPError, s')
    end.

Definition retryable (r : Response) : bool :=
  ((status_code r =? 429) || (500 <=? status_code r) && (status_code r <? 600))%Z.

(** The delay [0.5 * (2 ** attempt)]. *)
Definition backoff (attempt : nat) : Q := (1 # 2) * inject_Z (2 ^ Z.of_nat attempt).

(** The loop [for attempt in range(4)] of [_get], over the attempts left. *)
Fixpoint _get_loop (u : str) (attempts : list nat) : M (option Response) :=
  match attempts with
  | [] => ret None
  | attempt :: rest =>
      r <- http_get u ;;
      if retryable r then
        sleep (backoff attempt) ;;;
        _get_loop u rest
      else if is_success r then ret (Some r)
      else ret None
  end.

Definition _get (u : str) : M (option Response) := _get_loop u (seq 0 4).

(** The test both branches of [fetch_markdown_content] apply to a
    response: markdown by its content type or by its looks. *)
Definition markdownish (r : Response) : bool :=
  let ctype := lower (match content_type r with Some c => c | None => [] end) in
  Py.contains (lit "markdown") ctype || Py.contains (lit "text/plain") ctype
  || Py.startswith (lit "# ") (text r) || Py.contains fence (text r).

(** [md_url]: the markdown variant of a URL. *)
Definition md_url (u : str) : str :=
  if Py.endswith (lit ".md") u then u else u ++ lit ".md".

Definition fetch_markdown_content (u : str) : M (option Document) :=
  self <- get_self ;;
  match get (self_cache self) u with
  | Some cached => ret (Some cached)
  | None =>
      let md_url := md_url u in
      (* 1) try .md *)
      r <- _get md_url ;;
      let body := match r with
                  | Some r => if markdownish r then Some (text r) else None
                  | None => None
                  end in
      (* 2) fall back to the original URL *)
      found <- match body with
               | Some b => ret (Some (b, md_url))
               | None =>
                   r2 <- _get u ;;
                   match r2 with
                   | Some r2 =>
                       if is_success r2 && markdownish r2
                       then ret (Some (text r2, u)) else ret None
                   | None => ret None
                   end
               end ;;
      match found with
      | None => ret None
      | Some (body, final_url) =>
          let cleaned := clean_markdown body in
          let doc_data :=
            {| url := u; markdown_url := final_url;
               title := extract_title body;
               description := extract_description body;
               content := cleaned; raw_content := body;
               doc_chunks := chunk_markdown cleaned |} in
          self <- get_self ;;
          set_cache (set (self_cache self) u doc_data) ;;;
          ret (Some doc_data)
      end
  end.

(** [simple_search]: the score of one document. *)
Definition lexical_score (query_lower : str) (d : Document) : nat :=
  (if Py.contains query_lower (lower (title d)) then 3 else 0)
  + (if Py.contains query_lower (lower (description d)) then 2 else 0)
  + (let content_lower := lower (content d) in
     if Py.contains query_lower content_lower
     then Py.count query_lower content_lower else 0).

Definition simple_search (c : DocumentCache) (query : str) (limit : Z) : list Hit :=
  let query_lower := lower query in
  let results :=
    flat_map (fun kv =>
                let score := lexical_score query_lower (snd kv) in
                if 0 <? score
                then [DocHit (snd kv) (inject_Z (Z.of_nat score) / 10)%Q]
                else [])
             (cache c) in
  Py.slice_to limit (sort_desc similarity results).

(** [build_embeddings]: the texts and the entries, chunk by chunk. *)
Definition embedding_inputs (c : DocumentCache) : list (str * Entry) :=
  flat_map (fun kv =>
              let '(u, doc) := kv in
              flat_map (fun ch =>
                          let t := embedding_text (title doc) ch in
                          if Py.truthy t
                          then [(Py.upto 1000 t,
                                 {| e_url := u; e_markdown_url := markdown_url doc;
                                    e_title := title doc; e_heading := heading ch;
                                    snippet := Py.upto 500 (markdown ch) |})]
                          else [])
                       (doc_chunks doc))
           (cache c).

Definition build_embeddings : M unit :=
  self <- get_self ;;
  match embedding_model self with
  | None => ret tt
  | Some encode =>
      let inputs := embedding_inputs (self_cache self) in
      if Py.truthy inputs then
        set_cache {| cache := cache (self_cache self);
                     embeddings := Some (encode (map fst inputs));
                     documents := map snd inputs |}
      else ret tt
  end.

(** The loop [for i in idxs] of [search_documents]. *)
Fixpoint collect_hits (docs : list Entry) (sims : list Q) (idxs : list nat)
  : M (list Hit) :=
  match idxs with
  | [] => ret []
  | i :: rest =>
      match nth_error docs i with
      | Some doc =>
          hits <- collect_hits docs sims rest ;;
          ret (ChunkHit doc (nth i sims 0%Q) :: hits)
      | None => raise IndexError
      end
  end.

Definition search_documents (query : str) (limit : Z) : M (list Hit) :=
  self <- get_self ;;
  (if has_embeddings (self_cache self) then ret tt else build_embeddings) ;;;
  self <- get_self ;;
  match embedding_model self, embeddings (self_cache self) with
  | Some encode, Some emb =>
      if has_embeddings (self_cache self) then
        let q := hd [] (encode [query]) in
        let sims := map (fun row => dot row q) emb in
        let idxs := Py.slice_to limit (rev (argsort sims)) in
        collect_hits (documents (self_cache self)) sims idxs
      else ret (simple_search (self_cache self) query limit)
  | _, _ => ret (simple_search (self_cache self) query limit)
  end.

(** The candidates of [warmup], from the URLs of the sitemap. *)
Definition warmup_candidates (urls : list str) : list str :=
  filter (Py.startswith (base_url ++ lit "/reference")) urls
  ++ filter (Py.startswith (base_url ++ lit "/docs")) urls
  ++ filter (fun u => negb (Py.contains (lit "/changelog") u)) urls.

(** The loop [for u in urls] of [warmup]. *)
Fixpoint warmup_loop (urls : list str) (seen limit : Z) : M unit :=
  match urls with
  | [] => ret tt
  | u :: rest =>
      if (limit <=? seen)%Z then ret tt
      else
        doc <- fetch_markdown_content u ;;
        match doc with
        | Some _ => warmup_loop rest (seen + 1)%Z limit
        | None => warmup_loop rest seen limit
        end
  end.

(** [warmup], from the list [sitemap] that [fetch_sitemap] returned. *)
Definition warmup (sitemap : list str) (limit : Z) : M unit :=
  warmup_loop (warmup_candidates sitemap) 0%Z limit ;;;
  build_embeddings.

Definition no_information : str :=
  lit "I couldn't find relevant information in the Voiceflow documentation.".

Definition answer_part (h : Hit) : list str :=
  match hit_snippet h with
  | Some s =>
      if Py.truthy s
      then [lit "**" ++ hit_title h ++ lit " - " ++ hit_heading h ++ lit "**: " ++ s]
      else []
  | None => []
  end.

Definition answer_question (question : str) : M Answer_ :=
  relevant_docs <- search_documents question 3 ;;
  match relevant_docs with
  | [] => ret {| answer := no_information; sources := []; confidence := 0 |}
  | first :: rest =>
      let answer_parts := flat_map answer_part relevant_docs in
      ret {| answer :=
               if Py.truthy answer_parts
               then Py.join [LF; LF] answer_parts
               else lit "Based on the documentation, here's what I found: "
                    ++ match hit_snippet first with
                       | Some s => s
                       | None => lit "No specific information available"
                       end;
             sources := map (fun h => {| s_title := hit_title h; s_url := hit_url h;
                                         relevance := similarity h |})
                            relevant_docs;
             confidence := max_of (similarity first) (map similarity rest) |}
  end.

End Session.

(** ** Notions used to state the properties *)

(** The text with every whitespace character removed: two texts differ by
    whitespace only when their squeezed forms are equal. *)
Definition squeeze (s : str) : str := filter (fun c => negb (Py.isspace c)) s.

(** The text a chunker has taken in, in order: the chunks already
    emitted, then the lines still in the buffer. *)
Definition chunker_text (st : Chunker) : str :=
  concat (map markdown (chunks st)) ++ concat (buf st).

(** The number of fence-marker lines among [ls]. *)
Definition fence_lines (ls : list str) : nat := length (filter is_fence ls).

(** A text has balanced code fences when its fence-marker lines pair up. *)
Definition balanced (md : str) : Prop :=
  Nat.even (fence_lines (Py.splitlines md)) = true.

Definition no_linebreak (l : str) : Prop := Forall (fun c => Py.islinebreak c = false) l.

(** The chunker after the lines [seen]: every emitted chunk holds an even
    number of fence-marker lines, and [in_code] tells both whether the
    buffer and whether the lines seen so far hold an odd number. *)
Record fence_inv (seen : list str) (st : Chunker) : Prop := {
  inv_chunks : Forall (fun c => Nat.even (fence_lines (Py.splitlines (markdown c))) = true)
                      (chunks st);
  inv_buf : Nat.even (fence_lines (buf st)) = negb (in_code st);
  inv_seen : Nat.even (fence_lines seen) = negb (in_code st);
  inv_lines : Forall no_linebreak (buf st)
}.

(** Similarities from the best down: each one is at least every later one. *)
Definition descending (l : list Q) : Prop := StronglySorted (fun a b => (b <= a)%Q) l.

(** The index is consistent when it holds one vector per entry, and the
    embedding capability keeps its contract when it returns one vector per
    text. *)
Definition index_consistent (s : VoiceflowMCP) : Prop :=
  match embeddings (self_cache s) with
  | Some emb => length emb = length (documents (self_cache s))
  | None => True
  end.

Definition encoder_contract (s : VoiceflowMCP) : Prop :=
  match embedding_model s with
  | Some encode => forall texts, length (encode texts) = length texts
  | None => True
  end.

(** What [search_documents] does before it ranks: the index is built when
    there is none. *)
Definition ensure_index : M unit :=
  self <- get_self ;;
  if has_embeddings (self_cache self) then ret tt else build_embeddings.

(** 1 when [p] is a substring of [s], and 0 otherwise. *)
Definition occurs (p s : str) : nat := if Py.contains p s then 1 else 0.

(** The score as the specification words it, the query and the fields
    taken as they are: compared with [lexical_score], which lower-cases
    both first. *)
Definition literal_score (query : str) (d : Document) : nat :=
  3 * occurs query (title d) + 2 * occurs query (description d)
  + Py.count query (content d).

(** A line that [extract_title] stops at. *)
Definition marked (line : str) : bool :=
  Py.startswith (lit "# ") line || Py.startswith (lit "title:") line.

(** The three tests of [warmup]. *)
Definition under_reference (u : str) : bool :=
  Py.startswith (base_url ++ lit "/reference") u.

Definition under_docs (u : str) : bool := Py.startswith (base_url ++ lit "/docs") u.

Definition no_changelog (u : str) : bool := negb (Py.contains (lit "/changelog") u).

Section Notions.

Variable lower : str -> str.
Variable server : nat -> str -> Reply.

(** The results of [simple_search] before they are sorted and cut. *)
Definition lexical_hit (query : str) (d : Document) : Hit :=
  DocHit d (inject_Z (Z.of_nat (lexical_score lower (lower query) d)) / 10)%Q.

Definition scoring (query : str) (c : DocumentCache) : list Document :=
  filter (fun d => 0 <? lexical_score lower (lower query) d) (map snd (cache c)).

(** The reply to the GET that a session in state [s] issues after [i]
    others. *)
Definition reply_at (s : VoiceflowMCP) (u : str) (i : nat) : Reply :=
  server (length (requests s) + i) u.

(** The reply told the client to try again: a 429 or a 5xx. *)
Definition retried (s : VoiceflowMCP) (u : str) (i : nat) : Prop :=
  exists resp, reply_at s u i = Answer resp /\ retryable resp = true.

(** How an attempt that is not retried ends [_get]. *)
Definition settles (rep : Reply) (r : result (option Response)) : Prop :=
  match rep with
  | TransportError => r = Raise HTTPError
  | Answer resp =>
      retryable resp = false
      /\ r = Ok (if is_success resp then Some resp else None)
  end.

(** The outcome of a fetch that started from a cache miss: what it asked
    the server, and either a new document in the cache or the cache as
    it was. *)
Definition miss_outcome (u : str) (s : VoiceflowMCP) (r : result (option Document))
           (s' : VoiceflowMCP) : Prop :=
  (exists m1 m2,
      1 <= m1 <= 4 /\ m2 <= 4
      /\ requests s' = requests s ++ repeat (md_url u) m1 ++ repeat u m2)
  /\ embedding_model s' = embedding_model s
  /\ ((exists d, r = Ok (Some d) /\ self_cache s' = set (self_cache s) u d)
      \/ ((r = Ok None \/ exists e, r = Raise e) /\ self_cache s' = self_cache s)).

End Notions.

(** ** Sample pages, sessions and servers *)

(** The text [# A], a fenced block holding the line [# not a heading], and
    [# B]. *)
Definition fenced_sample : str :=
  lit "# A" ++ [LF] ++ lit "```" ++ [LF] ++ lit "# not a heading" ++ [LF]
  ++ lit "```" ++ [LF] ++ lit "# B".

(** A page with a frontmatter block before its heading. *)
Definition frontmatter_sample : str :=
  lit "---" ++ [LF] ++ lit "title: X" ++ [LF] ++ lit "---" ++ [LF]
  ++ lit "# Heading" ++ [LF] ++ lit "Body text".

(** A cache holding the one page "Auth Guide". *)
Definition auth_url : str := lit "https://docs.voiceflow.com/docs/auth".

Definition auth_doc : Document :=
  {| url := auth_url; markdown_url := auth_url ++ lit ".md";
     title := lit "Auth Guide"; description := [];
     content := lit "Use Auth tokens. Auth is required.";
     raw_content := lit "Use Auth tokens. Auth is required.";
     doc_chunks := chunk_markdown (lit "Use Auth tokens. Auth is required.") |}.

Definition auth_cache : DocumentCache :=
  {| cache := [(auth_url, auth_doc)]; embeddings := None; documents := [] |}.

(** A page whose content is eleven times the letter [a]. *)
Definition repeated_doc : Document :=
  {| url := auth_url; markdown_url := auth_url; title := lit "T"; description := [];
     content := repeat 97%N 11; raw_content := repeat 97%N 11;
     doc_chunks := chunk_markdown (repeat 97%N 11) |}.

Definition repeated_cache : DocumentCache :=
  {| cache := [(auth_url, repeated_doc)]; embeddings := None; documents := [] |}.

(** A session without embedding capability over a cache, and a fresh one. *)
Definition lexical_session (c : DocumentCache) : VoiceflowMCP :=
  {| self_cache := c; embedding_model := None; requests := []; sleeps := [] |}.

Definition fresh_session : VoiceflowMCP :=
  lexical_session {| cache := []; embeddings := None; documents := [] |}.

(** An embedding capability for trying the vector path: a text becomes the
    vector of its length and 1. *)
Definition length_encoder : Encoder :=
  map (fun t => [inject_Z (Z.of_nat (length t)); 1%Q]).

(** A session with that capability over a page of two chunks, its index
    not yet built. *)
Definition two_chunk_doc : Document :=
  {| url := auth_url; markdown_url := auth_url ++ lit ".md";
     title := lit "Auth Guide"; description := [];
     content := lit "# Keys" ++ [LF] ++ lit "Use a key." ++ [LF] ++ lit "# Tokens"
                ++ [LF] ++ lit "Tokens expire after an hour.";
     raw_content := lit "# Keys" ++ [LF] ++ lit "Use a key." ++ [LF] ++ lit "# Tokens"
                    ++ [LF] ++ lit "Tokens expire after an hour.";
     doc_chunks := chunk_markdown
                     (lit "# Keys" ++ [LF] ++ lit "Use a key." ++ [LF] ++ lit "# Tokens"
                      ++ [LF] ++ lit "Tokens expire after an hour.") |}.

Definition vector_session : VoiceflowMCP :=
  {| self_cache := {| cache := [(auth_url, two_chunk_doc)];
                      embeddings := None; documents := [] |};
     embedding_model := Some length_encoder; requests := []; sleeps := [] |}.

(** Four servers: one that knows no page, one that never answers in time,
    one that is always overloaded, and one that serves every page as
    markdown. *)
Definition not_found_server : nat -> str -> Reply :=
  fun _ _ => Answer {| status_code := 404; content_type := None; text := [] |}.

Definition timeout_server : nat -> str -> Reply := fun _ _ => TransportError.

Definition busy_server : nat -> str -> Reply :=
  fun _ _ => Answer {| status_code := 503; content_type := None; text := [] |}.

Definition markdown_server : nat -> str -> Reply :=
  fun _ _ => Answer {| status_code := 200;
                       content_type := Some (lit "text/markdown");
                       text := lit "# Auth Guide" ++ [LF] ++ lit "Use Auth tokens." |}.

(** Three pages of a sitemap. *)
Definition reference_a : str := lit "https://docs.voiceflow.com/reference/a".
Definition reference_b : str := lit "https://docs.voiceflow.com/reference/b".
Definition guide_c : str := lit "https://docs.voiceflow.com/guides/c".

(** ** Notions for the properties of the rest of the code *)

(** The keys of a dict, in insertion order. *)
Definition keys {V} (d : list (str * V)) : list str := map fst d.

(** The document that [fetch_markdown_content] assembles for the URL [u]
    from the body [body] found at [final_url]. *)
Definition doc_data (u final_url body : str) : Document :=
  {| url := u; markdown_url := final_url;
     title := extract_title body;
     description := extract_description body;
     content := clean_markdown body; raw_content := body;
     doc_chunks := chunk_markdown (clean_markdown body) |}.

(** A cached document is coherent with its key when it is one that
    [fetch_markdown_content] could have assembled for it. *)
Definition coherent (u : str) (d : Document) : Prop :=
  exists final_url body,
    d = doc_data u final_url body /\ (final_url = md_url u \/ final_url = u).

Definition cache_coherent (c : DocumentCache) : Prop :=
  NoDup (keys (cache c))
  /\ Forall (fun kv => coherent (fst kv) (snd kv)) (cache c).

(** The session after the GET of [u] was logged. *)
Definition logged (u : str) (s : VoiceflowMCP) : VoiceflowMCP :=
  {| self_cache := self_cache s; embedding_model := embedding_model s;
     requests := requests s ++ [u]; sleeps := sleeps s |}.

(** The session after [d] was stored under [u]. *)
Definition stored (u : str) (d : Document) (s : VoiceflowMCP) : VoiceflowMCP :=
  {| self_cache := set (self_cache s) u d; embedding_model := embedding_model s;
     requests := requests s; sleeps := sleeps s |}.

(** The sum of a list of delays. *)
Definition total (l : list Q) : Q := fold_right Qplus 0%Q l.

(** The lines of a text that are headings for [chunk_markdown] when they
    stand outside a fence. *)
Definition heading_lines (ls : list str) : nat := length (filter heading_match ls).

(** The chunker after the lines [seen]: a chunk was emitted before the
    first heading only if it is the first, the buffer starts with the
    heading line once there is a heading, and no more chunks were emitted
    than heading lines were seen. *)
Record heading_inv (seen : list str) (st : Chunker) : Prop := {
  hinv_none : current_h st = None -> chunks st = [];
  hinv_buf : current_h st <> None -> exists l r, buf st = (hash :: l) :: r;
  hinv_tail : Forall (fun c => exists t, markdown c = hash :: t) (tl (chunks st));
  hinv_headed : Forall (fun c => heading c <> [] -> exists t, markdown c = hash :: t)
                       (chunks st);
  hinv_count : length (chunks st) <= heading_lines seen
}.

(** A line that [extract_description] passes over wherever it stands: it
    starts neither with [description:] nor with [## ]. *)
Definition plain_line (l : str) : bool :=
  negb (Py.startswith (lit "description:") l) && negb (Py.startswith (lit "## ") l).

(** [enumerate] from the index [k]. *)
Definition enumerate_from {A} (k : nat) (l : list A) : list (nat * A) :=
  combine (seq k (length l)) l.

(** The number of chunks of the cached documents. *)
Definition chunk_count (c : DocumentCache) : nat :=
  length (flat_map (fun kv => doc_chunks (snd kv)) (cache c)).

(** The characters that [build_embeddings] blanks: [#], [>], [*], [_] and
    the backtick. *)
Definition is_mark (c : char) : bool :=
  ((c =? 35) || (c =? 62) || (c =? 42) || (c =? 95) || (c =? 96))%N.

(** No whitespace character follows another one. *)
Fixpoint single_spaced (s : str) : Prop :=
  match s with
  | a :: (b :: _) as t => (Py.isspace a = true -> Py.isspace b = false) /\ single_spaced t
  | _ => True
  end.

(** What [build_embeddings] records for the chunk [ch] of the document [d]
    cached under [u]. *)
Definition entry_of (u : str) (d : Document) (ch : Chunk) : Entry :=
  {| e_url := u; e_markdown_url := markdown_url d; e_title := title d;
     e_heading := heading ch; snippet := Py.upto 500 (markdown ch) |}.

(** The answer of [answer_question] when no result carries a snippet and
    the first has none. *)
Definition fallback_answer : str :=
  lit "Based on the documentation, here's what I found: "
  ++ lit "No specific information available".

Section Accepting.

Variable lower : str -> str.

(** The body that the first branch of [fetch_markdown_content] keeps from
    the answer for the markdown variant, and the second one from the
    answer for the URL itself. *)
Definition body_of (r : option Response) : option str :=
  match r with
  | Some r => if markdownish lower r then Some (text r) else None
  | None => None
  end.

Definition accepted (r2 : option Response) : option str :=
  match r2 with
  | Some r2 => if is_success r2 && markdownish lower r2 then Some (text r2) else None
  | None => None
  end.

End Accepting.

(** A session whose index was built: [vector_session] after
    [build_embeddings]. *)
Definition indexed_session : VoiceflowMCP := snd (build_embeddings vector_session).

(** A server that serves HTML for every URL. *)
Definition html_server : nat -> str -> Reply :=
  fun _ _ => Answer {| status_code := 200;
                       content_type := Some (lit "text/html");
                       text := lit "<html><body>Auth Guide</body></html>" |}.

(** A server without the markdown variants: 404 for a URL ending in [.md],
    plain text for the others. *)
Definition plain_server : nat -> str -> Reply :=
  fun _ u =>
    if Py.endswith (lit ".md") u
    then Answer {| status_code := 404; content_type := None; text := [] |}
    else Answer {| status_code := 200; content_type := Some (lit "text/plain");
                   text := lit "Auth Guide" ++ [LF] ++ lit "Use Auth tokens." |}.

(** The source that [answer_question] lists for a result, and the line
    that it writes for a result with a snippet. *)
Definition source_of (h : Hit) : Source :=
  {| s_title := hit_title h; s_url := hit_url h; relevance := similarity h |}.


(** ** Reading a text up to whitespace *)

Section Squeeze.

Lemma squeeze_app a b : squeeze (a ++ b) = squeeze a ++ squeeze b.
Proof. apply filter_app. Qed.

Lemma squeeze_rev s : squeeze (rev s) = rev (squeeze s).
Proof.
  induction s as [|c s IH]; simpl; [reflexivity|].
  rewrite squeeze_app, IH. simpl.
  destruct (Py.isspace c); simpl; [now rewrite app_nil_r | reflexivity].
Qed.

Lemma squeeze_lstrip s : squeeze (Py.lstrip s) = squeeze s.
Proof.
  induction s as [|c s IH]; simpl; [reflexivity|].
  destruct (Py.isspace c) eqn:E; simpl; [exact IH | now rewrite E].
Qed.

Lemma squeeze_rstrip s : squeeze (Py.rstrip s) = squeeze s.
Proof.
  unfold Py.rstrip.
  now rewrite squeeze_rev, squeeze_lstrip, squeeze_rev, rev_involutive.
Qed.

Lemma squeeze_strip s : squeeze (Py.strip s) = squeeze s.
Proof. unfold Py.strip. now rewrite squeeze_rstrip, squeeze_lstrip. Qed.

Lemma squeeze_join ls : squeeze (Py.join newline ls) = squeeze (concat ls).
Proof.
  induction ls as [|l ls IH]; [reflexivity|].
  destruct ls as [|l' ls].
  - simpl. now rewrite app_nil_r.
  - change (Py.join newline (l :: l' :: ls))
      with (l ++ newline ++ Py.join newline (l' :: ls)).
    change (concat (l :: l' :: ls)) with (l ++ concat (l' :: ls)).
    now rewrite !squeeze_app, IH.
Qed.

Lemma islinebreak_isspace c : Py.islinebreak c = true -> Py.isspace c = true.
Proof.
  unfold Py.islinebreak, Py.isspace. intros H.
  repeat match type of H with
         | (_ || _) = true => apply orb_true_iff in H; destruct H as [H|H]
         | (_ && _) = true => apply andb_true_iff in H; destruct H as [? ?]
         end;
    repeat match goal with
           | H : (_ <=? _)%N = true |- _ => apply N.leb_le in H
           | H : (_ =? _)%N = true |- _ => apply N.eqb_eq in H
           end.
  all: repeat (apply orb_true_iff;
               first [ right; apply N.eqb_eq; assumption
                     | right; apply andb_true_iff; split; apply N.leb_le; lia
                     | left ]).
  all: try (apply N.eqb_eq; assumption).
  all: try (apply andb_true_iff; split; apply N.leb_le; lia).
Qed.

(** [splitlines] removes line boundaries only, which are whitespace. *)
Lemma squeeze_splitlines_le n :
  forall s, length s <= n -> squeeze (concat (Py.splitlines s)) = squeeze s.
Proof.
  induction n as [|n IH]; intros s Hn.
  - destruct s; [reflexivity | simpl in Hn; lia].
  - destruct s as [|c s]; [reflexivity|].
    simpl in Hn. cbn [Py.splitlines].
    destruct (Py.islinebreak c) eqn:Eb.
    + apply islinebreak_isspace in Eb.
      cbn [concat app squeeze filter]. rewrite Eb. cbn [negb].
      destruct s as [|d s]; [reflexivity|].
      destruct ((c =? 13)%N && (d =? 10)%N) eqn:Ecr.
      * apply andb_true_iff in Ecr. destruct Ecr as [_ Ed].
        apply N.eqb_eq in Ed. subst d. simpl in Hn.
        fold (squeeze (concat (Py.splitlines s))).
        rewrite IH by lia. reflexivity.
      * fold (squeeze (concat (Py.splitlines (d :: s)))).
        rewrite IH by lia. reflexivity.
    + specialize (IH s ltac:(lia)).
      destruct (Py.splitlines s) as [|l ls].
      * cbn in IH. cbn [concat app]. unfold squeeze in *. cbn [filter].
        rewrite <- IH. reflexivity.
      * change (concat ((c :: l) :: ls)) with (c :: concat (l :: ls)).
        unfold squeeze in *. cbn [filter]. now rewrite IH.
Qed.

Lemma squeeze_splitlines s : squeeze (concat (Py.splitlines s)) = squeeze s.
Proof. apply (squeeze_splitlines_le (n := length s)). lia. Qed.

Lemma truthy_false_nil {A} (l : list A) : Py.truthy l = false -> l = [].
Proof. destruct l; [reflexivity | discriminate]. Qed.

(** [flush] neither loses nor invents text. *)
Lemma squeeze_flush st : squeeze (chunker_text (flush st)) = squeeze (chunker_text st).
Proof.
  unfold flush, chunker_text. destruct (buf st) as [|b bs] eqn:Eb.
  - now rewrite Eb.
  - cbn [chunks buf]. change (concat []) with (@nil char).
    rewrite app_nil_r.
    set (text := Py.strip (Py.join newline (b :: bs))).
    assert (Ht : squeeze text = squeeze (concat (b :: bs)))
      by (unfold text; now rewrite squeeze_strip, squeeze_join).
    clearbody text. remember (concat (b :: bs)) as body.
    destruct (Py.truthy text) eqn:Et.
    + rewrite map_app, concat_app. cbn [map markdown concat].
      rewrite app_nil_r, !squeeze_app, Ht. reflexivity.
    + apply truthy_false_nil in Et. rewrite Et in Ht.
      rewrite squeeze_app, <- Ht. now rewrite app_nil_r.
Qed.

Lemma squeeze_chunk_step st ln :
  squeeze (chunker_text (chunk_step st ln)) = squeeze (chunker_text st) ++ squeeze ln.
Proof.
  assert (Hpush : forall cs b, squeeze (concat (map markdown cs) ++ concat (b ++ [ln]))
                  = squeeze (concat (map markdown cs) ++ concat b) ++ squeeze ln).
  { intros cs b. rewrite concat_app. cbn [concat].
    now rewrite app_nil_r, !squeeze_app, app_assoc. }
  unfold chunk_step.
  destruct (is_fence ln); [apply Hpush|].
  destruct (negb (in_code st) && heading_match ln); [|apply Hpush].
  unfold chunker_text at 1. cbn [chunks buf].
  rewrite Hpush. f_equal. apply squeeze_flush.
Qed.

Lemma squeeze_fold lines : forall st,
  squeeze (chunker_text (fold_left chunk_step lines st))
  = squeeze (chunker_text st) ++ squeeze (concat lines).
Proof.
  induction lines as [|ln lines IH]; intros st; simpl.
  - now rewrite app_nil_r.
  - rewrite IH, squeeze_chunk_step, squeeze_app, app_assoc. reflexivity.
Qed.

Lemma flush_buf st : buf (flush st) = [].
Proof. unfold flush. destruct (buf st) eqn:E; [exact E | reflexivity]. Qed.

End Squeeze.

(** C1. Chunk reconstruction: for every markdown input (with balanced code
    fences or not), the markdown fields of the chunks of [chunk_markdown],
    concatenated in order, are the input up to whitespace: the two texts
    are equal once their whitespace characters are removed, so that no
    line is lost, duplicated or reordered and only the line joins and the
    trimming of each chunk differ. *)
Theorem chunk_markdown_reconstruction (md : str) :
  squeeze (concat (map markdown (chunk_markdown md))) = squeeze md.
Proof.
  unfold chunk_markdown.
  set (st := fold_left chunk_step (Py.splitlines md) chunker_init).
  assert (H : squeeze (chunker_text (flush st)) = squeeze md).
  { rewrite squeeze_flush. unfold st. rewrite squeeze_fold.
    simpl. apply squeeze_splitlines. }
  unfold chunker_text in H. now rewrite flush_buf, app_nil_r in H.
Qed.


(** ** Code fences *)

Section Strip.

Lemma lstrip_app a b :
  Py.lstrip (a ++ b) = match Py.lstrip a with [] => Py.lstrip b | r => r ++ b end.
Proof.
  induction a as [|c a IH]; simpl; [reflexivity|].
  destruct (Py.isspace c); [exact IH | reflexivity].
Qed.

(** [rstrip] read from the left. *)
Lemma rstrip_cons c s :
  Py.rstrip (c :: s) =
  match Py.rstrip s with
  | [] => if Py.isspace c then [] else [c]
  | r => c :: r
  end.
Proof.
  unfold Py.rstrip. simpl rev. rewrite lstrip_app.
  destruct (Py.lstrip (rev s)) as [|x r] eqn:E.
  - simpl. destruct (Py.isspace c); reflexivity.
  - rewrite rev_app_distr. simpl.
    destruct (rev r ++ [x]) eqn:E'; [|reflexivity].
    destruct (rev r); discriminate.
Qed.

Lemma rstrip_nil : Py.rstrip [] = [].
Proof. reflexivity. Qed.

Lemma rstrip_lstrip s : Py.rstrip (Py.lstrip s) = Py.lstrip (Py.rstrip s).
Proof.
  induction s as [|c s IH]; [reflexivity|].
  rewrite rstrip_cons. simpl Py.lstrip at 1.
  destruct (Py.isspace c) eqn:E.
  - rewrite IH. destruct (Py.rstrip s); [reflexivity|].
    simpl. now rewrite E.
  - rewrite rstrip_cons, E.
    destruct (Py.rstrip s); simpl; now rewrite E.
Qed.

Lemma lstrip_idem s : Py.lstrip (Py.lstrip s) = Py.lstrip s.
Proof.
  induction s as [|c s IH]; simpl; [reflexivity|].
  destruct (Py.isspace c) eqn:E; [exact IH | simpl; now rewrite E].
Qed.

Lemma rstrip_idem s : Py.rstrip (Py.rstrip s) = Py.rstrip s.
Proof. unfold Py.rstrip. now rewrite rev_involutive, lstrip_idem. Qed.

Lemma rstrip_app_space s w :
  Forall (fun c => Py.isspace c = true) w -> Py.rstrip (s ++ w) = Py.rstrip s.
Proof.
  intros Hw. induction s as [|c s IH]; simpl.
  - induction Hw as [|x w Hx _ IHw]; [reflexivity|].
    now rewrite rstrip_cons, IHw, Hx.
  - now rewrite !rstrip_cons, IH.
Qed.

Lemma rstrip_app_nil s t : Py.rstrip t = [] -> Py.rstrip (s ++ t) = Py.rstrip s.
Proof.
  intros Ht. induction s as [|c s IH]; simpl; [exact Ht|].
  now rewrite !rstrip_cons, IH.
Qed.

Lemma rstrip_app_keep s t :
  Py.rstrip t <> [] -> Py.rstrip (s ++ t) = s ++ Py.rstrip t.
Proof.
  intros Ht. induction s as [|c s IH]; simpl; [reflexivity|].
  rewrite rstrip_cons, IH.
  destruct (s ++ Py.rstrip t) eqn:E; [|reflexivity].
  apply app_eq_nil in E. tauto.
Qed.

Lemma rstrip_Forall (P : char -> Prop) s : Forall P s -> Forall P (Py.rstrip s).
Proof.
  induction 1 as [|c s Hc Hs IH]; [constructor|].
  rewrite rstrip_cons. destruct (Py.rstrip s).
  - destruct (Py.isspace c); repeat constructor; assumption.
  - constructor; assumption.
Qed.

Lemma is_fence_rstrip l : is_fence (Py.rstrip l) = is_fence l.
Proof.
  unfold is_fence, Py.strip.
  now rewrite (rstrip_lstrip (Py.rstrip l)), rstrip_idem, <- rstrip_lstrip.
Qed.

Lemma is_fence_space c l : Py.isspace c = true -> is_fence (c :: l) = is_fence l.
Proof. intros E. unfold is_fence, Py.strip. simpl. now rewrite E. Qed.

Lemma is_fence_nil : is_fence [] = false.
Proof. reflexivity. Qed.

End Strip.


Section FenceLines.

Lemma fence_lines_cons l ls :
  fence_lines (l :: ls) = (if is_fence l then 1 else 0) + fence_lines ls.
Proof. unfold fence_lines. simpl. destruct (is_fence l); reflexivity. Qed.

Lemma fence_lines_app a b : fence_lines (a ++ b) = fence_lines a + fence_lines b.
Proof. unfold fence_lines. now rewrite filter_app, length_app. Qed.

(** A line boundary in front of a text adds an empty line, and no fence. *)
Lemma splitlines_linebreak c s :
  Py.islinebreak c = true ->
  fence_lines (Py.splitlines (c :: s)) = fence_lines (Py.splitlines s).
Proof.
  intros Eb. cbn [Py.splitlines]. rewrite Eb, fence_lines_cons, is_fence_nil.
  destruct s as [|d s]; [reflexivity|].
  destruct ((c =? 13)%N && (d =? 10)%N) eqn:Ecr; [|reflexivity].
  apply andb_true_iff in Ecr. destruct Ecr as [_ Ed]. apply N.eqb_eq in Ed. subst d.
  cbn [Py.splitlines]. change (Py.islinebreak 10%N) with true. cbv iota.
  rewrite fence_lines_cons, is_fence_nil.
  destruct s; reflexivity.
Qed.

(** Leading whitespace changes no fence-marker line. *)
Lemma fence_lines_lstrip s :
  fence_lines (Py.splitlines (Py.lstrip s)) = fence_lines (Py.splitlines s).
Proof.
  induction s as [|c s IH]; [reflexivity|].
  simpl Py.lstrip. destruct (Py.isspace c) eqn:Es; [|reflexivity].
  rewrite IH. destruct (Py.islinebreak c) eqn:Eb.
  - symmetry. now apply splitlines_linebreak.
  - cbn [Py.splitlines]. rewrite Eb.
    destruct (Py.splitlines s) as [|l ls].
    + unfold fence_lines. simpl. now rewrite is_fence_space.
    + now rewrite !fence_lines_cons, is_fence_space.
Qed.

Lemma splitlines_line l r :
  no_linebreak l -> Py.splitlines (l ++ LF :: r) = l :: Py.splitlines r.
Proof.
  induction 1 as [|c l Hc Hl IH].
  - simpl. destruct r; reflexivity.
  - cbn [app Py.splitlines]. now rewrite Hc, IH.
Qed.

Lemma splitlines_single l :
  no_linebreak l -> Py.splitlines l = match l with [] => [] | _ => [l] end.
Proof.
  induction 1 as [|c l Hc Hl IH]; [reflexivity|].
  cbn [Py.splitlines]. rewrite Hc, IH. destruct l; reflexivity.
Qed.

Lemma fence_lines_single l :
  no_linebreak l -> fence_lines (Py.splitlines l) = if is_fence l then 1 else 0.
Proof.
  intros H. rewrite (splitlines_single H). destruct l; [reflexivity|].
  now rewrite fence_lines_cons, Nat.add_0_r.
Qed.

Lemma splitlines_no_linebreak_le n :
  forall s, length s <= n -> Forall no_linebreak (Py.splitlines s).
Proof.
  induction n as [|n IH]; intros s Hn.
  - destruct s; [constructor | simpl in Hn; lia].
  - destruct s as [|c s]; [constructor|]. simpl in Hn. cbn [Py.splitlines].
    destruct (Py.islinebreak c) eqn:Eb.
    + constructor; [constructor|].
      destruct s as [|d s]; [constructor|]. simpl in Hn.
      destruct ((c =? 13)%N && (d =? 10)%N); apply IH; simpl; lia.
    + specialize (IH s ltac:(lia)).
      destruct (Py.splitlines s) as [|l ls].
      * repeat constructor. exact Eb.
      * inversion IH; subst. constructor; [constructor|]; assumption.
Qed.

Lemma splitlines_no_linebreak s : Forall no_linebreak (Py.splitlines s).
Proof. apply (splitlines_no_linebreak_le (n := length s)). lia. Qed.

(** Joining lines with a line feed and trimming the right end keeps the
    fence-marker lines. *)
Lemma fence_lines_rstrip_join ls :
  Forall no_linebreak ls ->
  fence_lines (Py.splitlines (Py.rstrip (Py.join newline ls))) = fence_lines ls.
Proof.
  induction 1 as [|l ls Hl Hls IH]; [reflexivity|].
  destruct ls as [|l' ls].
  - cbn [Py.join]. rewrite fence_lines_single by now apply rstrip_Forall.
    now rewrite is_fence_rstrip, fence_lines_cons, Nat.add_0_r.
  - change (Py.join newline (l :: l' :: ls))
      with (l ++ LF :: Py.join newline (l' :: ls)).
    set (J := Py.join newline (l' :: ls)) in *.
    rewrite fence_lines_cons.
    destruct (Py.rstrip J) as [|x R] eqn:ER.
    + assert (HJ : Py.rstrip (l ++ LF :: J) = Py.rstrip l).
      { apply rstrip_app_nil. now rewrite rstrip_cons, ER. }
      rewrite HJ, <- IH. simpl.
      rewrite fence_lines_single by now apply rstrip_Forall.
      now rewrite is_fence_rstrip, Nat.add_0_r.
    + assert (HJ : Py.rstrip (l ++ LF :: J) = l ++ LF :: Py.rstrip J).
      { change (l ++ LF :: J) with (l ++ [LF] ++ J). rewrite app_assoc.
        rewrite rstrip_app_keep by (rewrite ER; discriminate).
        now rewrite <- app_assoc. }
      rewrite HJ, splitlines_line, fence_lines_cons by assumption.
      now rewrite ER, IH.
Qed.

(** The fence-marker lines of a flushed buffer are those of its text. *)
Lemma fence_lines_text ls :
  Forall no_linebreak ls ->
  fence_lines (Py.splitlines (Py.strip (Py.join newline ls))) = fence_lines ls.
Proof.
  intros H. unfold Py.strip.
  now rewrite rstrip_lstrip, fence_lines_lstrip, fence_lines_rstrip_join.
Qed.

End FenceLines.

Section FenceInvariant.

Lemma even_fence_push ls ln :
  Nat.even (fence_lines (ls ++ [ln]))
  = if is_fence ln then negb (Nat.even (fence_lines ls)) else Nat.even (fence_lines ls).
Proof.
  rewrite fence_lines_app, fence_lines_cons. change (fence_lines []) with 0.
  destruct (is_fence ln).
  - replace (fence_lines ls + (1 + 0)) with (S (fence_lines ls)) by lia.
    now rewrite Nat.even_succ, <- Nat.negb_even.
  - now rewrite !Nat.add_0_r.
Qed.

Lemma fence_inv_init : fence_inv [] chunker_init.
Proof. split; simpl; auto. Qed.

(** A flush outside a fence emits at most one chunk, with its fences
    paired. *)
Lemma flush_chunks_even st :
  Forall (fun c => Nat.even (fence_lines (Py.splitlines (markdown c))) = true) (chunks st) ->
  Nat.even (fence_lines (buf st)) = true ->
  Forall no_linebreak (buf st) ->
  Forall (fun c => Nat.even (fence_lines (Py.splitlines (markdown c))) = true)
         (chunks (flush st)).
Proof.
  intros Hc Hb Hl. unfold flush.
  destruct (buf st) as [|b bs] eqn:Eb; [exact Hc|].
  cbn [chunks]. destruct (Py.truthy _); [|exact Hc].
  apply Forall_app. split; [exact Hc|].
  constructor; [|constructor]. cbn [markdown].
  now rewrite fence_lines_text.
Qed.

Lemma flush_in_code st : in_code (flush st) = in_code st.
Proof. unfold flush. destruct (buf st); reflexivity. Qed.

Lemma flush_current_h st : current_h (flush st) = current_h st.
Proof. unfold flush. destruct (buf st); reflexivity. Qed.

Lemma fence_inv_step seen st ln :
  no_linebreak ln -> fence_inv seen st -> fence_inv (seen ++ [ln]) (chunk_step st ln).
Proof.
  intros Hln [Hc Hb Hs Hl]. unfold chunk_step.
  destruct (is_fence ln) eqn:Ef.
  - split; cbn [chunks buf in_code].
    + exact Hc.
    + now rewrite even_fence_push, Ef, Hb.
    + now rewrite even_fence_push, Ef, Hs.
    + apply Forall_app. split; [exact Hl | now constructor].
  - destruct (in_code st) eqn:Ei; cbn [negb andb].
    + split; cbn [chunks buf in_code].
      * exact Hc.
      * rewrite even_fence_push, Ef, Hb; now rewrite ?Ei.
      * rewrite even_fence_push, Ef, Hs; now rewrite ?Ei.
      * apply Forall_app. split; [exact Hl | now constructor].
    + destruct (heading_match ln).
      * split; cbn [chunks buf in_code].
        -- apply flush_chunks_even; assumption.
        -- rewrite flush_buf, flush_in_code, ?Ei. simpl.
           rewrite fence_lines_cons, Ef. reflexivity.
        -- rewrite even_fence_push, Ef, Hs, flush_in_code; now rewrite ?Ei.
        -- rewrite flush_buf. now constructor.
      * split; cbn [chunks buf in_code].
        -- exact Hc.
        -- rewrite even_fence_push, Ef, Hb; now rewrite ?Ei.
        -- rewrite even_fence_push, Ef, Hs; now rewrite ?Ei.
        -- apply Forall_app. split; [exact Hl | now constructor].
Qed.

Lemma fence_inv_fold lines : forall seen st,
  Forall no_linebreak lines -> fence_inv seen st ->
  fence_inv (seen ++ lines) (fold_left chunk_step lines st).
Proof.
  induction lines as [|ln lines IH]; intros seen st Hl Hi; simpl.
  - now rewrite app_nil_r.
  - inversion Hl; subst.
    replace (seen ++ ln :: lines) with ((seen ++ [ln]) ++ lines)
      by now rewrite <- app_assoc.
    apply IH; [assumption|]. now apply fence_inv_step.
Qed.

(** Inside a fence every line goes to the buffer: nothing is flushed and
    the heading is kept. *)
Lemma chunk_step_in_code st ln :
  in_code st = true ->
  chunks (chunk_step st ln) = chunks st
  /\ buf (chunk_step st ln) = buf st ++ [ln]
  /\ current_h (chunk_step st ln) = current_h st.
Proof.
  intros Ei. unfold chunk_step. rewrite Ei. cbn [negb andb].
  destruct (is_fence ln); repeat split.
Qed.

End FenceInvariant.

(** C2. Fence integrity: for every markdown input with balanced code
    fences, every chunk of [chunk_markdown] holds an even number of
    fence-marker lines, so that a fence opened in a chunk is closed in it;
    and at a line that follows an opening fence and is not past its closing
    fence (an odd number of fence-marker lines precede it) the chunker
    never flushes: the line, a heading line included, is appended to the
    buffer, the chunks and the current heading staying as they are. *)
Theorem chunk_markdown_fence_integrity (md : str) :
  balanced md ->
  (forall c, In c (chunk_markdown md) ->
             Nat.even (fence_lines (Py.splitlines (markdown c))) = true)
  /\ (forall pre ln post,
        Py.splitlines md = pre ++ ln :: post ->
        Nat.odd (fence_lines pre) = true ->
        let st := fold_left chunk_step pre chunker_init in
        chunks (chunk_step st ln) = chunks st
        /\ buf (chunk_step st ln) = buf st ++ [ln]
        /\ current_h (chunk_step st ln) = current_h st).
Proof.
  intros Hbal. split.
  - intros c Hc. unfold chunk_markdown in Hc.
    pose proof (fence_inv_fold (seen := []) (splitlines_no_linebreak md) fence_inv_init)
      as [Hcs Hb Hs Hl].
    simpl in Hs. unfold balanced in Hbal. rewrite Hbal in Hs.
    assert (Ei : in_code (fold_left chunk_step (Py.splitlines md) chunker_init) = false)
      by (destruct (in_code _); [discriminate | reflexivity]).
    rewrite Ei in Hb.
    pose proof (flush_chunks_even _ Hcs Hb Hl) as Hall.
    rewrite Forall_forall in Hall. now apply Hall.
  - intros pre ln post Hsplit Hodd st. apply chunk_step_in_code.
    assert (Hpre : Forall no_linebreak pre).
    { pose proof (splitlines_no_linebreak md) as H. rewrite Hsplit in H.
      apply Forall_app in H. tauto. }
    pose proof (fence_inv_fold (seen := []) Hpre fence_inv_init) as [_ _ Hs _].
    simpl in Hs. fold st in Hs. rewrite <- Nat.negb_odd, Hodd in Hs.
    destruct (in_code st); [reflexivity | discriminate].
Qed.

Lemma chunk_markdown_fence_integrity_witness :
  balanced fenced_sample
  /\ (forall c, In c (chunk_markdown fenced_sample) ->
                Nat.even (fence_lines (Py.splitlines (markdown c))) = true)
  /\ Py.splitlines fenced_sample
     = [lit "# A"; lit "```"] ++ lit "# not a heading" :: [lit "```"; lit "# B"]
  /\ Nat.odd (fence_lines [lit "# A"; lit "```"]) = true
  /\ chunks (chunk_step (fold_left chunk_step [lit "# A"; lit "```"] chunker_init)
                        (lit "# not a heading"))
     = chunks (fold_left chunk_step [lit "# A"; lit "```"] chunker_init).
Proof.
  assert (H : balanced fenced_sample) by (vm_compute; reflexivity).
  assert (Hs : Py.splitlines fenced_sample
               = [lit "# A"; lit "```"] ++ lit "# not a heading" :: [lit "```"; lit "# B"])
    by (vm_compute; reflexivity).
  assert (Ho : Nat.odd (fence_lines [lit "# A"; lit "```"]) = true)
    by (vm_compute; reflexivity).
  destruct (chunk_markdown_fence_integrity H) as [H1 H2].
  split; [exact H|]. split; [exact H1|]. split; [exact Hs|]. split; [exact Ho|].
  exact (proj1 (H2 _ _ _ Hs Ho)).
Defined.

Example chunk_markdown_fenced_sample :
  map heading (chunk_markdown fenced_sample) = [lit "A"; lit "B"].
Proof. vm_compute. reflexivity. Qed.


(** ** Ranking: order and limit *)

Section Sorting.

Variable A : Type.
Variable key : A -> Q.

Let ge (a b : A) : Prop := (key b <= key a)%Q.

Lemma Qle_bool_false x y : Qle_bool x y = false -> (y <= x)%Q.
Proof.
  intros H. apply Qlt_le_weak, Qnot_le_lt. intros Hle.
  apply Qle_bool_iff in Hle. congruence.
Qed.

Lemma insert_desc_perm x l : Permutation (insert_desc key x l) (x :: l).
Proof.
  induction l as [|y l IH]; simpl; [reflexivity|].
  destruct (Qle_bool (key y) (key x)); [reflexivity|].
  rewrite IH. apply perm_swap.
Qed.

Lemma sort_desc_perm l : Permutation (sort_desc key l) l.
Proof.
  induction l as [|x l IH]; simpl; [constructor|].
  rewrite insert_desc_perm. now constructor.
Qed.

Lemma insert_desc_sorted x l :
  StronglySorted ge l -> StronglySorted ge (insert_desc key x l).
Proof.
  induction 1 as [|y l Hs IH Hy]; simpl.
  - repeat constructor.
  - destruct (Qle_bool (key y) (key x)) eqn:E.
    + apply Qle_bool_iff in E.
      constructor; [now constructor|].
      constructor; [exact E|].
      eapply Forall_impl; [|exact Hy]. intros z Hz. unfold ge in *.
      eapply Qle_trans; eassumption.
    + apply Qle_bool_false in E.
      constructor; [exact IH|].
      eapply Permutation_Forall; [symmetry; apply insert_desc_perm|].
      constructor; assumption.
Qed.

Lemma sort_desc_sorted l : StronglySorted ge (sort_desc key l).
Proof.
  induction l as [|x l IH]; simpl; [constructor|].
  now apply insert_desc_sorted.
Qed.

Lemma StronglySorted_map (R : A -> A -> Prop) l :
  StronglySorted R l ->
  forall (S : Q -> Q -> Prop), (forall a b, R a b -> S (key a) (key b)) ->
  StronglySorted S (map key l).
Proof.
  intros H S HS. induction H as [|x l Hs IH Hx]; simpl; constructor; [exact IH|].
  apply Forall_map. eapply Forall_impl; [|exact Hx]. intros; now apply HS.
Qed.

End Sorting.

Section Slices.

Variable A : Type.

Lemma StronglySorted_firstn (R : A -> A -> Prop) n : forall l,
  StronglySorted R l -> StronglySorted R (firstn n l).
Proof.
  induction n as [|n IH]; intros l H; [constructor|].
  destruct l as [|x l]; [constructor|].
  inversion H; subst. simpl. constructor; [now apply IH|].
  rewrite Forall_forall in *. intros y Hy.
  assert (In y l) by (rewrite <- (firstn_skipn n l); apply in_or_app; now left).
  auto.
Qed.

Lemma StronglySorted_app_single (R : A -> A -> Prop) l x :
  StronglySorted R l -> Forall (fun y => R y x) l -> StronglySorted R (l ++ [x]).
Proof.
  induction 1 as [|y l Hs IH Hy]; intros Hx; simpl.
  - repeat constructor.
  - inversion Hx; subst. constructor; [now apply IH|].
    apply Forall_app. split; [assumption | now constructor].
Qed.

Lemma StronglySorted_rev (R : A -> A -> Prop) l :
  StronglySorted R l -> StronglySorted (fun a b => R b a) (rev l).
Proof.
  induction 1 as [|x l Hs IH Hx]; simpl; [constructor|].
  apply StronglySorted_app_single; [exact IH|].
  apply Forall_rev. exact Hx.
Qed.

Lemma slice_to_sorted (R : A -> A -> Prop) k l :
  StronglySorted R l -> StronglySorted R (Py.slice_to k l).
Proof. unfold Py.slice_to. destruct (0 <=? k)%Z; apply StronglySorted_firstn. Qed.

Lemma slice_to_length k (l : list A) :
  (0 <= k)%Z -> (Z.of_nat (length (Py.slice_to k l)) <= k)%Z.
Proof.
  intros Hk. unfold Py.slice_to.
  destruct (Z.leb_spec 0 k); [|lia].
  rewrite length_firstn. lia.
Qed.

Lemma slice_to_incl k (l : list A) : incl (Py.slice_to k l) l.
Proof.
  unfold Py.slice_to. intros x Hx.
  destruct (0 <=? k)%Z;
    match type of Hx with In _ (firstn ?n _) =>
      rewrite <- (firstn_skipn n l); apply in_or_app; now left end.
Qed.

End Slices.

Section Argsort.

Variable v : list Q.

Let le (i j : nat) : Prop := (nth i v 0 <= nth j v 0)%Q.

Lemma insert_asc_perm i l : Permutation (insert_asc v i l) (i :: l).
Proof.
  induction l as [|j l IH]; simpl; [reflexivity|].
  destruct (Qle_bool _ _); [reflexivity|].
  rewrite IH. apply perm_swap.
Qed.

Lemma insert_asc_sorted i l :
  StronglySorted le l -> StronglySorted le (insert_asc v i l).
Proof.
  induction 1 as [|j l Hs IH Hj]; simpl.
  - repeat constructor.
  - destruct (Qle_bool (nth i v 0%Q) (nth j v 0%Q)) eqn:E.
    + apply Qle_bool_iff in E.
      constructor; [now constructor|].
      constructor; [exact E|].
      eapply Forall_impl; [|exact Hj]. intros z Hz. unfold le in *.
      eapply Qle_trans; eassumption.
    + apply Qle_bool_false in E.
      constructor; [exact IH|].
      eapply Permutation_Forall; [symmetry; apply insert_asc_perm|].
      constructor; assumption.
Qed.

Lemma argsort_perm : Permutation (argsort v) (seq 0 (length v)).
Proof.
  unfold argsort. induction (seq 0 (length v)) as [|i l IH]; simpl; [constructor|].
  rewrite insert_asc_perm. now constructor.
Qed.

Lemma argsort_sorted : StronglySorted le (argsort v).
Proof.
  unfold argsort. induction (seq 0 (length v)) as [|i l IH]; simpl; [constructor|].
  now apply insert_asc_sorted.
Qed.

Lemma argsort_bound i : In i (argsort v) -> i < length v.
Proof.
  intros H. apply (Permutation_in _ argsort_perm) in H.
  apply in_seq in H. lia.
Qed.

End Argsort.

Section SearchFacts.

Variable lower : str -> str.

Lemma simple_search_descending c query limit :
  descending (map similarity (simple_search lower c query limit)).
Proof.
  unfold simple_search, descending.
  apply StronglySorted_map with (R := fun a b => (similarity b <= similarity a)%Q);
    [|auto].
  apply slice_to_sorted, sort_desc_sorted.
Qed.

Lemma simple_search_length c query limit :
  (0 <= limit)%Z ->
  (Z.of_nat (length (simple_search lower c query limit)) <= limit)%Z.
Proof. intros H. unfold simple_search. now apply slice_to_length. Qed.

Lemma collect_hits_ok docs sims idxs s hits s' :
  collect_hits docs sims idxs s = (Ok hits, s') ->
  s' = s /\ map similarity hits = map (fun i => nth i sims 0%Q) idxs.
Proof.
  revert hits. induction idxs as [|i idxs IH]; intros hits H; simpl in H.
  - unfold ret in H. inversion H; subst. now split.
  - destruct (nth_error docs i) as [doc|]; [|discriminate].
    unfold bind in H. destruct (collect_hits docs sims idxs s) as [[hs|e] s1] eqn:E;
      [|discriminate].
    unfold ret in H. inversion H; subst.
    destruct (IH hs eq_refl) as [-> Hm]. split; [reflexivity|].
    simpl. now rewrite Hm.
Qed.

Lemma collect_hits_total docs sims idxs s :
  Forall (fun i => i < length docs) idxs ->
  exists hits, collect_hits docs sims idxs s = (Ok hits, s).
Proof.
  induction 1 as [|i idxs Hi _ [hs IH]]; simpl.
  - now exists [].
  - destruct (nth_error docs i) as [doc|] eqn:E.
    + unfold bind. rewrite IH. now eexists.
    + apply nth_error_None in E. lia.
Qed.

Lemma ensure_index_ok s :
  exists s1, ensure_index s = (Ok tt, s1)
             /\ embedding_model s1 = embedding_model s
             /\ cache (self_cache s1) = cache (self_cache s)
             /\ requests s1 = requests s
             /\ (index_consistent s -> encoder_contract s -> index_consistent s1).
Proof.
  unfold ensure_index, bind, get_self.
  destruct (has_embeddings (self_cache s)).
  - exists s. unfold ret. tauto.
  - unfold build_embeddings, bind, get_self.
    destruct (embedding_model s) as [encode|] eqn:Em.
    + destruct (Py.truthy (embedding_inputs (self_cache s))).
      * eexists. unfold set_cache. split; [reflexivity|].
        simpl. repeat split; auto.
        intros _ Hc. unfold index_consistent, encoder_contract in *. simpl.
        rewrite Em in Hc. now rewrite Hc, !length_map.
      * exists s. unfold ret. rewrite Em. tauto.
    + exists s. unfold ret. rewrite Em. tauto.
Qed.

Lemma search_documents_unfold query limit s :
  search_documents lower query limit s =
  match ensure_index s with
  | (Ok _, s1) =>
      match embedding_model s1, embeddings (self_cache s1) with
      | Some encode, Some emb =>
          if has_embeddings (self_cache s1) then
            let q := hd [] (encode [query]) in
            let sims := map (fun row => dot row q) emb in
            collect_hits (documents (self_cache s1)) sims
                         (Py.slice_to limit (rev (argsort sims))) s1
          else (Ok (simple_search lower (self_cache s1) query limit), s1)
      | _, _ => (Ok (simple_search lower (self_cache s1) query limit), s1)
      end
  | (Raise e, s1) => (Raise e, s1)
  end.
Proof.
  unfold search_documents, ensure_index, bind, get_self.
  destruct (has_embeddings (self_cache s)) eqn:Eh.
  - unfold ret.
    destruct (embedding_model s), (embeddings (self_cache s)); try reflexivity.
    now rewrite Eh.
  - destruct (build_embeddings s) as [[[]|e] s1]; [|reflexivity].
    destruct (embedding_model s1), (embeddings (self_cache s1)); try reflexivity.
    now destruct (has_embeddings (self_cache s1)).
Qed.

End SearchFacts.

(** C5. Ranking order and limit: for every session state, query and limit
    (a count, so not negative), the results that [search_documents] returns
    are at most [limit] and their similarities never increase along the
    list; this holds on the vector path and on the lexical path
    ([simple_search]), and the call does return its results whenever the
    index is consistent and the embedding capability gives one vector per
    text. *)
Theorem search_documents_ranked (lower : str -> str) (query : str) (limit : Z)
        (s : VoiceflowMCP) :
  (0 <= limit)%Z ->
  (forall hits s', search_documents lower query limit s = (Ok hits, s') ->
                   (Z.of_nat (length hits) <= limit)%Z
                   /\ descending (map similarity hits))
  /\ ((Z.of_nat (length (simple_search lower (self_cache s) query limit)) <= limit)%Z
      /\ descending (map similarity (simple_search lower (self_cache s) query limit)))
  /\ (index_consistent s -> encoder_contract s ->
      exists hits s', search_documents lower query limit s = (Ok hits, s')).
Proof.
  intros Hlimit.
  destruct (ensure_index_ok s) as (s1 & Hs1 & Hmodel & _ & _ & Hcons).
  split; [|split].
  - intros hits s' H. rewrite search_documents_unfold, Hs1 in H.
    assert (Hlex : forall c, (Ok (simple_search lower c query limit), s1) = (Ok hits, s') ->
                   (Z.of_nat (length hits) <= limit)%Z /\ descending (map similarity hits)).
    { intros c E. inversion E; subst. split.
      - now apply simple_search_length.
      - apply simple_search_descending. }
    destruct (embedding_model s1) as [encode|]; [|now apply (Hlex (self_cache s1))].
    destruct (embeddings (self_cache s1)) as [emb|]; [|now apply (Hlex (self_cache s1))].
    destruct (has_embeddings (self_cache s1)); [|now apply (Hlex (self_cache s1))].
    cbv zeta in H. apply collect_hits_ok in H. destruct H as [_ Hm].
    split.
    + rewrite <- (length_map similarity), Hm, length_map.
      now apply slice_to_length.
    + rewrite Hm. unfold descending.
      apply StronglySorted_map with (R := fun i j =>
        (nth j (map (fun row => dot row (hd [] (encode [query]))) emb) 0
         <= nth i (map (fun row => dot row (hd [] (encode [query]))) emb) 0)%Q); [|auto].
      apply slice_to_sorted.
      apply (StronglySorted_rev (argsort_sorted _)).
  - split; [now apply simple_search_length | apply simple_search_descending].
  - intros Hc He. rewrite search_documents_unfold, Hs1.
    specialize (Hcons Hc He). unfold index_consistent in Hcons.
    destruct (embedding_model s1) as [encode|]; [|eauto].
    destruct (embeddings (self_cache s1)) as [emb|]; [|eauto].
    destruct (has_embeddings (self_cache s1)); [|eauto].
    cbv zeta.
    destruct (collect_hits_total (documents (self_cache s1))
                (map (fun row => dot row (hd [] (encode [query]))) emb)
                (idxs := Py.slice_to limit
                           (rev (argsort (map (fun row => dot row (hd [] (encode [query]))) emb))))
                s1) as [hits Hh].
    + rewrite Forall_forall. intros i Hi.
      apply slice_to_incl, in_rev, argsort_bound in Hi.
      rewrite length_map in Hi. lia.
    + eauto.
Qed.


Lemma search_documents_ranked_witness :
  (0 <= 1)%Z
  /\ exists hits s',
      search_documents ascii_lower (lit "tokens") 1 vector_session = (Ok hits, s')
      /\ (Z.of_nat (length hits) <= 1)%Z
      /\ descending (map similarity hits).
Proof.
  assert (H : (0 <= 1)%Z) by lia. split; [exact H|].
  destruct (search_documents_ranked ascii_lower (lit "tokens") vector_session H)
    as (Hranked & _ & Hreturns).
  assert (Hc : index_consistent vector_session) by exact I.
  assert (He : encoder_contract vector_session)
    by (intros texts; apply length_map).
  destruct (Hreturns Hc He) as (hits & s' & E).
  exists hits, s'. split; [exact E|]. exact (Hranked hits s' E).
Defined.

(** On the sample the vector path ranks the chunk with the longer text
    first. *)
Example search_documents_vector_sample :
  match fst (search_documents ascii_lower (lit "tokens") 5 vector_session) with
  | Ok hits => map hit_heading hits
  | Raise _ => []
  end = [lit "Tokens"; lit "Keys"].
Proof. vm_compute. reflexivity. Qed.

(** ** The lexical fallback *)

Section LexicalFacts.

Variable lower : str -> str.

Lemma count_absent p s : Py.contains p s = false -> Py.count p s = 0.
Proof.
  unfold Py.count. induction s as [|c s IH]; intros H.
  - simpl in *. rewrite orb_false_r in H. now rewrite H.
  - cbn [Py.contains] in H. apply orb_false_iff in H. destruct H as [H1 H2].
    cbn [Py.count_from]. rewrite H1. now apply IH.
Qed.

Lemma lexical_score_formula query_lower d :
  lexical_score lower query_lower d
  = 3 * occurs query_lower (lower (title d))
    + 2 * occurs query_lower (lower (description d))
    + Py.count query_lower (lower (content d)).
Proof.
  unfold lexical_score, occurs.
  destruct (Py.contains query_lower (lower (title d)));
    destruct (Py.contains query_lower (lower (description d)));
    destruct (Py.contains query_lower (lower (content d))) eqn:E;
    rewrite ?(count_absent _ _ E); reflexivity.
Qed.

Lemma simple_search_results c query limit :
  simple_search lower c query limit
  = Py.slice_to limit
      (sort_desc similarity (map (lexical_hit lower query) (scoring lower query c))).
Proof.
  unfold simple_search, scoring. do 2 f_equal.
  induction (cache c) as [|[u d] l IH]; [reflexivity|].
  cbn [flat_map map filter snd]. rewrite IH.
  destruct (0 <? lexical_score lower (lower query) d); reflexivity.
Qed.

Lemma search_documents_fallback query limit s :
  embedding_model s = None ->
  search_documents lower query limit s
  = (Ok (simple_search lower (self_cache s) query limit), s).
Proof.
  intros Hm. unfold search_documents, bind, get_self, build_embeddings.
  destruct (has_embeddings (self_cache s)); unfold ret, bind, get_self;
    cbv beta iota; rewrite ?Hm; cbv beta iota; rewrite ?Hm; reflexivity.
Qed.

Lemma max_of_ge_first rest : forall first, (first <= max_of first rest)%Q.
Proof.
  unfold max_of. induction rest as [|x rest IH]; intros first; simpl.
  - apply Qle_refl.
  - destruct (Qle_bool x first) eqn:E; [apply IH|].
    apply Qle_bool_false in E. eapply Qle_trans; [exact E | apply IH].
Qed.

(** [max_of] is one of the values and none is larger. *)
Lemma max_of_spec rest : forall first,
  In (max_of first rest) (first :: rest)
  /\ Forall (fun x => (x <= max_of first rest)%Q) (first :: rest).
Proof.
  induction rest as [|x rest IH]; intros first.
  - simpl. split; [now left | repeat constructor; apply Qle_refl].
  - change (max_of first (x :: rest))
      with (max_of (if Qle_bool x first then first else x) rest).
    destruct (IH (if Qle_bool x first then first else x)) as [Hin Hall].
    inversion Hall as [|? ? Hm Hrest]; subst. split.
    + destruct Hin as [Hin|Hin]; [|right; right; exact Hin].
      rewrite <- Hin. destruct (Qle_bool x first); [left | right; left]; reflexivity.
    + destruct (Qle_bool x first) eqn:E.
      * apply Qle_bool_iff in E.
        constructor; [exact Hm|]. constructor; [|exact Hrest].
        eapply Qle_trans; eassumption.
      * apply Qle_bool_false in E.
        constructor; [|constructor; assumption].
        eapply Qle_trans; eassumption.
Qed.

Lemma answer_question_unfold question s :
  embedding_model s = None ->
  answer_question lower question s =
  match simple_search lower (self_cache s) question 3 with
  | [] => (Ok {| answer := no_information; sources := []; confidence := 0 |}, s)
  | first :: rest =>
      (Ok {| answer :=
               if Py.truthy (flat_map answer_part (first :: rest))
               then Py.join [LF; LF] (flat_map answer_part (first :: rest))
               else lit "Based on the documentation, here's what I found: "
                    ++ match hit_snippet first with
                       | Some sn => sn
                       | None => lit "No specific information available"
                       end;
             sources := map (fun h => {| s_title := hit_title h; s_url := hit_url h;
                                         relevance := similarity h |})
                            (first :: rest);
             confidence := max_of (similarity first) (map similarity rest) |}, s)
  end.
Proof.
  intros Hm. unfold answer_question, bind.
  rewrite search_documents_fallback by exact Hm.
  destruct (simple_search lower (self_cache s) question 3); reflexivity.
Qed.

End LexicalFacts.

Lemma slice_to_single {A} (x : A) limit : (1 <= limit)%Z -> Py.slice_to limit [x] = [x].
Proof.
  intros H. unfold Py.slice_to. destruct (Z.leb_spec 0 limit); [|lia].
  destruct (Z.to_nat limit) as [|n] eqn:E; [lia | now destruct n].
Qed.

Lemma score_over_ten n : 11 <= n -> (1 < inject_Z (Z.of_nat n) / 10)%Q.
Proof. intros H. unfold Qlt, Qdiv, Qmult, Qinv, inject_Z. simpl. lia. Qed.

(** C8 (amended). Lexical fallback scoring: without embedding capability
    [search_documents] returns the results of [simple_search]; the score of
    a stored document is 3 when the lower-cased query is a substring of the
    lower-cased title, plus 2 when it is one of the lower-cased
    description, plus the number of its non-overlapping occurrences in the
    lower-cased content; the documents of score 0 are left out, the
    similarity reported is the score divided by 10, and the results are the
    first [limit] of the others in descending order of score.  A single
    document titled "Auth Guide", whose description does not hold the
    query "Auth" and whose content holds it twice, case apart, gets 0.5. *)
Theorem simple_search_scoring (lower : str -> str) :
  (forall query d,
      lexical_score lower (lower query) d
      = 3 * occurs (lower query) (lower (title d))
        + 2 * occurs (lower query) (lower (description d))
        + Py.count (lower query) (lower (content d)))
  /\ (forall s query limit,
         embedding_model s = None ->
         search_documents lower query limit s
         = (Ok (simple_search lower (self_cache s) query limit), s))
  /\ (forall c query limit,
         (0 <= limit)%Z ->
         exists ranked,
           Permutation ranked (map (lexical_hit lower query) (scoring lower query c))
           /\ descending (map similarity ranked)
           /\ simple_search lower c query limit = firstn (Z.to_nat limit) ranked)
  /\ (forall c u d limit,
         cache c = [(u, d)] ->
         title d = lit "Auth Guide" ->
         lower (lit "Auth") = lit "auth" ->
         lower (lit "Auth Guide") = lit "auth guide" ->
         Py.contains (lit "auth") (lower (description d)) = false ->
         Py.count (lit "auth") (lower (content d)) = 2 ->
         (1 <= limit)%Z ->
         exists sim, simple_search lower c (lit "Auth") limit = [DocHit d sim]
                     /\ (sim == 1 # 2)%Q).
Proof.
  split; [|split; [|split]].
  - intros query d. apply lexical_score_formula.
  - intros s query limit. apply search_documents_fallback.
  - intros c query limit Hl.
    exists (sort_desc similarity (map (lexical_hit lower query) (scoring lower query c))).
    split; [apply sort_desc_perm|]. split.
    + apply StronglySorted_map with (R := fun a b => (similarity b <= similarity a)%Q);
        [apply sort_desc_sorted | auto].
    + rewrite simple_search_results. unfold Py.slice_to.
      destruct (Z.leb_spec 0 limit); [reflexivity | lia].
  - intros c u d limit Hc Ht Hq Hl Hd Hn Hlim.
    assert (Hs : lexical_score lower (lower (lit "Auth")) d = 5).
    { rewrite lexical_score_formula, Hq, Ht, Hl, Hn. unfold occurs. now rewrite Hd. }
    rewrite simple_search_results. unfold scoring, lexical_hit.
    rewrite Hc. cbn [map snd filter]. rewrite Hs. cbn [Nat.ltb Nat.leb map sort_desc fold_right insert_desc].
    rewrite slice_to_single by assumption.
    eexists. split; [reflexivity | rewrite Hs; reflexivity].
Qed.

Lemma simple_search_scoring_witness :
  (embedding_model (lexical_session auth_cache) = None
   /\ search_documents ascii_lower (lit "Auth") 5 (lexical_session auth_cache)
      = (Ok (simple_search ascii_lower auth_cache (lit "Auth") 5),
         lexical_session auth_cache))
  /\ ((0 <= 5)%Z
      /\ exists ranked,
          Permutation ranked
            (map (lexical_hit ascii_lower (lit "Auth"))
                 (scoring ascii_lower (lit "Auth") auth_cache))
          /\ descending (map similarity ranked)
          /\ simple_search ascii_lower auth_cache (lit "Auth") 5
             = firstn (Z.to_nat 5) ranked)
  /\ ((1 <= 5)%Z
      /\ exists sim,
          simple_search ascii_lower auth_cache (lit "Auth") 5 = [DocHit auth_doc sim]
          /\ (sim == 1 # 2)%Q).
Proof.
  destruct (simple_search_scoring ascii_lower) as (_ & H2 & H3 & H4).
  split; [split; [reflexivity | exact (H2 (lexical_session auth_cache) _ _ eq_refl)]|].
  assert (H0 : (0 <= 5)%Z) by lia. assert (H1 : (1 <= 5)%Z) by lia.
  split; [split; [exact H0 | exact (H3 auth_cache (lit "Auth") 5%Z H0)]|].
  split; [exact H1|].
  exact (H4 auth_cache auth_url auth_doc 5%Z eq_refl eq_refl eq_refl eq_refl
            eq_refl eq_refl H1).
Defined.

(** The claim of C8 as it is worded fails where the case differs: for the
    query "auth" the page "Auth Guide" scores 0 by the literal count, so
    that it should be left out, and the code returns it with 0.5. *)
Lemma simple_search_ignores_case :
  literal_score (lit "auth") auth_doc = 0
  /\ lexical_score ascii_lower (ascii_lower (lit "auth")) auth_doc = 5
  /\ exists sim,
       simple_search ascii_lower auth_cache (lit "auth") 5 = [DocHit auth_doc sim]
       /\ (sim == 1 # 2)%Q.
Proof.
  split; [vm_compute; reflexivity|]. split; [vm_compute; reflexivity|].
  eexists. split; [vm_compute; reflexivity | reflexivity].
Qed.

(** C10. The lexical similarity has no bound at 1.0, and neither has the
    confidence of [answer_question]: in a session without embedding
    capability whose cache holds one document with 11 or more occurrences
    of the lower-cased question in its lower-cased content, the search
    returns that document with a similarity above 1 and the answer has a
    confidence above 1; and whenever the search returns results, the
    confidence is one of their similarities and none of them is larger. *)
Theorem lexical_similarity_unbounded (lower : str -> str) (s : VoiceflowMCP)
        (u : str) (d : Document) (question : str) :
  embedding_model s = None ->
  cache (self_cache s) = [(u, d)] ->
  11 <= Py.count (lower question) (lower (content d)) ->
  (exists h a,
      search_documents lower question 3 s = (Ok [h], s)
      /\ (1 < similarity h)%Q
      /\ answer_question lower question s = (Ok a, s)
      /\ (1 < confidence a)%Q)
  /\ (forall s0 first rest s1,
         search_documents lower question 3 s0 = (Ok (first :: rest), s1) ->
         exists a, answer_question lower question s0 = (Ok a, s1)
                   /\ In (confidence a) (map similarity (first :: rest))
                   /\ Forall (fun x => (x <= confidence a)%Q)
                             (map similarity (first :: rest))).
Proof.
  intros Hm Hc Hn. split.
  - assert (Hs : 11 <= lexical_score lower (lower question) d)
      by (rewrite lexical_score_formula; lia).
    assert (Hr : simple_search lower (self_cache s) question 3
                 = [lexical_hit lower question d]).
    { rewrite simple_search_results. unfold scoring. rewrite Hc. cbn [map snd filter].
      destruct (Nat.ltb_spec 0 (lexical_score lower (lower question) d)); [|lia].
      reflexivity. }
    exists (lexical_hit lower question d). eexists.
    rewrite search_documents_fallback by exact Hm. rewrite Hr.
    split; [reflexivity|]. split; [now apply score_over_ten|].
    rewrite answer_question_unfold by exact Hm. rewrite Hr.
    split; [reflexivity|]. cbn [confidence map max_of fold_left similarity lexical_hit].
    now apply score_over_ten.
  - intros s0 first rest s1 H. unfold answer_question, bind. rewrite H.
    eexists. split; [reflexivity|]. cbn [confidence].
    apply (max_of_spec (map similarity rest) (similarity first)).
Qed.

Lemma lexical_similarity_unbounded_witness :
  11 <= Py.count (ascii_lower [97%N]) (ascii_lower (content repeated_doc))
  /\ (exists h a,
         search_documents ascii_lower [97%N] 3 (lexical_session repeated_cache)
         = (Ok [h], lexical_session repeated_cache)
         /\ (1 < similarity h)%Q
         /\ answer_question ascii_lower [97%N] (lexical_session repeated_cache)
            = (Ok a, lexical_session repeated_cache)
         /\ (1 < confidence a)%Q)
  /\ (exists first rest s1 a,
         search_documents ascii_lower [97%N] 3 vector_session = (Ok (first :: rest), s1)
         /\ answer_question ascii_lower [97%N] vector_session = (Ok a, s1)
         /\ In (confidence a) (map similarity (first :: rest))
         /\ Forall (fun x => (x <= confidence a)%Q) (map similarity (first :: rest))).
Proof.
  assert (H : 11 <= Py.count (ascii_lower [97%N]) (ascii_lower (content repeated_doc)))
    by (vm_compute; lia).
  destruct (lexical_similarity_unbounded ascii_lower (lexical_session repeated_cache)
              (u := auth_url) (d := repeated_doc) [97%N] eq_refl eq_refl H)
    as [H1 H2].
  split; [exact H|]. split; [exact H1|].
  destruct (search_documents ascii_lower [97%N] 3 vector_session) as [r s1] eqn:E.
  assert (E' := E). vm_compute in E'. inversion E'; subst r s1. clear E'.
  destruct (H2 _ _ _ _ E) as (a & Ha & Hin & Hall).
  do 4 eexists. split; [exact E|]. split; [exact Ha|]. split; [exact Hin | exact Hall].
Defined.


(** ** Fetching: retries, cache hits and misses *)

Section FetchFacts.

Variable lower : str -> str.
Variable server : nat -> str -> Reply.

Lemma _get_loop_spec u n : forall a s,
  exists m,
    m <= n
    /\ requests (snd (_get_loop server u (seq a n) s)) = requests s ++ repeat u m
    /\ self_cache (snd (_get_loop server u (seq a n) s)) = self_cache s
    /\ embedding_model (snd (_get_loop server u (seq a n) s)) = embedding_model s
    /\ (forall i, i + 1 < m -> retried server s u i)
    /\ ((m = n /\ (forall i, i < m -> retried server s u i)
         /\ fst (_get_loop server u (seq a n) s) = Ok None
         /\ sleeps (snd (_get_loop server u (seq a n) s))
            = sleeps s ++ map backoff (seq a n))
        \/ (1 <= m
            /\ sleeps (snd (_get_loop server u (seq a n) s))
               = sleeps s ++ map backoff (seq a (m - 1))
            /\ settles (reply_at server s u (m - 1)) (fst (_get_loop server u (seq a n) s)))).
Proof.
  induction n as [|n IH]; intros a s.
  - exists 0. simpl. rewrite !app_nil_r. repeat split; auto; try lia.
    left. repeat split; auto. intros; lia.
  - set (s0 := {| self_cache := self_cache s; embedding_model := embedding_model s;
                  requests := requests s ++ [u]; sleeps := sleeps s |}).
    destruct (server (length (requests s)) u) as [resp|] eqn:Er.
    + destruct (retryable resp) eqn:Ert.
      * set (s1 := {| self_cache := self_cache s; embedding_model := embedding_model s;
                      requests := requests s ++ [u]; sleeps := sleeps s ++ [backoff a] |}).
        assert (Estep : _get_loop server u (seq a (S n)) s
                        = _get_loop server u (seq (S a) n) s1).
        { cbn [seq _get_loop]. unfold bind, http_get, sleep. now rewrite Er, Ert. }
        rewrite Estep.
        destruct (IH (S a) s1) as (m & Hm & Hreq & Hc & He & Hret & Hend).
        assert (Hshift : forall i, reply_at server s1 u i = reply_at server s u (S i)).
        { intros i. unfold reply_at, s1. cbn [requests]. rewrite length_app. simpl.
          f_equal. lia. }
        assert (H0 : retried server s u 0).
        { exists resp. unfold reply_at. rewrite Nat.add_0_r. now split. }
        assert (Hup : forall k, (forall i, i < k -> retried server s1 u i) ->
                                forall i, i < S k -> retried server s u i).
        { intros k Hk [|i] Hi; [exact H0|].
          destruct (Hk i ltac:(lia)) as (r' & Hr1 & Hr2).
          exists r'. now rewrite <- Hshift. }
        exists (S m). split; [lia|]. split.
        { rewrite Hreq. unfold s1. cbn [requests]. now rewrite <- app_assoc. }
        split; [exact Hc|]. split; [exact He|]. split.
        { intros i Hi. apply (Hup (m - 1)); [|lia]. intros j Hj. apply Hret. lia. }
        destruct Hend as [(Hmn & Hall & Hr & Hs)|(Hm1 & Hs & Hset)].
        -- left. split; [lia|]. split; [now apply Hup|]. split; [exact Hr|].
           rewrite Hs. unfold s1. cbn [sleeps map seq]. now rewrite <- app_assoc.
        -- right. split; [lia|]. split.
           ++ rewrite Hs. unfold s1. cbn [sleeps].
              replace (S m - 1) with (S (m - 1)) by lia.
              cbn [seq map]. now rewrite <- app_assoc.
           ++ replace (S m - 1) with (S (m - 1)) by lia.
              rewrite <- Hshift. exact Hset.
      * assert (Estep : _get_loop server u (seq a (S n)) s
                        = (Ok (if is_success resp then Some resp else None), s0)).
        { cbn [seq _get_loop]. unfold bind, http_get, ret. rewrite Er, Ert.
          now destruct (is_success resp). }
        rewrite Estep. exists 1. cbn [fst snd requests self_cache embedding_model sleeps s0].
        split; [lia|]. split; [reflexivity|]. split; [reflexivity|].
        split; [reflexivity|]. split; [intros; lia|]. right. split; [lia|].
        split; [now rewrite app_nil_r|].
        unfold settles, reply_at. rewrite Nat.add_0_r, Er. now split.
    + assert (Estep : _get_loop server u (seq a (S n)) s = (Raise HTTPError, s0)).
      { cbn [seq _get_loop]. unfold bind, http_get. now rewrite Er. }
      rewrite Estep. exists 1. cbn [fst snd requests self_cache embedding_model sleeps s0].
      split; [lia|]. split; [reflexivity|]. split; [reflexivity|].
      split; [reflexivity|]. split; [intros; lia|]. right. split; [lia|].
      split; [now rewrite app_nil_r|].
      unfold settles, reply_at. now rewrite Nat.add_0_r, Er.
Qed.

Lemma _get_effects u s :
  exists m,
    1 <= m <= 4
    /\ requests (snd (_get server u s)) = requests s ++ repeat u m
    /\ self_cache (snd (_get server u s)) = self_cache s
    /\ embedding_model (snd (_get server u s)) = embedding_model s.
Proof.
  unfold _get.
  destruct (_get_loop_spec u 4 0 s) as (m & Hm & Hreq & Hc & He & _ & Hend).
  exists m. repeat split; try assumption.
  destruct Hend as [(-> & _)|(H1 & _)]; lia.
Qed.

Lemma eqb_refl k : Py.eqb k k = true.
Proof. induction k as [|c k IH]; simpl; [reflexivity|]. now rewrite N.eqb_refl. Qed.

Lemma dict_get_set {V} (d : list (str * V)) k v : dict_get (dict_set d k v) k = Some v.
Proof.
  induction d as [|[k' v'] d IH]; simpl.
  - now rewrite eqb_refl.
  - destruct (Py.eqb k' k) eqn:E; simpl; [now rewrite eqb_refl | now rewrite E].
Qed.

Lemma fetch_hit u s d :
  get (self_cache s) u = Some d ->
  fetch_markdown_content lower server u s = (Ok (Some d), s).
Proof.
  intros H. unfold fetch_markdown_content, bind, get_self. now rewrite H.
Qed.

Lemma fetch_miss u s r s' :
  get (self_cache s) u = None ->
  fetch_markdown_content lower server u s = (r, s') ->
  miss_outcome u s r s'.
Proof.
  intros H F. unfold fetch_markdown_content, bind at 1, get_self at 1 in F.
  rewrite H in F. cbv zeta in F. unfold bind at 1 in F.
  destruct (_get_effects (md_url u) s) as (m1 & Hm1 & Hq1 & Hc1 & He1).
  destruct (_get server (md_url u) s) as [[r1|e1] s1] eqn:E1; cbn [fst snd] in *.
  2:{ inversion F; subst r s'.
      split; [exists m1, 0; simpl; rewrite app_nil_r; repeat split; try lia; assumption|].
      split; [assumption|]. right. split; [right; eauto | assumption]. }
  unfold bind at 1 in F.
  destruct (match r1 with
            | Some r => if markdownish lower r then Some (text r) else None
            | None => None
            end) as [b|].
  - unfold ret at 1 in F. unfold bind, get_self, set_cache, ret in F.
    inversion F; subst r s'. cbn [requests embedding_model self_cache].
    split; [exists m1, 0; simpl; rewrite app_nil_r; repeat split; try lia; assumption|].
    split; [assumption|]. left. eexists. split; [reflexivity|].
    unfold miss_outcome. cbn [self_cache]. now rewrite Hc1.
  - unfold bind at 1 in F.
    destruct (_get_effects u s1) as (m2 & Hm2 & Hq2 & Hc2 & He2).
    destruct (_get server u s1) as [[r2|e2] s2] eqn:E2; cbn [fst snd] in *.
    2:{ inversion F; subst r s'.
        split; [exists m1, m2; rewrite Hq2, Hq1, <- app_assoc; repeat split; try lia|].
        split; [congruence|]. right. split; [right; eauto | congruence]. }
    assert (Hreq : exists m1 m2, 1 <= m1 <= 4 /\ m2 <= 4
                     /\ requests s2 = requests s ++ repeat (md_url u) m1 ++ repeat u m2)
      by (exists m1, m2; rewrite Hq2, Hq1, <- app_assoc; repeat split; try lia).
    assert (Hfail : miss_outcome u s (Ok None) s2).
    { split; [exact Hreq|]. split; [congruence|]. right. split; [now left | congruence]. }
    destruct r2 as [r2|]; [|unfold ret in F; inversion F; subst; exact Hfail].
    destruct (is_success r2 && markdownish lower r2);
      [|unfold ret in F; inversion F; subst; exact Hfail].
    unfold ret at 1 in F. unfold bind, get_self, set_cache, ret in F.
    inversion F; subst r s'. cbn [requests embedding_model self_cache].
    split; [exact Hreq|]. split; [now rewrite He2|].
    left. eexists. split; [reflexivity|]. cbn [self_cache]. now rewrite Hc2, Hc1.
Qed.

End FetchFacts.

(** C3 (amended). Idempotent fetch: for every URL present in the cache,
    [fetch_markdown_content] returns the stored document and leaves the
    whole session as it was: no GET is issued, nothing is processed again
    and the cache is not written; hence, once a fetch of a URL has
    succeeded, a second fetch returns the same document and goes to the
    network no more. *)
Theorem fetch_idempotent (lower : str -> str) (server : nat -> str -> Reply) (u : str) :
  (forall s d,
      get (self_cache s) u = Some d ->
      fetch_markdown_content lower server u s = (Ok (Some d), s))
  /\ (forall s d s1,
         fetch_markdown_content lower server u s = (Ok (Some d), s1) ->
         fetch_markdown_content lower server u s1 = (Ok (Some d), s1)).
Proof.
  split; [intros s d; apply fetch_hit|].
  intros s d s1 F. apply fetch_hit.
  destruct (get (self_cache s) u) as [d0|] eqn:G.
  - rewrite (@fetch_hit lower server _ _ _ G) in F. inversion F; subst. exact G.
  - destruct (@fetch_miss _ _ _ _ _ _ G F) as (_ & _ & [(d' & Hr & Hc)|([Hr|(e & Hr)] & _)]);
      try discriminate.
    inversion Hr; subst d'. rewrite Hc. unfold get, set. cbn [cache].
    apply dict_get_set.
Qed.

Lemma fetch_idempotent_witness :
  exists d s1,
    fetch_markdown_content ascii_lower markdown_server auth_url fresh_session
    = (Ok (Some d), s1)
    /\ requests s1 = [auth_url ++ lit ".md"]
    /\ fetch_markdown_content ascii_lower markdown_server auth_url s1 = (Ok (Some d), s1).
Proof.
  destruct (fetch_markdown_content ascii_lower markdown_server auth_url fresh_session)
    as [r s1] eqn:F.
  assert (F' := F). vm_compute in F'. inversion F'; subst r s1. clear F'.
  do 2 eexists. split; [exact F|]. split; [reflexivity|].
  destruct (fetch_idempotent ascii_lower markdown_server auth_url) as [_ H].
  exact (H _ _ _ F).
Defined.

(** The claim of C3 as it is worded fails when the first fetch fails: both
    calls go to the network, each with a GET for the markdown variant and
    one for the URL itself. *)
Lemma fetch_twice_refetches :
  exists s1 s2,
    fetch_markdown_content ascii_lower not_found_server auth_url fresh_session
    = (Ok None, s1)
    /\ fetch_markdown_content ascii_lower not_found_server auth_url s1 = (Ok None, s2)
    /\ requests s1 = [auth_url ++ lit ".md"; auth_url]
    /\ requests s2 = [auth_url ++ lit ".md"; auth_url; auth_url ++ lit ".md"; auth_url].
Proof.
  do 2 eexists. split; [vm_compute; reflexivity|].
  split; [vm_compute; reflexivity|]. split; reflexivity.
Qed.

Lemma backoff_succ n : (backoff (S n) == 2 * backoff n)%Q.
Proof.
  unfold backoff. rewrite Nat2Z.inj_succ, Z.pow_succ_r by lia.
  rewrite inject_Z_mult. ring.
Qed.

(** C4 (amended). Retry policy: for each URL variant, [_get] issues at
    least one and at most 4 GETs; an attempt is followed by another one
    exactly when its response has status 429 or 500 to 599 and it is not
    the fourth, after a sleep of 0.5, 1 and 2 time-units (the delay doubles
    with each attempt, and a fourth retryable response is followed by a
    sleep of 4 and by no attempt); any other response ends the attempts at
    once, with the response when it is a success and with nothing when it
    is not; when the attempts are exhausted the variant yields nothing,
    without an exception, and a fetch whose two variants yield nothing
    returns NotFound and leaves the cache as it was.  A transport failure
    such as a timeout is not caught: it ends [_get] with the exception, and
    [fetch_markdown_content] with it. *)
Theorem _get_retry_policy (lower : str -> str) (server : nat -> str -> Reply)
        (u : str) (s : VoiceflowMCP) :
  (exists m,
      1 <= m <= 4
      /\ requests (snd (_get server u s)) = requests s ++ repeat u m
      /\ (forall i, i + 1 < m -> retried server s u i)
      /\ match reply_at server s u (m - 1) with
         | Answer resp =>
             if retryable resp
             then m = 4
                  /\ fst (_get server u s) = Ok None
                  /\ sleeps (snd (_get server u s)) = sleeps s ++ map backoff [0; 1; 2; 3]
             else fst (_get server u s) = Ok (if is_success resp then Some resp else None)
                  /\ sleeps (snd (_get server u s))
                     = sleeps s ++ map backoff (seq 0 (m - 1))
         | TransportError =>
             fst (_get server u s) = Raise HTTPError
             /\ sleeps (snd (_get server u s)) = sleeps s ++ map backoff (seq 0 (m - 1))
         end)
  /\ (forall resp,
         retryable resp = true
         <-> (status_code resp = 429 \/ 500 <= status_code resp <= 599)%Z)
  /\ ((backoff 0 == 1 # 2)%Q /\ (backoff 1 == 1)%Q /\ (backoff 2 == 2)%Q
      /\ (backoff 3 == 4)%Q /\ forall n, (backoff (S n) == 2 * backoff n)%Q)
  /\ (forall s1 s2,
         get (self_cache s) u = None ->
         _get server (md_url u) s = (Ok None, s1) ->
         _get server u s1 = (Ok None, s2) ->
         fetch_markdown_content lower server u s = (Ok None, s2)
         /\ self_cache s2 = self_cache s)
  /\ (forall e s1,
         get (self_cache s) u = None ->
         _get server (md_url u) s = (Raise e, s1) ->
         fetch_markdown_content lower server u s = (Raise e, s1)).
Proof.
  split; [|split; [|split; [|split]]].
  - unfold _get.
    destruct (_get_loop_spec server u 4 0 s) as (m & Hm & Hreq & _ & _ & Hret & Hend).
    exists m. destruct Hend as [(-> & Hall & Hr & Hs)|(H1 & Hs & Hset)].
    + split; [lia|]. split; [exact Hreq|]. split; [exact Hret|].
      destruct (Hall 3 ltac:(lia)) as (resp & Hrep & Hrt).
      change (4 - 1) with 3. rewrite Hrep, Hrt. now repeat split.
    + split; [lia|]. split; [exact Hreq|]. split; [exact Hret|].
      unfold settles in Hset.
      destruct (reply_at server s u (m - 1)) as [resp|].
      * destruct Hset as [Hrt Hr]. rewrite Hrt. now split.
      * now split.
  - intros resp. unfold retryable.
    rewrite orb_true_iff, andb_true_iff, Z.eqb_eq, Z.leb_le, Z.ltb_lt. lia.
  - repeat split; try reflexivity. apply backoff_succ.
  - intros s1 s2 G E1 E2.
    pose proof (_get_effects server (md_url u) s) as (? & _ & _ & Hc1 & _).
    pose proof (_get_effects server u s1) as (? & _ & _ & Hc2 & _).
    rewrite E1 in Hc1. rewrite E2 in Hc2. cbn [snd] in *. split; [|congruence].
    unfold fetch_markdown_content, bind, get_self. rewrite G. cbv zeta.
    rewrite E1. cbv beta iota. rewrite E2. reflexivity.
  - intros e s1 G E1.
    unfold fetch_markdown_content, bind, get_self. rewrite G. cbv zeta.
    now rewrite E1.
Qed.

Lemma _get_retry_policy_witness :
  (exists s1 s2,
      get (self_cache fresh_session) auth_url = None
      /\ _get busy_server (md_url auth_url) fresh_session = (Ok None, s1)
      /\ _get busy_server auth_url s1 = (Ok None, s2)
      /\ fetch_markdown_content ascii_lower busy_server auth_url fresh_session = (Ok None, s2)
      /\ length (requests s2) = 8)
  /\ (exists e s1,
         _get timeout_server (md_url auth_url) fresh_session = (Raise e, s1)
         /\ fetch_markdown_content ascii_lower timeout_server auth_url fresh_session
            = (Raise e, s1)).
Proof.
  split.
  - destruct (_get busy_server (md_url auth_url) fresh_session) as [r1 s1] eqn:E1.
    assert (E1' := E1). vm_compute in E1'. inversion E1'; subst r1 s1. clear E1'.
    match type of E1 with _ = (_, ?x) => set (s1 := x) in * end.
    destruct (_get busy_server auth_url s1) as [r2 s2] eqn:E2.
    assert (E2' := E2). vm_compute in E2'. inversion E2'; subst r2 s2. clear E2'.
    match type of E2 with _ = (_, ?x) => set (s2 := x) in * end.
    exists s1, s2.
    destruct (_get_retry_policy ascii_lower busy_server auth_url fresh_session)
      as (_ & _ & _ & H & _).
    destruct (H s1 s2 eq_refl E1 E2) as [F _].
    split; [reflexivity|]. split; [exact E1|]. split; [exact E2|].
    split; [exact F | reflexivity].
  - destruct (_get timeout_server (md_url auth_url) fresh_session) as [r1 s1] eqn:E1.
    assert (E1' := E1). vm_compute in E1'. inversion E1'; subst r1 s1. clear E1'.
    destruct (_get_retry_policy ascii_lower timeout_server auth_url fresh_session)
      as (_ & _ & _ & _ & H).
    do 2 eexists. split; [exact E1|]. exact (H _ _ eq_refl E1).
Defined.

(** The claim of C4 as it is worded fails at a timeout: the exception of
    the HTTP client leaves [fetch_markdown_content], which returns no
    NotFound. *)
Lemma fetch_timeout_raises :
  exists s1,
    fetch_markdown_content ascii_lower timeout_server auth_url fresh_session
    = (Raise HTTPError, s1)
    /\ requests s1 = [auth_url ++ lit ".md"].
Proof. eexists. split; [vm_compute; reflexivity | reflexivity]. Qed.

(** C9. Failure is not memoized: when [fetch_markdown_content] ends with
    NotFound the cache is as it was before the call, with no entry for the
    URL, and a second fetch of the URL goes to the network again, starting
    with a GET for the markdown variant; and a URL that was not cached is
    cached after a call only when that call succeeded, holding the
    document it returned. *)
Theorem fetch_failure_not_memoized (lower : str -> str) (server : nat -> str -> Reply)
        (u : str) (s : VoiceflowMCP) (r : result (option Document)) (s' : VoiceflowMCP) :
  fetch_markdown_content lower server u s = (r, s') ->
  (r = Ok None ->
   self_cache s' = self_cache s
   /\ get (self_cache s') u = None
   /\ exists rest,
       requests (snd (fetch_markdown_content lower server u s'))
       = requests s' ++ md_url u :: rest)
  /\ (get (self_cache s) u = None ->
      get (self_cache s') u <> None ->
      exists d, r = Ok (Some d) /\ get (self_cache s') u = Some d).
Proof.
  intros F. split.
  - intros ->.
    destruct (get (self_cache s) u) as [d0|] eqn:G.
    + rewrite (@fetch_hit lower server _ _ _ G) in F. discriminate.
    + destruct (@fetch_miss _ _ _ _ _ _ G F) as (_ & _ & [(d' & Hr & _)|(_ & Hc)]);
        [discriminate|].
      assert (G' : get (self_cache s') u = None) by now rewrite Hc.
      split; [exact Hc|]. split; [exact G'|].
      destruct (fetch_markdown_content lower server u s') as [r2 s2] eqn:F2.
      destruct (@fetch_miss _ _ _ _ _ _ G' F2) as ((m1 & m2 & Hm1 & _ & Hq) & _).
      cbn [snd]. rewrite Hq. destruct m1 as [|m1]; [lia|].
      cbn [repeat app]. eauto.
  - intros G Hn.
    destruct (@fetch_miss _ _ _ _ _ _ G F) as (_ & _ & [(d & Hr & Hc)|(_ & Hc)]).
    + exists d. split; [exact Hr|]. rewrite Hc. unfold get, set. cbn [cache].
      apply dict_get_set.
    + rewrite Hc in Hn. contradiction.
Qed.

Lemma fetch_failure_not_memoized_witness :
  (exists s1,
      fetch_markdown_content ascii_lower not_found_server auth_url fresh_session
      = (Ok None, s1)
      /\ self_cache s1 = self_cache fresh_session
      /\ get (self_cache s1) auth_url = None
      /\ exists rest,
          requests (snd (fetch_markdown_content ascii_lower not_found_server auth_url s1))
          = requests s1 ++ md_url auth_url :: rest)
  /\ (exists r s1,
         fetch_markdown_content ascii_lower markdown_server auth_url fresh_session = (r, s1)
         /\ get (self_cache fresh_session) auth_url = None
         /\ get (self_cache s1) auth_url <> None
         /\ exists d, r = Ok (Some d) /\ get (self_cache s1) auth_url = Some d).
Proof.
  split.
  - destruct (fetch_markdown_content ascii_lower not_found_server auth_url fresh_session)
      as [r s1] eqn:F.
    assert (F' := F). vm_compute in F'. inversion F'; subst r s1. clear F'.
    destruct (fetch_failure_not_memoized _ _ _ _ F) as [H _].
    eexists. split; [exact F|]. exact (H eq_refl).
  - destruct (fetch_markdown_content ascii_lower markdown_server auth_url fresh_session)
      as [r s1] eqn:F.
    assert (F' := F). vm_compute in F'. inversion F'; subst r s1. clear F'.
    destruct (fetch_failure_not_memoized _ _ _ _ F) as [_ H].
    assert (G : get (self_cache fresh_session) auth_url = None) by reflexivity.
    do 2 eexists. split; [exact F|]. split; [exact G|].
    match goal with |- ?P /\ _ => assert (Hn : P) by (vm_compute; discriminate) end.
    split; [exact Hn|]. exact (H G Hn).
Defined.


(** ** Titles *)

Lemma extract_title_loop_first pre line post :
  Forall (fun l => marked l = false) pre ->
  marked line = true ->
  extract_title_loop (pre ++ line :: post)
  = if Py.startswith (lit "# ") line then Py.strip (Py.from 2 line)
    else Py.strip (Py.from 6 line).
Proof.
  intros Hpre Hline. induction Hpre as [|l pre Hl _ IH].
  - cbn [app extract_title_loop]. unfold marked in Hline.
    destruct (Py.startswith (lit "# ") line); [reflexivity|].
    cbn [orb] in Hline. now rewrite Hline.
  - cbn [app extract_title_loop]. unfold marked in Hl.
    apply orb_false_iff in Hl. destruct Hl as [-> ->]. exact IH.
Qed.

Lemma extract_title_loop_none lines :
  Forall (fun l => marked l = false) lines -> extract_title_loop lines = untitled.
Proof.
  induction 1 as [|l lines Hl _ IH]; [reflexivity|].
  cbn [extract_title_loop]. unfold marked in Hl.
  apply orb_false_iff in Hl. destruct Hl as [-> ->]. exact IH.
Qed.

(** C6 (amended). Title extraction: [extract_title] reads only the first
    10 lines of the content; the first of them that starts with "# " or
    with "title:" decides, whichever of the two markers it carries: the
    title is its text after the marker, trimmed; when no such line is among
    the ten the title is "Untitled".  A "# " line therefore wins over a
    "title:" line only when it comes first, and for the input
    "---\ntitle: X\n---\n# Heading\nBody text" the result is "X". *)
Theorem extract_title_first_match (content : str) :
  (forall pre line post,
      firstn 10 (Py.split_char LF content) = pre ++ line :: post ->
      Forall (fun l => marked l = false) pre ->
      (Py.startswith (lit "# ") line = true ->
       extract_title content = Py.strip (Py.from 2 line))
      /\ (Py.startswith (lit "# ") line = false ->
          Py.startswith (lit "title:") line = true ->
          extract_title content = Py.strip (Py.from 6 line)))
  /\ (Forall (fun l => marked l = false) (firstn 10 (Py.split_char LF content)) ->
      extract_title content = untitled)
  /\ (forall other,
         firstn 10 (Py.split_char LF other) = firstn 10 (Py.split_char LF content) ->
         extract_title other = extract_title content)
  /\ extract_title frontmatter_sample = lit "X".
Proof.
  split; [|split; [|split]].
  - intros pre line post Hw Hpre. unfold extract_title. rewrite Hw. split.
    + intros H1. rewrite extract_title_loop_first; [now rewrite H1 | assumption |].
      unfold marked. now rewrite H1.
    + intros H1 H2. rewrite extract_title_loop_first; [now rewrite H1 | assumption |].
      unfold marked. now rewrite H1, H2.
  - intros H. unfold extract_title. now apply extract_title_loop_none.
  - intros other H. unfold extract_title. now rewrite H.
  - vm_compute. reflexivity.
Qed.

Lemma extract_title_first_match_witness :
  (firstn 10 (Py.split_char LF frontmatter_sample)
   = [lit "---"] ++ lit "title: X" :: [lit "---"; lit "# Heading"; lit "Body text"]
   /\ Forall (fun l => marked l = false) [lit "---"]
   /\ Py.startswith (lit "# ") (lit "title: X") = false
   /\ Py.startswith (lit "title:") (lit "title: X") = true
   /\ extract_title frontmatter_sample = Py.strip (Py.from 6 (lit "title: X")))
  /\ (firstn 10 (Py.split_char LF (lit "# Heading" ++ [LF] ++ lit "title: X"))
      = [] ++ lit "# Heading" :: [lit "title: X"]
      /\ Py.startswith (lit "# ") (lit "# Heading") = true
      /\ extract_title (lit "# Heading" ++ [LF] ++ lit "title: X")
         = Py.strip (Py.from 2 (lit "# Heading")))
  /\ (Forall (fun l => marked l = false) (firstn 10 (Py.split_char LF (lit "Body text")))
      /\ extract_title (lit "Body text") = untitled).
Proof.
  split; [|split].
  - assert (Hw : firstn 10 (Py.split_char LF frontmatter_sample)
                 = [lit "---"] ++ lit "title: X"
                   :: [lit "---"; lit "# Heading"; lit "Body text"])
      by (vm_compute; reflexivity).
    assert (Hpre : Forall (fun l => marked l = false) [lit "---"])
      by (repeat constructor).
    destruct (extract_title_first_match frontmatter_sample) as [H _].
    destruct (H _ _ _ Hw Hpre) as [_ H2].
    split; [exact Hw|]. split; [exact Hpre|]. split; [reflexivity|].
    split; [reflexivity|]. exact (H2 eq_refl eq_refl).
  - assert (Hw : firstn 10 (Py.split_char LF (lit "# Heading" ++ [LF] ++ lit "title: X"))
                 = [] ++ lit "# Heading" :: [lit "title: X"])
      by (vm_compute; reflexivity).
    destruct (extract_title_first_match (lit "# Heading" ++ [LF] ++ lit "title: X"))
      as [H _].
    destruct (H _ _ _ Hw (Forall_nil _)) as [H1 _].
    split; [exact Hw|]. split; [reflexivity|]. exact (H1 eq_refl).
  - assert (Hall : Forall (fun l => marked l = false)
                          (firstn 10 (Py.split_char LF (lit "Body text"))))
      by (vm_compute; repeat constructor).
    destruct (extract_title_first_match (lit "Body text")) as (_ & H & _).
    split; [exact Hall | exact (H Hall)].
Defined.

(** The claim of C6 as it is worded fails on its own example: the heading
    line is among the first ten lines, and the title is the one of the
    frontmatter. *)
Lemma extract_title_frontmatter :
  In (lit "# Heading") (firstn 10 (Py.split_char LF frontmatter_sample))
  /\ extract_title frontmatter_sample = lit "X"
  /\ extract_title frontmatter_sample <> lit "Heading".
Proof.
  split; [vm_compute; tauto|]. split; [vm_compute; reflexivity|].
  vm_compute. discriminate.
Qed.

(** ** Warm-up *)

Lemma count_occ_filter (f : str -> bool) (l : list str) (u : str) :
  In u l -> f u = true -> 1 <= count_occ (list_eq_dec N.eq_dec) (filter f l) u.
Proof.
  intros Hin Hf. apply count_occ_In. apply filter_In. now split.
Qed.

(** C7. The candidates of [warmup] are the URLs under /reference, then
    those under /docs, then every URL without /changelog, the ones of the
    first two groups included: on the sitemap of the one page
    /reference/a the page is a candidate twice; in general a URL of the
    first two groups without /changelog is a candidate at least twice, and
    a URL in none of the three groups is no candidate.  A cache hit on the
    second visit counts towards the limit: with the pages /reference/a,
    /reference/b and /guides/c, all served, and a limit of 3, the third
    page is never requested. *)
Theorem warmup_candidates_repeat :
  warmup_candidates [reference_a] = [reference_a; reference_a]
  /\ (forall urls u,
         In u urls -> under_reference u || under_docs u = true -> no_changelog u = true ->
         2 <= count_occ (list_eq_dec N.eq_dec) (warmup_candidates urls) u)
  /\ (forall urls u,
         In u (warmup_candidates urls) ->
         In u urls /\ (under_reference u || under_docs u || no_changelog u = true))
  /\ requests (snd (warmup ascii_lower markdown_server
                           [reference_a; reference_b; guide_c] 3 fresh_session))
     = [reference_a ++ lit ".md"; reference_b ++ lit ".md"].
Proof.
  split; [vm_compute; reflexivity|]. split; [|split].
  - intros urls u Hin Hg Hc.
    change (warmup_candidates urls)
      with (filter under_reference urls ++ filter under_docs urls
            ++ filter no_changelog urls).
    rewrite !count_occ_app.
    pose proof (count_occ_filter no_changelog _ _ Hin Hc).
    apply orb_true_iff in Hg. destruct Hg as [Hg|Hg].
    + pose proof (count_occ_filter under_reference _ _ Hin Hg) as H0.
      apply (Nat.add_le_mono 1 _ 1 _ H0).
      eapply Nat.le_trans; [exact H | apply Nat.le_add_l].
    + pose proof (count_occ_filter under_docs _ _ Hin Hg) as H0.
      apply (Nat.le_trans _ (1 + 1)); [apply le_n|].
      eapply Nat.le_trans; [|apply Nat.le_add_l].
      apply (Nat.add_le_mono 1 _ 1 _ H0 H).
  - intros urls u H.
    change (warmup_candidates urls)
      with (filter under_reference urls ++ filter under_docs urls
            ++ filter no_changelog urls) in H.
    rewrite !in_app_iff, !filter_In in H.
    destruct H as [[H1 H2]|[[H1 H2]|[H1 H2]]]; split; try assumption;
      rewrite H2; now rewrite ?orb_true_r.
  - vm_compute. reflexivity.
Qed.


(** ** The document cache *)

Section CacheFacts.

Variable V : Type.

Lemma eqb_eq a b : Py.eqb a b = true <-> a = b.
Proof.
  revert b. induction a as [|x a IH]; intros [|y b]; simpl; split; intros H;
    try reflexivity; try discriminate.
  - apply andb_true_iff in H. destruct H as [H1 H2].
    apply N.eqb_eq in H1. apply IH in H2. now subst.
  - inversion H; subst. rewrite N.eqb_refl. now apply IH.
Qed.

Lemma eqb_neq a b : a <> b -> Py.eqb a b = false.
Proof.
  intros H. destruct (Py.eqb a b) eqn:E; [|reflexivity].
  apply eqb_eq in E. contradiction.
Qed.

Lemma dict_get_set_other (d : list (str * V)) k v k' :
  k' <> k -> dict_get (dict_set d k v) k' = dict_get d k'.
Proof.
  intros Hk. induction d as [|[k0 v0] d IH]; simpl.
  - rewrite eqb_neq; [reflexivity | congruence].
  - destruct (Py.eqb k0 k) eqn:E; simpl.
    + apply eqb_eq in E. subst k0. rewrite eqb_neq; [reflexivity | congruence].
    + now rewrite IH.
Qed.

Lemma dict_get_In (d : list (str * V)) k v : dict_get d k = Some v -> In (k, v) d.
Proof.
  induction d as [|[k0 v0] d IH]; simpl; [discriminate|].
  destruct (Py.eqb k0 k) eqn:E; intros H.
  - apply eqb_eq in E. inversion H; subst. now left.
  - right. now apply IH.
Qed.

Lemma dict_get_None (d : list (str * V)) k : dict_get d k = None <-> ~ In k (keys d).
Proof.
  induction d as [|[k0 v0] d IH]; simpl; [tauto|].
  destruct (Py.eqb k0 k) eqn:E.
  - apply eqb_eq in E. subst. split; [discriminate | tauto].
  - rewrite IH. split; [|tauto]. intros H [H1|H1]; [|tauto].
    subst. rewrite (proj2 (eqb_eq k k) eq_refl) in E. discriminate.
Qed.

Lemma dict_set_absent (d : list (str * V)) k v :
  dict_get d k = None -> dict_set d k v = d ++ [(k, v)].
Proof.
  induction d as [|[k0 v0] d IH]; simpl; [reflexivity|].
  destruct (Py.eqb k0 k); [discriminate|]. intros H. now rewrite IH.
Qed.

Lemma dict_set_present (d : list (str * V)) k v :
  dict_get d k <> None -> keys (dict_set d k v) = keys d.
Proof.
  induction d as [|[k0 v0] d IH]; simpl; [congruence|].
  destruct (Py.eqb k0 k) eqn:E; simpl; intros H.
  - apply eqb_eq in E. now subst.
  - now rewrite IH.
Qed.

Lemma dict_set_keys_NoDup (d : list (str * V)) k v :
  NoDup (keys d) -> NoDup (keys (dict_set d k v)).
Proof.
  intros H. destruct (dict_get d k) as [v0|] eqn:G.
  - rewrite dict_set_present; [exact H | congruence].
  - rewrite dict_set_absent by exact G. unfold keys. rewrite map_app. simpl.
    apply NoDup_app; [exact H | repeat constructor; auto |].
    intros x Hx [Hk|[]]. subst x. now apply dict_get_None in G.
Qed.

Lemma dict_set_length (d : list (str * V)) k v :
  length (dict_set d k v) <= S (length d).
Proof.
  induction d as [|[k0 v0] d IH]; simpl; [lia|].
  destruct (Py.eqb k0 k); simpl; lia.
Qed.

End CacheFacts.

(** X1. The cache as a map: after [set(url, doc)], [get(url)] gives [doc]
    and [get] of any other URL gives what it gave before; a URL that was
    absent is added at the end, a URL that was present keeps its place, no
    key is ever held twice, and the index (embeddings and entries) is not
    touched. *)
Theorem cache_set_get (c : DocumentCache) (u : str) (d : Document) :
  get (set c u d) u = Some d
  /\ (forall u', u' <> u -> get (set c u d) u' = get c u')
  /\ (get c u = None -> cache (set c u d) = cache c ++ [(u, d)])
  /\ (get c u <> None -> keys (cache (set c u d)) = keys (cache c))
  /\ (NoDup (keys (cache c)) -> NoDup (keys (cache (set c u d))))
  /\ embeddings (set c u d) = embeddings c
  /\ documents (set c u d) = documents c.
Proof.
  unfold get, set. cbn [cache embeddings documents].
  split; [apply dict_get_set|]. split; [intros u'; apply dict_get_set_other|].
  split; [apply dict_set_absent|]. split; [apply dict_set_present|].
  split; [apply dict_set_keys_NoDup | split; reflexivity].
Qed.

(** ** Chunks: their text and their headings *)

Section ChunkFacts.

Lemma strip_idem s : Py.strip (Py.strip s) = Py.strip s.
Proof.
  unfold Py.strip.
  rewrite (rstrip_lstrip (Py.rstrip (Py.lstrip s))), rstrip_idem.
  now rewrite (rstrip_lstrip s), lstrip_idem.
Qed.

Lemma lstrip_strip s : Py.lstrip (Py.strip s) = Py.strip s.
Proof. unfold Py.strip. now rewrite <- rstrip_lstrip, lstrip_idem. Qed.

Lemma lstrip_length s : length (Py.lstrip s) <= length s.
Proof.
  induction s as [|c s IH]; simpl; [lia|].
  destruct (Py.isspace c); simpl; lia.
Qed.

(** A trimmed text that is not empty starts with a character that is no
    whitespace. *)
Lemma lstrip_fixed_head c s : Py.lstrip (c :: s) = c :: s -> Py.isspace c = false.
Proof.
  simpl. destruct (Py.isspace c); [|reflexivity].
  intros H. pose proof (lstrip_length s) as L. rewrite H in L. simpl in L. lia.
Qed.

Lemma stripped_squeeze s : Py.strip s = s -> s <> [] -> squeeze s <> [].
Proof.
  intros Hs Hn. destruct s as [|c s]; [congruence|].
  assert (Hl : Py.lstrip (c :: s) = c :: s) by (rewrite <- Hs at 1; now rewrite lstrip_strip).
  apply lstrip_fixed_head in Hl. unfold squeeze. simpl. rewrite Hl. discriminate.
Qed.

(** What holds of every text that [flush] can emit holds of every
    chunk. *)
Lemma chunk_markdown_Forall (P : Chunk -> Prop) md :
  (forall h b, Py.truthy (Py.strip (Py.join newline b)) = true ->
               P {| heading := h; markdown := Py.strip (Py.join newline b) |}) ->
  Forall P (chunk_markdown md).
Proof.
  intros HP.
  assert (Hflush : forall st, Forall P (chunks st) -> Forall P (chunks (flush st))).
  { intros st H. unfold flush. destruct (buf st) as [|b bs]; [exact H|].
    cbn [chunks]. destruct (Py.truthy _) eqn:E; [|exact H].
    apply Forall_app. split; [exact H|]. constructor; [|constructor].
    now apply HP. }
  assert (Hstep : forall st ln, Forall P (chunks st) -> Forall P (chunks (chunk_step st ln))).
  { intros st ln H. unfold chunk_step.
    destruct (is_fence ln); [exact H|].
    destruct (negb (in_code st) && heading_match ln); [|exact H].
    cbn [chunks]. now apply Hflush. }
  unfold chunk_markdown. apply Hflush.
  generalize chunker_init (Forall_nil P : Forall P (chunks chunker_init)).
  induction (Py.splitlines md) as [|ln lines IH]; intros st H; simpl; [exact H|].
  apply IH. now apply Hstep.
Qed.

Lemma is_hash_not_space : Py.isspace hash = false.
Proof. reflexivity. Qed.

Lemma heading_match_hash ln : heading_match ln = true -> exists l, ln = hash :: l.
Proof.
  unfold heading_match. destruct ln as [|c l]; [discriminate|].
  simpl hashes. destruct (c =? hash)%N eqn:E; [|discriminate].
  apply N.eqb_eq in E. subst. eauto.
Qed.

Lemma strip_join_hash l r :
  exists t, Py.strip (Py.join newline ((hash :: l) :: r)) = hash :: t.
Proof.
  assert (H : exists x, Py.join newline ((hash :: l) :: r) = hash :: x)
    by (destruct r; simpl; eauto).
  destruct H as [x ->]. unfold Py.strip. simpl Py.lstrip.
  rewrite rstrip_cons. destruct (Py.rstrip x); simpl; eauto.
Qed.

End ChunkFacts.


Section HeadingInvariant.

Lemma heading_lines_app a b : heading_lines (a ++ b) = heading_lines a + heading_lines b.
Proof. unfold heading_lines. now rewrite filter_app, length_app. Qed.

Lemma heading_inv_init : heading_inv [] chunker_init.
Proof. split; simpl; auto; congruence. Qed.

Lemma tl_app_single {A} (P : A -> Prop) l x :
  Forall P (tl l) -> (l <> [] -> P x) -> Forall P (tl (l ++ [x])).
Proof.
  intros H Hx. destruct l as [|y l]; simpl; [constructor|].
  apply Forall_app. split; [exact H|]. constructor; [|constructor].
  apply Hx. discriminate.
Qed.

(** A flush keeps the three facts about the chunks, and emits at most
    one chunk. *)
Lemma heading_inv_flush seen st :
  heading_inv seen st ->
  (current_h (flush st) = None -> buf st = [] -> chunks (flush st) = [])
  /\ Forall (fun c => exists t, markdown c = hash :: t) (tl (chunks (flush st)))
  /\ Forall (fun c => heading c <> [] -> exists t, markdown c = hash :: t)
            (chunks (flush st))
  /\ length (chunks (flush st)) <= S (length (chunks st)).
Proof.
  intros [Hn Hb Ht Hh Hc]. unfold flush.
  destruct (buf st) as [|b bs] eqn:Eb.
  - repeat split; auto.
  - cbn [chunks current_h]. destruct (Py.truthy _) eqn:E.
    + destruct (current_h st) as [h|] eqn:Eh.
      * destruct (Hb ltac:(discriminate)) as (l & r & Hbuf).
        inversion Hbuf; subst b bs.
        destruct (strip_join_hash l r) as [t Hm].
        split; [discriminate|]. split; [|split].
        -- apply tl_app_single; [exact Ht|]. intros _. cbn [markdown]. eauto.
        -- apply Forall_app. split; [exact Hh|]. constructor; [|constructor].
           intros _. cbn [markdown]. eauto.
        -- rewrite length_app. simpl. lia.
      * rewrite (Hn eq_refl). split; [discriminate|]. split; [constructor|]. split.
        -- constructor; [|constructor]. cbn [heading]. congruence.
        -- simpl. lia.
    + split; [discriminate|]. split; [exact Ht|]. split; [exact Hh | lia].
Qed.

Lemma heading_inv_step seen st ln :
  heading_inv seen st -> heading_inv (seen ++ [ln]) (chunk_step st ln).
Proof.
  intros H. pose proof H as [Hn Hb Ht Hh Hc].
  assert (Hkeep : forall ic,
             heading_inv (seen ++ [ln])
               {| chunks := chunks st; buf := buf st ++ [ln];
                  current_h := current_h st; in_code := ic |}).
  { intros ic. split; cbn [chunks buf current_h]; auto.
    - intros Hs. destruct (Hb Hs) as (l & r & ->). simpl. eauto.
    - rewrite heading_lines_app. lia. }
  unfold chunk_step. destruct (is_fence ln); [apply Hkeep|].
  destruct (negb (in_code st) && heading_match ln) eqn:E; [|apply Hkeep].
  apply andb_true_iff in E. destruct E as [_ Hm].
  destruct (heading_inv_flush H) as (_ & Ht' & Hh' & Hc').
  destruct (heading_match_hash _ Hm) as [l ->].
  split; cbn [chunks buf current_h].
  - discriminate.
  - intros _. rewrite flush_buf. simpl. eauto.
  - exact Ht'.
  - exact Hh'.
  - rewrite heading_lines_app. unfold heading_lines at 2. simpl. rewrite Hm. simpl. lia.
Qed.

Lemma heading_inv_fold lines : forall seen st,
  heading_inv seen st -> heading_inv (seen ++ lines) (fold_left chunk_step lines st).
Proof.
  induction lines as [|ln lines IH]; intros seen st H; simpl.
  - now rewrite app_nil_r.
  - replace (seen ++ ln :: lines) with ((seen ++ [ln]) ++ lines)
      by now rewrite <- app_assoc.
    apply IH. now apply heading_inv_step.
Qed.

(** Without a heading line the chunker only fills its buffer. *)
Lemma plain_fold lines : forall st,
  Forall (fun ln => heading_match ln = false) lines ->
  chunks (fold_left chunk_step lines st) = chunks st
  /\ buf (fold_left chunk_step lines st) = buf st ++ lines
  /\ current_h (fold_left chunk_step lines st) = current_h st.
Proof.
  induction lines as [|ln lines IH]; intros st H; simpl.
  - now rewrite app_nil_r.
  - inversion H as [|? ? Hln Hrest]; subst.
    destruct (IH (chunk_step st ln) Hrest) as (Hc & Hb & Hh).
    rewrite Hc, Hb, Hh. unfold chunk_step. rewrite Hln, andb_false_r.
    destruct (is_fence ln); cbn [chunks buf current_h];
      now rewrite <- app_assoc.
Qed.

End HeadingInvariant.

(** X2. The text of a chunk is never empty and carries no whitespace at
    its ends; an input of whitespace only, the empty one included, gives no
    chunk at all. *)
Theorem chunk_markdown_trimmed (md : str) :
  Forall (fun c => markdown c <> [] /\ Py.strip (markdown c) = markdown c)
         (chunk_markdown md)
  /\ (squeeze md = [] -> chunk_markdown md = []).
Proof.
  assert (H : Forall (fun c => markdown c <> [] /\ Py.strip (markdown c) = markdown c)
                     (chunk_markdown md)).
  { apply chunk_markdown_Forall. intros h b Ht. cbn [markdown]. split.
    - destruct (Py.strip (Py.join newline b)); [discriminate | discriminate].
    - apply strip_idem. }
  split; [exact H|]. intros Hws.
  assert (Hsq : squeeze (concat (map markdown (chunk_markdown md))) = squeeze md).
  { unfold chunk_markdown.
    pose proof (squeeze_flush (fold_left chunk_step (Py.splitlines md) chunker_init)) as E.
    rewrite squeeze_fold in E. simpl in E. rewrite squeeze_splitlines in E.
    unfold chunker_text in E. now rewrite flush_buf, app_nil_r in E. }
  destruct (chunk_markdown md) as [|c cs]; [reflexivity|].
  inversion H as [|? ? [Hne Hst] _]; subst.
  simpl in Hsq. rewrite squeeze_app, Hws in Hsq.
  apply app_eq_nil in Hsq. destruct Hsq as [Hsq _].
  now apply stripped_squeeze in Hsq.
Qed.

Lemma chunk_markdown_trimmed_witness :
  squeeze [32%N; LF; 9%N] = [] /\ chunk_markdown [32%N; LF; 9%N] = [].
Proof.
  assert (H : squeeze [32%N; LF; 9%N] = []) by reflexivity.
  split; [exact H|]. exact (proj2 (chunk_markdown_trimmed [32%N; LF; 9%N]) H).
Defined.

(** X3. Chunks follow the headings: a text gives at most one chunk more
    than it has heading lines; every chunk after the first starts with the
    [#] of its heading line, and so does every chunk that has a heading. *)
Theorem chunk_markdown_headings (md : str) :
  length (chunk_markdown md) <= S (heading_lines (Py.splitlines md))
  /\ Forall (fun c => exists t, markdown c = hash :: t) (tl (chunk_markdown md))
  /\ Forall (fun c => heading c <> [] -> exists t, markdown c = hash :: t)
            (chunk_markdown md).
Proof.
  pose proof (heading_inv_fold (Py.splitlines md) heading_inv_init) as H.
  simpl in H. destruct (heading_inv_flush H) as (_ & Ht & Hh & Hc).
  destruct H as [_ _ _ _ Hn]. unfold chunk_markdown.
  split; [lia|]. split; assumption.
Qed.

(** X4. A text without heading lines is one chunk: its lines joined and
    trimmed, under the empty heading; or no chunk when nothing is left
    after trimming. *)
Theorem chunk_markdown_plain (md : str) :
  Forall (fun ln => heading_match ln = false) (Py.splitlines md) ->
  chunk_markdown md
  = match Py.strip (Py.join newline (Py.splitlines md)) with
    | [] => []
    | text => [{| heading := []; markdown := text |}]
    end.
Proof.
  intros H. unfold chunk_markdown.
  destruct (plain_fold chunker_init H) as (Hc & Hb & Hh). simpl in Hc, Hb, Hh.
  unfold flush. rewrite Hb, Hc, Hh.
  destruct (Py.splitlines md) as [|l ls]; [reflexivity|].
  cbn [chunks]. destruct (Py.strip (Py.join newline (l :: ls))); reflexivity.
Qed.

Lemma chunk_markdown_plain_witness :
  Forall (fun ln => heading_match ln = false)
         (Py.splitlines (lit "Use a key." ++ [LF] ++ lit "#hashtag" ++ [LF]))
  /\ chunk_markdown (lit "Use a key." ++ [LF] ++ lit "#hashtag" ++ [LF])
     = [{| heading := []; markdown := lit "Use a key." ++ [LF] ++ lit "#hashtag" |}].
Proof.
  assert (H : Forall (fun ln => heading_match ln = false)
                     (Py.splitlines (lit "Use a key." ++ [LF] ++ lit "#hashtag" ++ [LF])))
    by (vm_compute; repeat constructor).
  split; [exact H|].
  rewrite (chunk_markdown_plain _ H). vm_compute. reflexivity.
Defined.

(** ** Cleaning *)

Section CleanFacts.

Lemma take_space_prefix s :
  Forall (fun c => Py.isspace c = true) (take_space s)
  /\ firstn (length (take_space s)) s = take_space s.
Proof.
  induction s as [|c s [IH1 IH2]]; simpl; [split; constructor|].
  destruct (Py.isspace c) eqn:E; simpl; [|split; constructor].
  split; [now constructor | now rewrite IH2].
Qed.

Lemma last_index_lt x l f : last_index x l = Some f -> f < length l.
Proof.
  revert f. induction l as [|c l IH]; intros f; simpl; [discriminate|].
  destruct (last_index x l) as [i|].
  - intros H. inversion H; subst. specialize (IH i eq_refl). lia.
  - destruct (c =? x)%N; intros H; inversion H. lia.
Qed.

Lemma squeeze_space_cons c s : Py.isspace c = true -> squeeze (c :: s) = squeeze s.
Proof. intros E. unfold squeeze. simpl. now rewrite E. Qed.

(** The blank-line rule removes whitespace only; the characters it skips
    are those of a whitespace run. *)
Lemma squeeze_collapse s : forall skip,
  Forall (fun c => Py.isspace c = true) (firstn skip s) ->
  squeeze (collapse_blank_lines skip s) = squeeze s.
Proof.
  induction s as [|c s IH]; intros skip H; [reflexivity|].
  destruct skip as [|k].
  - cbn [collapse_blank_lines].
    assert (Hplain : squeeze (c :: collapse_blank_lines 0 s) = squeeze (c :: s)).
    { unfold squeeze in *. simpl. rewrite (IH 0 (Forall_nil _)). reflexivity. }
    destruct ((c =? LF)%N && (2 <=? count_occ N.eq_dec (take_space s) LF)) eqn:E;
      [|exact Hplain].
    destruct (last_index LF (take_space s)) as [f|] eqn:El; [|exact Hplain].
    apply andb_true_iff in E. destruct E as [Ec _]. apply N.eqb_eq in Ec. subst c.
    rewrite !squeeze_space_cons by reflexivity. apply IH.
    apply last_index_lt in El. destruct (take_space_prefix s) as [Hws Hpre].
    rewrite <- Hpre in Hws.
    replace (firstn (S f) s)
      with (firstn (S f) (firstn (length (take_space s)) s))
      by (rewrite firstn_firstn; f_equal; lia).
    rewrite <- (firstn_skipn (S f) (firstn (length (take_space s)) s)) in Hws.
    apply Forall_app in Hws. tauto.
  - cbn [collapse_blank_lines]. simpl in H. inversion H; subst.
    rewrite squeeze_space_cons by assumption. now apply IH.
Qed.

Lemma split_from_nonempty sep s : forall skip maxsplit,
  split_from skip sep maxsplit s <> [].
Proof.
  induction s as [|c s IH]; intros skip maxsplit; [discriminate|].
  cbn [split_from]. destruct skip as [|k]; [|apply IH].
  destruct maxsplit as [|m]; [discriminate|].
  destruct (Py.startswith sep (c :: s)); [discriminate|].
  destruct (split_from 0 sep (S m) s); discriminate.
Qed.

(** A text that is not split is its own only part. *)
Lemma split_from_single sep s : forall maxsplit p,
  split_from 0 sep maxsplit s = [p] -> p = s.
Proof.
  induction s as [|c s IH]; intros maxsplit p H.
  - simpl in H. now inversion H.
  - cbn [split_from] in H. destruct maxsplit as [|m]; [now inversion H|].
    destruct (Py.startswith sep (c :: s)).
    + inversion H as [[Hp Hx]]. now apply split_from_nonempty in Hx.
    + destruct (split_from 0 sep (S m) s) as [|q qs] eqn:E.
      * now apply split_from_nonempty in E.
      * inversion H; subst. now rewrite (IH _ _ E).
Qed.

(** The last part of a split is a suffix of the text. *)
Lemma split_from_last sep s : forall skip maxsplit,
  exists pre, s = pre ++ last (split_from skip sep maxsplit s) [].
Proof.
  induction s as [|c s IH]; intros skip maxsplit; [exists []; reflexivity|].
  cbn [split_from]. destruct skip as [|k].
  - destruct maxsplit as [|m]; [exists []; reflexivity|].
    destruct (Py.startswith sep (c :: s)).
    + destruct (IH (Nat.pred (length sep)) m) as [pre Hpre].
      exists (c :: pre).
      destruct (split_from (Nat.pred (length sep)) sep m s) as [|p ps] eqn:E;
        [now apply split_from_nonempty in E|].
      cbn [last app] in *. now rewrite <- Hpre.
    + destruct (IH 0 (S m)) as [pre Hpre].
      destruct (split_from 0 sep (S m) s) as [|p ps] eqn:E;
        [now apply split_from_nonempty in E|].
      destruct ps as [|p' ps].
      * apply split_from_single in E. subst p. now exists [].
      * exists (c :: pre). cbn [last app] in *. now rewrite <- Hpre.
  - destruct (IH k maxsplit) as [pre Hpre]. exists (c :: pre).
    cbn [app]. now rewrite <- Hpre.
Qed.

Lemma split_from_length sep s : forall skip maxsplit,
  length (split_from skip sep maxsplit s) <= S maxsplit.
Proof.
  induction s as [|c s IH]; intros skip maxsplit; [simpl; lia|].
  cbn [split_from]. destruct skip as [|k]; [|apply IH].
  destruct maxsplit as [|m]; [simpl; lia|].
  destruct (Py.startswith sep (c :: s)).
  - simpl. specialize (IH (Nat.pred (length sep)) m). lia.
  - specialize (IH 0 (S m)). destruct (split_from 0 sep (S m) s); simpl in *; lia.
Qed.

Lemma startswith_app p a b :
  length p <= length a -> Py.startswith p (a ++ b) = Py.startswith p a.
Proof.
  revert a. induction p as [|x p IH]; intros a H; [reflexivity|].
  destruct a as [|y a]; [simpl in H; lia|].
  simpl. rewrite IH; [reflexivity | simpl in H; lia].
Qed.

(** A block that does not hold the delimiter, not even with the two first
    dashes of the closing one, ends at the closing delimiter. *)
Lemma split_frontmatter fm rest :
  Py.contains (lit "---") (fm ++ lit "--") = false ->
  split_from 0 (lit "---") 1 (fm ++ lit "---" ++ rest) = [fm; rest].
Proof.
  induction fm as [|c fm IH]; intros H.
  - destruct rest; reflexivity.
  - cbn [Py.contains] in H. apply orb_false_iff in H. destruct H as [H1 H2].
    change ((c :: fm) ++ lit "---" ++ rest)
      with (c :: fm ++ lit "---" ++ rest).
    cbn [split_from].
    assert (Hs : Py.startswith (lit "---") (c :: fm ++ lit "---" ++ rest) = false).
    { replace (c :: fm ++ lit "---" ++ rest)
        with (((c :: fm) ++ lit "--") ++ lit "-" ++ rest)
        by (rewrite <- app_assoc; reflexivity).
      rewrite startswith_app; [exact H1|].
      rewrite length_app. simpl. lia. }
    rewrite Hs, (IH H2). reflexivity.
Qed.

End CleanFacts.

(** X5. Cleaning removes nothing but whitespace and, at most, the start of
    the content (the frontmatter block): the text of the result, whitespace
    apart, is the end of the text of the content, and all of it when the
    content does not start with [---]; and the result carries no whitespace
    at its ends. *)
Theorem clean_markdown_keeps_text (content : str) :
  (exists dropped, squeeze content = dropped ++ squeeze (clean_markdown content))
  /\ (Py.startswith (lit "---") content = false ->
      squeeze (clean_markdown content) = squeeze content)
  /\ Py.strip (clean_markdown content) = clean_markdown content.
Proof.
  unfold clean_markdown. split; [|split].
  - destruct (Py.startswith (lit "---") content).
    + pose proof (split_from_last (lit "---") content 0 2) as [pre Hpre].
      pose proof (split_from_length (lit "---") content 0 2) as Hlen.
      unfold split_max.
      destruct (split_from 0 (lit "---") 2 content) as [|a [|b [|p2 ps]]];
        try (exists []; now rewrite squeeze_strip, squeeze_collapse by constructor).
      destruct ps; [|simpl in Hlen; lia].
      cbn [last] in Hpre. exists (squeeze pre).
      rewrite squeeze_strip, squeeze_collapse by constructor.
      now rewrite Hpre, squeeze_app at 1.
    + exists []. now rewrite squeeze_strip, squeeze_collapse by constructor.
  - intros ->. now rewrite squeeze_strip, squeeze_collapse by constructor.
  - apply strip_idem.
Qed.

Lemma clean_markdown_keeps_text_witness :
  Py.startswith (lit "---") (lit "# A" ++ [LF; LF; LF; LF] ++ lit "B ") = false
  /\ squeeze (clean_markdown (lit "# A" ++ [LF; LF; LF; LF] ++ lit "B "))
     = squeeze (lit "# A" ++ [LF; LF; LF; LF] ++ lit "B ")
  /\ clean_markdown (lit "# A" ++ [LF; LF; LF; LF] ++ lit "B ")
     = lit "# A" ++ [LF; LF] ++ lit "B".
Proof.
  assert (H : Py.startswith (lit "---") (lit "# A" ++ [LF; LF; LF; LF] ++ lit "B ") = false)
    by reflexivity.
  split; [exact H|].
  split; [exact (proj1 (proj2 (clean_markdown_keeps_text _)) H) | reflexivity].
Defined.

(** X6. Frontmatter is dropped: for a content that starts with [---],
    holds a block without that delimiter and then [---] again, the result
    is what follows the second delimiter, with its runs of blank lines
    collapsed and its ends trimmed; when there is no second delimiter the
    content is kept from its start. *)
Theorem clean_markdown_frontmatter (fm rest : str) :
  Py.contains (lit "---") (fm ++ lit "--") = false ->
  clean_markdown (lit "---" ++ fm ++ lit "---" ++ rest)
  = Py.strip (collapse_blank_lines 0 rest)
  /\ clean_markdown (lit "---" ++ fm ++ lit "--")
     = Py.strip (collapse_blank_lines 0 (lit "---" ++ fm ++ lit "--")).
Proof.
  intros H.
  assert (Hstart : forall x, Py.startswith (lit "---") (lit "---" ++ x) = true)
    by reflexivity.
  assert (Hsplit : forall x, split_from 0 (lit "---") 2 (lit "---" ++ x)
                             = [] :: split_from 0 (lit "---") 1 x)
    by reflexivity.
  unfold clean_markdown, split_max. rewrite !Hstart, !Hsplit. split.
  - now rewrite (split_frontmatter _ _ H).
  - assert (Hone : forall s, Py.contains (lit "---") s = false ->
                             split_from 0 (lit "---") 1 s = [s]).
    { induction s as [|c s IH]; intros Hc; [reflexivity|].
      cbn [Py.contains] in Hc. apply orb_false_iff in Hc. destruct Hc as [H1 H2].
      cbn [split_from]. now rewrite H1, (IH H2). }
    now rewrite (Hone _ H).
Qed.

Lemma clean_markdown_frontmatter_witness :
  Py.contains (lit "---") (([LF] ++ lit "title: X" ++ [LF]) ++ lit "--") = false
  /\ clean_markdown (lit "---" ++ ([LF] ++ lit "title: X" ++ [LF]) ++ lit "---"
                     ++ ([LF] ++ lit "# Heading" ++ [LF] ++ lit "Body text"))
     = lit "# Heading" ++ [LF] ++ lit "Body text".
Proof.
  assert (H : Py.contains (lit "---") (([LF] ++ lit "title: X" ++ [LF]) ++ lit "--") = false)
    by reflexivity.
  split; [exact H|].
  rewrite (proj1 (clean_markdown_frontmatter _ ([LF] ++ lit "# Heading" ++ [LF]
                                                  ++ lit "Body text") H)).
  reflexivity.
Defined.

(** ** Descriptions *)

Section DescriptionFacts.

Lemma enumerate_from_cons {A} k (a : A) l :
  enumerate_from k (a :: l) = (k, a) :: enumerate_from (S k) l.
Proof. reflexivity. Qed.

Lemma firstn_seq_min n : forall k len, firstn n (seq k len) = seq k (Nat.min n len).
Proof.
  induction n as [|n IH]; intros k [|len]; simpl; try reflexivity.
  now rewrite IH.
Qed.

Lemma firstn_enumerate {A} n (l : list A) :
  firstn n (enumerate l) = enumerate_from 0 (firstn n l).
Proof.
  unfold enumerate, enumerate_from.
  rewrite combine_firstn, firstn_seq_min, length_firstn. reflexivity.
Qed.

Lemma description_loop_plain lines pre : forall k w,
  Forall (fun l => plain_line l = true) pre ->
  extract_description_loop lines (enumerate_from k (pre ++ w))
  = extract_description_loop lines (enumerate_from (k + length pre) w).
Proof.
  induction pre as [|l pre IH]; intros k w H.
  - simpl. now rewrite Nat.add_0_r.
  - inversion H as [|? ? Hl Hpre]; subst.
    unfold plain_line in Hl. apply andb_true_iff in Hl.
    destruct Hl as [H1 H2]. apply negb_true_iff in H1, H2.
    cbn [app]. rewrite enumerate_from_cons. cbn [extract_description_loop].
    rewrite H1, H2. cbn [andb]. rewrite (IH (S k) w Hpre).
    f_equal. f_equal. simpl. lia.
Qed.

Lemma firstn_split_at {A} n (pre : list A) line post :
  length pre < n ->
  firstn n (pre ++ line :: post) = pre ++ line :: firstn (n - S (length pre)) post.
Proof.
  intros H. rewrite firstn_app, firstn_all2 by lia.
  replace (n - length pre) with (S (n - S (length pre))) by lia. reflexivity.
Qed.

Lemma first_paragraph_some ls d :
  first_paragraph ls = Some d ->
  length d <= 203
  /\ exists p, In p ls /\ Py.strip p <> [] /\ Py.startswith [hash] p = false
               /\ d = Py.upto 200 (Py.strip p) ++ lit "...".
Proof.
  induction ls as [|l ls IH]; cbn [first_paragraph]; [discriminate|].
  destruct (Py.truthy (Py.strip l) && negb (Py.startswith [hash] l)) eqn:E.
  - intros H.
    assert (Hd : Py.upto 200 (Py.strip l) ++ lit "..." = d)
      by (generalize dependent (Py.upto 200 (Py.strip l) ++ lit "...");
          intros x Hx; congruence).
    clear H IH. subst d. apply andb_true_iff in E. destruct E as [E1 E2].
    apply negb_true_iff in E2. split.
    + rewrite length_app. unfold Py.upto. rewrite length_firstn.
      change (length (lit "...")) with 3. lia.
    + exists l. split; [now left|]. split; [|split; [exact E2 | reflexivity]].
      intros Hs. rewrite Hs in E1. discriminate.
  - intros H. destruct (IH H) as (Hl & p & Hp & Hrest). split; [exact Hl|].
    exists p. split; [now right | exact Hrest].
Qed.

End DescriptionFacts.

(** X7. Description extraction reads the first 20 lines: when none of them
    starts with [description:] or [## ] the description is empty; a
    [description:] line before which no such line stands gives its text
    after the marker, trimmed; a [## ] line, not the first of the content,
    before which no such line stands gives the first of the 4 lines after
    it that is neither blank nor starts with [#], trimmed, cut at 200
    characters and followed by three dots; and a [## ] line that is the
    first line of the content is passed over. *)
Theorem extract_description_cases (content : str) :
  (Forall (fun l => plain_line l = true) (firstn 20 (Py.split_char LF content)) ->
   extract_description content = [])
  /\ (forall pre line post,
         Py.split_char LF content = pre ++ line :: post ->
         length pre < 20 ->
         Forall (fun l => plain_line l = true) pre ->
         Py.startswith (lit "description:") line = true ->
         extract_description content = Py.strip (Py.from 12 line))
  /\ (forall pre line post d,
         Py.split_char LF content = pre ++ line :: post ->
         0 < length pre < 20 ->
         Forall (fun l => plain_line l = true) pre ->
         Py.startswith (lit "description:") line = false ->
         Py.startswith (lit "## ") line = true ->
         first_paragraph (firstn 4 post) = Some d ->
         extract_description content = d
         /\ length d <= 203
         /\ exists p, In p (firstn 4 post)
                      /\ d = Py.upto 200 (Py.strip p) ++ lit "...")
  /\ (forall line post,
         Py.split_char LF content = line :: post ->
         Py.startswith (lit "description:") line = false ->
         Py.startswith (lit "## ") line = true ->
         Forall (fun l => plain_line l = true) (firstn 19 post) ->
         extract_description content = []).
Proof.
  unfold extract_description. rewrite firstn_enumerate.
  split; [|split; [|split]].
  - intros H.
    rewrite <- (app_nil_r (firstn 20 (Py.split_char LF content))).
    now rewrite description_loop_plain.
  - intros pre line post Hl Hn Hpre Hd. rewrite Hl at 2.
    rewrite firstn_split_at by exact Hn.
    rewrite description_loop_plain by exact Hpre.
    rewrite enumerate_from_cons. cbn [extract_description_loop]. now rewrite Hd.
  - intros pre line post d Hl Hn Hpre Hd Hs Hp. rewrite Hl at 2.
    rewrite firstn_split_at by lia.
    rewrite description_loop_plain by exact Hpre.
    rewrite enumerate_from_cons. cbn [extract_description_loop].
    rewrite Hd, Hs. cbn [andb Nat.add].
    destruct (Nat.ltb_spec 0 (length pre)); [|lia].
    assert (Hskip : skipn (S (length pre)) (Py.split_char LF content) = post).
    { rewrite Hl. clear. induction pre as [|x pre IH]; [reflexivity | exact IH]. }
    rewrite Hskip, Hp. destruct (first_paragraph_some _ Hp) as (Hlen & p & Hin & _ & _ & Hd').
    repeat split; eauto.
  - intros line post Hl Hd Hs Hrest. rewrite Hl at 2.
    change (firstn 20 (line :: post)) with (line :: firstn 19 post).
    rewrite enumerate_from_cons. cbn [extract_description_loop].
    rewrite Hd, Hs. cbn [andb Nat.ltb Nat.leb].
    rewrite <- (app_nil_r (firstn 19 post)).
    now rewrite description_loop_plain.
Qed.

Lemma extract_description_cases_witness :
  (Forall (fun l => plain_line l = true)
          (firstn 20 (Py.split_char LF (lit "# T" ++ [LF] ++ lit "Body")))
   /\ extract_description (lit "# T" ++ [LF] ++ lit "Body") = [])
  /\ (Py.split_char LF (lit "---" ++ [LF] ++ lit "description:  How to log in ")
      = [lit "---"] ++ lit "description:  How to log in " :: []
      /\ extract_description (lit "---" ++ [LF] ++ lit "description:  How to log in ")
         = lit "How to log in")
  /\ (Py.split_char LF (lit "# T" ++ [LF] ++ lit "## Keys" ++ [LF] ++ [LF]
                        ++ lit " Use a key. ")
      = [lit "# T"] ++ lit "## Keys" :: [[]; lit " Use a key. "]
      /\ extract_description (lit "# T" ++ [LF] ++ lit "## Keys" ++ [LF] ++ [LF]
                              ++ lit " Use a key. ")
         = lit "Use a key....")
  /\ (Py.split_char LF (lit "## Keys" ++ [LF] ++ lit "Use a key.")
      = lit "## Keys" :: [lit "Use a key."]
      /\ extract_description (lit "## Keys" ++ [LF] ++ lit "Use a key.") = []).
Proof.
  split; [|split; [|split]].
  - assert (H : Forall (fun l => plain_line l = true)
                       (firstn 20 (Py.split_char LF (lit "# T" ++ [LF] ++ lit "Body"))))
      by (vm_compute; repeat constructor).
    split; [exact H|]. exact (proj1 (extract_description_cases _) H).
  - assert (H : Py.split_char LF (lit "---" ++ [LF] ++ lit "description:  How to log in ")
                = [lit "---"] ++ lit "description:  How to log in " :: [])
      by reflexivity.
    split; [exact H|].
    destruct (extract_description_cases
                (lit "---" ++ [LF] ++ lit "description:  How to log in "))
      as (_ & H2 & _).
    rewrite (H2 _ _ _ H); [reflexivity | simpl; lia | repeat constructor | reflexivity].
  - assert (H : Py.split_char LF (lit "# T" ++ [LF] ++ lit "## Keys" ++ [LF] ++ [LF]
                                  ++ lit " Use a key. ")
                = [lit "# T"] ++ lit "## Keys" :: [[]; lit " Use a key. "])
      by reflexivity.
    split; [exact H|].
    destruct (extract_description_cases
                (lit "# T" ++ [LF] ++ lit "## Keys" ++ [LF] ++ [LF] ++ lit " Use a key. "))
      as (_ & _ & H3 & _).
    refine (proj1 (H3 _ _ _ (lit "Use a key....") H _ _ _ _ _));
      [simpl; lia | repeat constructor | reflexivity | reflexivity | reflexivity].
  - assert (H : Py.split_char LF (lit "## Keys" ++ [LF] ++ lit "Use a key.")
                = lit "## Keys" :: [lit "Use a key."])
      by reflexivity.
    split; [exact H|].
    destruct (extract_description_cases (lit "## Keys" ++ [LF] ++ lit "Use a key."))
      as (_ & _ & _ & H4).
    apply (H4 _ _ H); [reflexivity | reflexivity | vm_compute; repeat constructor].
Defined.

(** ** Fetching, step by step *)

Section FetchSteps.

Variable lower : str -> str.
Variable server : nat -> str -> Reply.

(** [fetch_markdown_content] as the case analysis it performs. *)
Lemma fetch_unfold u s :
  fetch_markdown_content lower server u s =
  match get (self_cache s) u with
  | Some d => (Ok (Some d), s)
  | None =>
      match _get server (md_url u) s with
      | (Raise e, s1) => (Raise e, s1)
      | (Ok r1, s1) =>
          match body_of lower r1 with
          | Some b => (Ok (Some (doc_data u (md_url u) b)),
                       stored u (doc_data u (md_url u) b) s1)
          | None =>
              match _get server u s1 with
              | (Raise e, s2) => (Raise e, s2)
              | (Ok r2, s2) =>
                  match accepted lower r2 with
                  | Some b => (Ok (Some (doc_data u u b)), stored u (doc_data u u b) s2)
                  | None => (Ok None, s2)
                  end
              end
          end
      end
  end.
Proof.
  unfold fetch_markdown_content, bind at 1, get_self at 1.
  destruct (get (self_cache s) u) as [d|]; [reflexivity|].
  cbv zeta. unfold bind at 1.
  destruct (_get server (md_url u) s) as [[r1|e1] s1]; [|reflexivity].
  unfold bind at 1, body_of.
  destruct (match r1 with
            | Some r => if markdownish lower r then Some (text r) else None
            | None => None
            end) as [b|].
  - reflexivity.
  - unfold bind at 1.
    destruct (_get server u s1) as [[r2|e2] s2]; [|reflexivity].
    unfold accepted. destruct r2 as [r2|]; [|reflexivity].
    destruct (is_success r2 && markdownish lower r2); reflexivity.
Qed.

Lemma _get_sleeps u s :
  exists k, k <= 4 /\ sleeps (snd (_get server u s)) = sleeps s ++ map backoff (seq 0 k).
Proof.
  unfold _get.
  destruct (_get_loop_spec server u 4 0 s) as (m & Hm & _ & _ & _ & _ & Hend).
  destruct Hend as [(_ & _ & _ & Hs)|(_ & Hs & _)].
  - exists 4. split; [lia | exact Hs].
  - exists (m - 1). split; [lia | exact Hs].
Qed.

Lemma success_not_retryable r : is_success r = true -> retryable r = false.
Proof.
  unfold is_success, retryable. intros H.
  apply andb_true_iff in H. destruct H as [H1 H2].
  apply Z.leb_le in H1, H2.
  apply orb_false_iff. split; [apply Z.eqb_neq; lia|].
  apply andb_false_iff. left. apply Z.leb_gt. lia.
Qed.

(** An answer that asks for no retry ends [_get] after one GET. *)
Lemma _get_once u s r :
  server (length (requests s)) u = Answer r ->
  retryable r = false ->
  _get server u s = (Ok (if is_success r then Some r else None), logged u s).
Proof.
  intros Hr Ht. unfold _get. cbn [seq _get_loop]. unfold bind, http_get, ret.
  rewrite Hr, Ht. now destruct (is_success r).
Qed.

Lemma startswith_self p x : Py.startswith p (p ++ x) = true.
Proof. induction p as [|c p IH]; simpl; [reflexivity|]. now rewrite N.eqb_refl. Qed.

Lemma md_url_ends u : Py.endswith (lit ".md") (md_url u) = true.
Proof.
  unfold md_url. destruct (Py.endswith (lit ".md") u) eqn:E; [exact E|].
  unfold Py.endswith. rewrite rev_app_distr. apply startswith_self.
Qed.

Lemma total_app a b : (total (a ++ b) == total a + total b)%Q.
Proof.
  unfold total. induction a as [|x a IH]; simpl; [ring|]. rewrite IH. ring.
Qed.

Lemma backoff_total k1 k2 :
  k1 <= 4 -> k2 <= 4 ->
  (total (map backoff (seq 0 k1) ++ map backoff (seq 0 k2)) <= 15)%Q.
Proof.
  intros H1 H2.
  destruct k1 as [|[|[|[|[|k1]]]]]; try lia;
    destruct k2 as [|[|[|[|[|k2]]]]]; try lia;
    apply Qle_bool_iff; reflexivity.
Qed.

End FetchSteps.

(** X8. Every fetch keeps the cache coherent: no URL is held twice, and
    every document is stored under its own URL with the title, the
    description, the cleaned content and the chunks derived from its raw
    content, fetched from the URL or from its markdown variant; and the
    document that a fetch returns is such a document for the URL asked, and
    is the one the cache holds for it afterwards. *)
Theorem fetch_keeps_coherent (lower : str -> str) (server : nat -> str -> Reply)
        (u : str) (s : VoiceflowMCP) :
  cache_coherent (self_cache s) ->
  cache_coherent (self_cache (snd (fetch_markdown_content lower server u s)))
  /\ (forall d,
         fst (fetch_markdown_content lower server u s) = Ok (Some d) ->
         coherent u d
         /\ get (self_cache (snd (fetch_markdown_content lower server u s))) u = Some d).
Proof.
  intros [Hnd Hall]. rewrite fetch_unfold.
  assert (Hstore : forall final b s0,
             self_cache s0 = self_cache s -> get (self_cache s) u = None ->
             final = md_url u \/ final = u ->
             cache_coherent (self_cache (stored u (doc_data u final b) s0))
             /\ coherent u (doc_data u final b)
             /\ get (self_cache (stored u (doc_data u final b) s0)) u
                = Some (doc_data u final b)).
  { intros final b s0 Hc G Hf.
    assert (Hco : coherent u (doc_data u final b)) by (exists final, b; now split).
    unfold stored, set, get. cbn [self_cache cache]. rewrite Hc.
    split; [|split; [exact Hco | apply dict_get_set]].
    split; [now apply dict_set_keys_NoDup|].
    unfold get in G. rewrite dict_set_absent by exact G.
    apply Forall_app. split; [exact Hall | now repeat constructor]. }
  destruct (get (self_cache s) u) as [d|] eqn:G.
  - split; [now split|]. intros d' H. cbn [fst snd] in *. inversion H; subst d'.
    split; [|exact G].
    unfold get in G. apply dict_get_In in G. rewrite Forall_forall in Hall.
    exact (Hall _ G).
  - pose proof (_get_effects server (md_url u) s) as (_ & _ & _ & Hc1 & _).
    destruct (_get server (md_url u) s) as [[r1|e1] s1]; cbn [fst snd] in *.
    2:{ rewrite Hc1. split; [now split | discriminate]. }
    destruct (body_of lower r1) as [b|].
    + destruct (Hstore (md_url u) b s1 Hc1 eq_refl (or_introl eq_refl)) as (H1 & H2 & H3).
      split; [exact H1|]. intros d H. cbn [fst snd] in *. inversion H; subst d.
      now split.
    + pose proof (_get_effects server u s1) as (_ & _ & _ & Hc2 & _).
      destruct (_get server u s1) as [[r2|e2] s2]; cbn [fst snd] in *.
      2:{ rewrite Hc2, Hc1. split; [now split | discriminate]. }
      destruct (accepted lower r2) as [b|].
      * assert (Hc : self_cache s2 = self_cache s) by congruence.
        destruct (Hstore u b s2 Hc eq_refl (or_intror eq_refl)) as (H1 & H2 & H3).
        split; [exact H1|]. intros d H. cbn [fst snd] in *. inversion H; subst d.
        now split.
      * cbn [fst snd]. rewrite Hc2, Hc1. split; [now split | discriminate].
Qed.

Lemma fetch_keeps_coherent_witness :
  cache_coherent (self_cache fresh_session)
  /\ cache_coherent
       (self_cache (snd (fetch_markdown_content ascii_lower markdown_server auth_url
                                                fresh_session))).
Proof.
  assert (H : cache_coherent (self_cache fresh_session))
    by (split; constructor).
  split; [exact H|].
  exact (proj1 (@fetch_keeps_coherent ascii_lower markdown_server auth_url _ H)).
Defined.

(** X9. One fetch asks the server at most 8 times, first for the markdown
    variant of the URL and then for the URL itself, at most 4 times each,
    and sleeps at most 8 times, for 15 time-units in all at most.  The
    markdown variant always ends in [.md], so that a URL that ends in [.md]
    is its own variant and is the only URL asked. *)
Theorem fetch_requests_bounded (lower : str -> str) (server : nat -> str -> Reply)
        (u : str) (s : VoiceflowMCP) :
  (exists m1 m2 slept,
      m1 <= 4 /\ m2 <= 4
      /\ requests (snd (fetch_markdown_content lower server u s))
         = requests s ++ repeat (md_url u) m1 ++ repeat u m2
      /\ sleeps (snd (fetch_markdown_content lower server u s)) = sleeps s ++ slept
      /\ length slept <= 8
      /\ (total slept <= 15)%Q)
  /\ Py.endswith (lit ".md") (md_url u) = true
  /\ md_url (md_url u) = md_url u.
Proof.
  split; [|split; [apply md_url_ends|]].
  2:{ unfold md_url at 1. now rewrite md_url_ends. }
  rewrite fetch_unfold.
  assert (Hnone : exists m1 m2 slept,
             m1 <= 4 /\ m2 <= 4
             /\ requests s = requests s ++ repeat (md_url u) m1 ++ repeat u m2
             /\ sleeps s = sleeps s ++ slept /\ length slept <= 8
             /\ (total slept <= 15)%Q).
  { exists 0, 0, []. simpl. rewrite !app_nil_r.
    repeat split; try lia. apply Qle_bool_iff. reflexivity. }
  destruct (get (self_cache s) u) as [d|]; [exact Hnone|]. clear Hnone.
  pose proof (_get_effects server (md_url u) s) as (m1 & Hm1 & Hq1 & _ & _).
  pose proof (_get_sleeps server (md_url u) s) as (k1 & Hk1 & Hs1).
  assert (Hfirst : forall s1,
             requests s1 = requests s ++ repeat (md_url u) m1 ->
             sleeps s1 = sleeps s ++ map backoff (seq 0 k1) ->
             exists m1 m2 slept,
               m1 <= 4 /\ m2 <= 4
               /\ requests s1 = requests s ++ repeat (md_url u) m1 ++ repeat u m2
               /\ sleeps s1 = sleeps s ++ slept /\ length slept <= 8
               /\ (total slept <= 15)%Q).
  { intros s1 Hq Hs. exists m1, 0, (map backoff (seq 0 k1)).
    simpl. rewrite app_nil_r, length_map, length_seq.
    repeat split; try lia; try assumption.
    rewrite <- (app_nil_r (map backoff (seq 0 k1))).
    apply (backoff_total (k1 := k1) (k2 := 0)); lia. }
  destruct (_get server (md_url u) s) as [[r1|e1] s1]; cbn [fst snd] in *;
    [|now apply Hfirst].
  destruct (body_of lower r1) as [b|]; [now apply Hfirst|].
  pose proof (_get_effects server u s1) as (m2 & Hm2 & Hq2 & _ & _).
  pose proof (_get_sleeps server u s1) as (k2 & Hk2 & Hs2).
  assert (Hsecond : forall s2,
             requests s2 = requests s1 ++ repeat u m2 ->
             sleeps s2 = sleeps s1 ++ map backoff (seq 0 k2) ->
             exists m1 m2 slept,
               m1 <= 4 /\ m2 <= 4
               /\ requests s2 = requests s ++ repeat (md_url u) m1 ++ repeat u m2
               /\ sleeps s2 = sleeps s ++ slept /\ length slept <= 8
               /\ (total slept <= 15)%Q).
  { intros s2 Hq Hs.
    exists m1, m2, (map backoff (seq 0 k1) ++ map backoff (seq 0 k2)).
    rewrite Hq, Hq1, Hs, Hs1, <- !app_assoc, length_app, !length_map, !length_seq.
    repeat split; try lia. now apply backoff_total. }
  destruct (_get server u s1) as [[r2|e2] s2]; cbn [fst snd] in *;
    [|now apply Hsecond].
  destruct (accepted lower r2); now apply Hsecond.
Qed.

(** X10. When the first answer for the markdown variant of an uncached URL
    is a success that looks like markdown, the fetch ends after that one
    GET: it returns the document assembled from that body, with the markdown
    variant as its markdown URL, and stores it under the URL. *)
Theorem fetch_markdown_variant (lower : str -> str) (server : nat -> str -> Reply)
        (u : str) (s : VoiceflowMCP) (r : Response) :
  get (self_cache s) u = None ->
  server (length (requests s)) (md_url u) = Answer r ->
  is_success r = true ->
  markdownish lower r = true ->
  fetch_markdown_content lower server u s
  = (Ok (Some (doc_data u (md_url u) (text r))),
     stored u (doc_data u (md_url u) (text r)) (logged (md_url u) s)).
Proof.
  intros G Hr Hs Hm. rewrite fetch_unfold, G.
  rewrite (@_get_once server _ s r Hr (@success_not_retryable r Hs)), Hs.
  cbn [body_of]. now rewrite Hm.
Qed.

Lemma fetch_markdown_variant_witness :
  fetch_markdown_content ascii_lower markdown_server auth_url fresh_session
  = (Ok (Some (doc_data auth_url (md_url auth_url)
                        (lit "# Auth Guide" ++ [LF] ++ lit "Use Auth tokens."))),
     stored auth_url
            (doc_data auth_url (md_url auth_url)
                      (lit "# Auth Guide" ++ [LF] ++ lit "Use Auth tokens."))
            (logged (md_url auth_url) fresh_session)).
Proof.
  exact (@fetch_markdown_variant ascii_lower markdown_server auth_url fresh_session
           {| status_code := 200; content_type := Some (lit "text/markdown");
              text := lit "# Auth Guide" ++ [LF] ++ lit "Use Auth tokens." |}
           eq_refl eq_refl eq_refl eq_refl).
Defined.

(** X11. When the markdown variant of an uncached URL is answered at once
    by a failure that asks for no retry, or by a success that does not look
    like markdown, the URL itself is asked; if its first answer asks for no
    retry, the fetch ends after these two GETs: with the document assembled
    from the second body, the URL itself as its markdown URL, when that
    answer is a success that looks like markdown, and with NotFound and the
    cache untouched otherwise. *)
Theorem fetch_fallback (lower : str -> str) (server : nat -> str -> Reply)
        (u : str) (s : VoiceflowMCP) (r1 r2 : Response) :
  get (self_cache s) u = None ->
  server (length (requests s)) (md_url u) = Answer r1 ->
  retryable r1 = false ->
  is_success r1 && markdownish lower r1 = false ->
  server (S (length (requests s))) u = Answer r2 ->
  retryable r2 = false ->
  fetch_markdown_content lower server u s
  = if is_success r2 && markdownish lower r2
    then (Ok (Some (doc_data u u (text r2))),
          stored u (doc_data u u (text r2)) (logged u (logged (md_url u) s)))
    else (Ok None, logged u (logged (md_url u) s)).
Proof.
  intros G H1 Ht1 Hb1 H2 Ht2. rewrite fetch_unfold, G.
  rewrite (@_get_once server _ s r1 H1 Ht1).
  assert (Hbody : body_of lower (if is_success r1 then Some r1 else None) = None).
  { destruct (is_success r1); [|reflexivity]. cbn [body_of]. cbn [andb] in Hb1.
    now rewrite Hb1. }
  rewrite Hbody.
  assert (H2' : server (length (requests (logged (md_url u) s))) u = Answer r2).
  { cbn [logged requests]. rewrite length_app. simpl. now rewrite Nat.add_1_r. }
  rewrite (@_get_once server _ _ r2 H2' Ht2).
  unfold accepted. destruct (is_success r2) eqn:E2; cbn [andb]; [|reflexivity].
  rewrite E2. cbn [andb]. now destruct (markdownish lower r2).
Qed.

Lemma fetch_fallback_witness :
  (fetch_markdown_content ascii_lower plain_server auth_url fresh_session
   = (Ok (Some (doc_data auth_url auth_url
                         (lit "Auth Guide" ++ [LF] ++ lit "Use Auth tokens."))),
      stored auth_url
             (doc_data auth_url auth_url
                       (lit "Auth Guide" ++ [LF] ++ lit "Use Auth tokens."))
             (logged auth_url (logged (md_url auth_url) fresh_session))))
  /\ fetch_markdown_content ascii_lower html_server auth_url fresh_session
     = (Ok None, logged auth_url (logged (md_url auth_url) fresh_session)).
Proof.
  split.
  - exact (@fetch_fallback ascii_lower plain_server auth_url fresh_session
             {| status_code := 404; content_type := None; text := [] |}
             {| status_code := 200; content_type := Some (lit "text/plain");
                text := lit "Auth Guide" ++ [LF] ++ lit "Use Auth tokens." |}
             eq_refl eq_refl eq_refl eq_refl eq_refl eq_refl).
  - exact (@fetch_fallback ascii_lower html_server auth_url fresh_session
             {| status_code := 200; content_type := Some (lit "text/html");
                text := lit "<html><body>Auth Guide</body></html>" |}
             {| status_code := 200; content_type := Some (lit "text/html");
                text := lit "<html><body>Auth Guide</body></html>" |}
             eq_refl eq_refl eq_refl eq_refl eq_refl eq_refl).
Defined.

(** ** The index *)

Section IndexFacts.

Lemma lstrip_Forall (P : char -> Prop) s : Forall P s -> Forall P (Py.lstrip s).
Proof.
  induction 1 as [|c s Hc Hs IH]; simpl; [constructor|].
  destruct (Py.isspace c); [exact IH | now constructor].
Qed.

Lemma strip_Forall (P : char -> Prop) s : Forall P s -> Forall P (Py.strip s).
Proof. intros H. unfold Py.strip. now apply rstrip_Forall, lstrip_Forall. Qed.

Lemma collapse_space_chars (P : char -> Prop) s :
  Forall (fun c => Py.isspace c = false -> P c) s -> P 32%N ->
  forall inside, Forall P (collapse_space inside s).
Proof.
  intros H Hsp. induction H as [|c s Hc Hs IH]; intros inside; simpl; [constructor|].
  destruct (Py.isspace c) eqn:E.
  - destruct inside; [apply IH | constructor; [exact Hsp | apply IH]].
  - constructor; [now apply Hc | apply IH].
Qed.

Lemma single_spaced_cons a s :
  single_spaced s ->
  (Py.isspace a = true -> match s with b :: _ => Py.isspace b = false | [] => True end) ->
  single_spaced (a :: s).
Proof. intros H Ha. destruct s as [|b s]; simpl; [exact I | split; auto]. Qed.

(** After [collapse_space] no whitespace follows whitespace; inside a
    run the result starts with no whitespace. *)
Lemma collapse_space_single s : forall inside,
  single_spaced (collapse_space inside s)
  /\ (inside = true ->
      match collapse_space inside s with b :: _ => Py.isspace b = false | [] => True end).
Proof.
  induction s as [|c s IH]; intros inside; [simpl; auto|].
  cbn [collapse_space]. destruct (Py.isspace c) eqn:E.
  - destruct inside.
    + apply IH.
    + split; [|discriminate].
      destruct (IH true) as [H1 H2]. apply single_spaced_cons; [exact H1|].
      intros _. now apply H2.
  - split; [|intros _; exact E].
    destruct (IH false) as [H1 _]. apply single_spaced_cons; [exact H1|].
    rewrite E. discriminate.
Qed.

Lemma single_spaced_app a b : single_spaced (a ++ b) -> single_spaced a.
Proof.
  induction a as [|x a IH]; [intros; exact I|].
  destruct a as [|y a]; [intros; exact I|].
  intros [H1 H2]. split; [exact H1 | now apply IH].
Qed.

Lemma single_spaced_lstrip s : single_spaced s -> single_spaced (Py.lstrip s).
Proof.
  induction s as [|c s IH]; [auto|]. intros H. cbn [Py.lstrip].
  destruct (Py.isspace c); [|exact H].
  apply IH. destruct s; [exact I | apply H].
Qed.

Lemma rstrip_prefix s : exists w, s = Py.rstrip s ++ w.
Proof.
  induction s as [|c s [w IH]]; [now exists []|].
  rewrite rstrip_cons. destruct (Py.rstrip s) as [|x r].
  - destruct (Py.isspace c); [now exists (c :: s) | exists s; reflexivity].
  - exists w. simpl. now rewrite IH at 1.
Qed.

Lemma single_spaced_strip s : single_spaced s -> single_spaced (Py.strip s).
Proof.
  intros H. unfold Py.strip. apply single_spaced_lstrip in H.
  destruct (rstrip_prefix (Py.lstrip s)) as [w Hw]. rewrite Hw in H.
  now apply single_spaced_app in H.
Qed.

Lemma flat_map_length_mono {A B C} (f : A -> list B) (g : A -> list C) l :
  (forall x, length (f x) <= length (g x)) ->
  length (flat_map f l) <= length (flat_map g l).
Proof.
  intros H. induction l as [|x l IH]; simpl; [lia|].
  rewrite !length_app. specialize (H x). lia.
Qed.

Lemma flat_map_single {A} (l : list A) : flat_map (fun x => [x]) l = l.
Proof. induction l as [|x l IH]; simpl; [reflexivity | now rewrite IH]. Qed.

End IndexFacts.

(** X12. The text embedded for a chunk is normalised: it holds none of the
    characters [#], [>], [*], [_] and backtick, its only whitespace
    character is the space, no space follows another one, and it neither
    starts nor ends with one. *)
Theorem embedding_text_normalised (t : str) (ch : Chunk) :
  Forall (fun c => is_mark c = false /\ (Py.isspace c = true -> c = 32%N))
         (embedding_text t ch)
  /\ single_spaced (embedding_text t ch)
  /\ Py.strip (embedding_text t ch) = embedding_text t ch.
Proof.
  unfold embedding_text. split; [|split].
  - apply strip_Forall, collapse_space_chars.
    + unfold blank_marks. apply Forall_map, Forall_forall. intros c _.
      fold (is_mark c). destruct (is_mark c) eqn:E.
      * intros H. discriminate.
      * intros H. split; [exact E | congruence].
    + split; [reflexivity | reflexivity].
  - apply single_spaced_strip, collapse_space_single.
  - apply strip_idem.
Qed.

(** X13. The inputs of the index follow the cache: there is at most one
    per chunk of the cached documents; each pairs a text that is not empty,
    the first 1000 characters of the text embedded for a chunk, with the
    entry of that chunk: the URL it is cached under, the title and the
    markdown URL of its document, its heading, and the first 500 characters
    of its markdown as the snippet. *)
Theorem embedding_inputs_entries (c : DocumentCache) :
  length (embedding_inputs c) <= chunk_count c
  /\ Forall (fun te =>
               fst te <> [] /\ length (fst te) <= 1000
               /\ length (snippet (snd te)) <= 500
               /\ exists u d ch,
                   In (u, d) (cache c) /\ In ch (doc_chunks d)
                   /\ fst te = Py.upto 1000 (embedding_text (title d) ch)
                   /\ snd te = entry_of u d ch)
            (embedding_inputs c).
Proof.
  unfold embedding_inputs, chunk_count. split.
  - apply flat_map_length_mono. intros [u d]. cbn [snd].
    rewrite <- (flat_map_single (doc_chunks d)) at 2.
    apply flat_map_length_mono. intros ch. cbv zeta.
    destruct (Py.truthy (embedding_text (title d) ch)); simpl; lia.
  - apply Forall_forall. intros te Hin.
    apply in_flat_map in Hin. destruct Hin as ([u d] & Hud & Hin).
    apply in_flat_map in Hin. destruct Hin as (ch & Hch & Hin). cbv zeta in Hin.
    destruct (embedding_text (title d) ch) as [|x t] eqn:Et; [destruct Hin|].
    cbn [Py.truthy] in Hin. destruct Hin as [<-|[]]. cbn [fst snd snippet].
    split; [discriminate|]. split; [unfold Py.upto; rewrite length_firstn; lia|].
    split; [unfold Py.upto; rewrite length_firstn; lia|].
    exists u, d, ch. rewrite Et. repeat split; assumption.
Qed.



(** ** Searching *)

Section SearchSteps.

Variable lower : str -> str.

Lemma collect_hits_state docs sims idxs s :
  snd (collect_hits docs sims idxs s) = s.
Proof.
  induction idxs as [|i idxs IH]; simpl; [reflexivity|].
  destruct (nth_error docs i) as [doc|]; [|reflexivity].
  unfold bind. destruct (collect_hits docs sims idxs s) as [[hs|err] s1];
    simpl in *; exact IH.
Qed.

(** What [build_embeddings] does: nothing, or a new index with an
    entry. *)
Lemma build_embeddings_cases s :
  build_embeddings s = (Ok tt, s)
  \/ exists encode,
      embedding_model s = Some encode
      /\ embedding_inputs (self_cache s) <> []
      /\ build_embeddings s
         = (Ok tt,
            {| self_cache :=
                 {| cache := cache (self_cache s);
                    embeddings := Some (encode (map fst (embedding_inputs (self_cache s))));
                    documents := map snd (embedding_inputs (self_cache s)) |};
               embedding_model := embedding_model s;
               requests := requests s; sleeps := sleeps s |}).
Proof.
  unfold build_embeddings, bind, get_self.
  destruct (embedding_model s) as [encode|] eqn:Em; [|now left].
  destruct (embedding_inputs (self_cache s)) as [|i rest] eqn:Ei; [now left|].
  right. exists encode. split; [reflexivity|]. split; [discriminate|].
  cbn [Py.truthy]. unfold set_cache. now rewrite Em.
Qed.

Lemma ensure_index_facts s :
  exists s1,
    ensure_index s = (Ok tt, s1)
    /\ cache (self_cache s1) = cache (self_cache s)
    /\ embedding_model s1 = embedding_model s
    /\ requests s1 = requests s /\ sleeps s1 = sleeps s
    /\ (has_embeddings (self_cache s) = true -> s1 = s)
    /\ ensure_index s1 = (Ok tt, s1).
Proof.
  assert (Hfix : forall s1, has_embeddings (self_cache s1) = true ->
                            ensure_index s1 = (Ok tt, s1)).
  { intros s1 H1. unfold ensure_index, bind, get_self. now rewrite H1. }
  unfold ensure_index at 1, bind, get_self.
  destruct (has_embeddings (self_cache s)) eqn:Eh.
  - exists s. unfold ret.
    split; [reflexivity|]. split; [reflexivity|]. split; [reflexivity|].
    split; [reflexivity|]. split; [reflexivity|]. split; [reflexivity|].
    now apply Hfix.
  - destruct (build_embeddings_cases s) as [Hb|(encode & Hm & Hi & Hb)]; rewrite Hb.
    + exists s.
      split; [reflexivity|]. split; [reflexivity|]. split; [reflexivity|].
      split; [reflexivity|]. split; [reflexivity|]. split; [reflexivity|].
      unfold ensure_index, bind, get_self. now rewrite Eh.
    + eexists. split; [reflexivity|].
      cbn [self_cache cache embedding_model requests sleeps].
      split; [reflexivity|]. split; [reflexivity|]. split; [reflexivity|].
      split; [reflexivity|]. split; [discriminate|].
      apply Hfix. unfold has_embeddings. cbn [self_cache embeddings documents].
      destruct (embedding_inputs (self_cache s)); [congruence | reflexivity].
Qed.

Lemma search_documents_state query limit s :
  snd (search_documents lower query limit s) = snd (ensure_index s).
Proof.
  rewrite search_documents_unfold.
  destruct (ensure_index_facts s) as (s1 & -> & _). cbn [snd].
  destruct (embedding_model s1); [|reflexivity].
  destruct (embeddings (self_cache s1)); [|reflexivity].
  destruct (has_embeddings (self_cache s1)); [|reflexivity].
  apply collect_hits_state.
Qed.




(** Equal similarities: [sort_desc] keeps their order. *)
Lemma insert_desc_stable {A} (key : A -> Q) q x l :
  filter (fun h => Qeq_bool (key h) q) (insert_desc key x l)
  = filter (fun h => Qeq_bool (key h) q) (x :: l).
Proof.
  induction l as [|y l IH]; [reflexivity|].
  cbn [insert_desc]. destruct (Qle_bool (key y) (key x)) eqn:E; [reflexivity|].
  cbn [filter] in *. rewrite IH.
  destruct (Qeq_bool (key x) q) eqn:Ex; [|reflexivity].
  destruct (Qeq_bool (key y) q) eqn:Ey; [|reflexivity].
  apply Qeq_bool_iff in Ex, Ey.
  assert (Hle : (key y <= key x)%Q) by (rewrite Ex, Ey; apply Qle_refl).
  apply Qle_bool_iff in Hle. congruence.
Qed.

Lemma sort_desc_stable {A} (key : A -> Q) q l :
  filter (fun h => Qeq_bool (key h) q) (sort_desc key l)
  = filter (fun h => Qeq_bool (key h) q) l.
Proof.
  induction l as [|x l IH]; [reflexivity|].
  cbn [sort_desc fold_right]. rewrite insert_desc_stable.
  cbn [filter]. fold (sort_desc key l). now rewrite IH.
Qed.

Lemma count_empty s : Py.count [] s = S (length s).
Proof.
  unfold Py.count. induction s as [|c s IH]; [reflexivity|].
  cbn [Py.count_from Py.startswith length Nat.pred]. now rewrite IH.
Qed.

Lemma contains_empty s : Py.contains [] s = true.
Proof. destruct s; reflexivity. Qed.

End SearchSteps.

(** X15. Searching reads the store and never writes it: [search_documents]
    leaves the cached documents, the model and the network log as they
    were; with an index in place it changes nothing at all, so that
    documents fetched after the index was built are not added to it by a
    search; and after one search, any further search leaves the session as
    it is. *)
Theorem search_documents_readonly (lower : str -> str) (query : str) (limit : Z)
        (s : VoiceflowMCP) :
  cache (self_cache (snd (search_documents lower query limit s))) = cache (self_cache s)
  /\ embedding_model (snd (search_documents lower query limit s)) = embedding_model s
  /\ requests (snd (search_documents lower query limit s)) = requests s
  /\ sleeps (snd (search_documents lower query limit s)) = sleeps s
  /\ (has_embeddings (self_cache s) = true ->
      snd (search_documents lower query limit s) = s)
  /\ (forall query2 limit2,
         snd (search_documents lower query2 limit2
                               (snd (search_documents lower query limit s)))
         = snd (search_documents lower query limit s)).
Proof.
  rewrite search_documents_state.
  destruct (ensure_index_facts s) as (s1 & E & Hc & Hm & Hr & Hs & Hh & Hi).
  rewrite E. cbn [snd]. repeat split; try assumption.
  intros query2 limit2. rewrite search_documents_state. now rewrite Hi.
Qed.

Lemma search_documents_readonly_witness :
  has_embeddings (self_cache indexed_session) = true
  /\ snd (search_documents ascii_lower (lit "tokens") 5 indexed_session) = indexed_session.
Proof.
  assert (H : has_embeddings (self_cache indexed_session) = true) by reflexivity.
  split; [exact H|].
  destruct (search_documents_readonly ascii_lower (lit "tokens") 5 indexed_session)
    as (_ & _ & _ & _ & Hs & _).
  exact (Hs H).
Defined.



(** X17. The lexical results keep the order of the cache among equals:
    before the cut to the limit, the results of any one similarity are the
    documents of that score in the order in which they were cached; every
    result is a cached document; and its similarity is at least 0.1. *)
Theorem simple_search_ties (lower : str -> str) (c : DocumentCache) (query : str)
        (limit : Z) :
  exists ranked,
    simple_search lower c query limit = Py.slice_to limit ranked
    /\ (forall q,
           filter (fun h => Qeq_bool (similarity h) q) ranked
           = filter (fun h => Qeq_bool (similarity h) q)
                    (map (lexical_hit lower query) (scoring lower query c)))
    /\ Forall (fun h => exists u d, In (u, d) (cache c)
                                    /\ h = lexical_hit lower query d
                                    /\ (1 # 10 <= similarity h)%Q)
              (simple_search lower c query limit).
Proof.
  exists (sort_desc similarity (map (lexical_hit lower query) (scoring lower query c))).
  split; [apply simple_search_results|]. split; [intros q; apply sort_desc_stable|].
  rewrite simple_search_results. apply Forall_forall. intros h Hh.
  apply slice_to_incl in Hh.
  apply (Permutation_in _ (sort_desc_perm similarity _)) in Hh.
  apply in_map_iff in Hh. destruct Hh as (d & <- & Hd).
  unfold scoring in Hd. apply filter_In in Hd. destruct Hd as [Hd Hs].
  apply in_map_iff in Hd. destruct Hd as ([u d'] & Hsnd & Hin). simpl in Hsnd. subst d'.
  exists u, d. split; [exact Hin|]. split; [reflexivity|].
  apply Nat.ltb_lt in Hs. unfold lexical_hit. cbn [similarity].
  unfold Qle, Qdiv, Qmult, Qinv, inject_Z. simpl. lia.
Qed.

(** X18. The empty query matches everything: when lower-casing keeps the
    empty string empty, every cached document scores at least 6 (3 for the
    title, 2 for the description and one more than the length of its
    lower-cased content), so that a search for the empty string returns as
    many documents as the limit allows and the cache holds, each with a
    similarity of 0.6 at least. *)
Theorem simple_search_empty_query (lower : str -> str) (c : DocumentCache) (limit : Z) :
  lower [] = [] ->
  (0 <= limit)%Z ->
  (forall d, lexical_score lower (lower []) d = 6 + length (lower (content d)))
  /\ length (simple_search lower c [] limit)
     = Nat.min (Z.to_nat limit) (length (cache c))
  /\ Forall (fun h => (6 # 10 <= similarity h)%Q) (simple_search lower c [] limit).
Proof.
  intros Hl Hlimit.
  assert (Hscore : forall d, lexical_score lower (lower []) d
                             = 6 + length (lower (content d))).
  { intros d. rewrite lexical_score_formula, Hl, count_empty. unfold occurs.
    rewrite !contains_empty. lia. }
  split; [exact Hscore|].
  assert (Hall : scoring lower [] c = map snd (cache c)).
  { unfold scoring. induction (map snd (cache c)) as [|d l IH]; [reflexivity|].
    cbn [filter]. rewrite Hscore, IH. reflexivity. }
  rewrite simple_search_results, Hall. split.
  - unfold Py.slice_to. destruct (Z.leb_spec 0 limit); [|lia].
    rewrite length_firstn, (Permutation_length (sort_desc_perm similarity _)).
    now rewrite !length_map.
  - apply Forall_forall. intros h Hh. apply slice_to_incl in Hh.
    apply (Permutation_in _ (sort_desc_perm similarity _)) in Hh.
    apply in_map_iff in Hh. destruct Hh as (d & <- & _).
    unfold lexical_hit. cbn [similarity]. rewrite Hscore.
    unfold Qle, Qdiv, Qmult, Qinv, inject_Z. simpl. lia.
Qed.

Lemma simple_search_empty_query_witness :
  ascii_lower [] = [] /\ (0 <= 5)%Z
  /\ length (simple_search ascii_lower auth_cache [] 5) = 1
  /\ Forall (fun h => (6 # 10 <= similarity h)%Q) (simple_search ascii_lower auth_cache [] 5).
Proof.
  assert (H1 : ascii_lower [] = []) by reflexivity.
  assert (H2 : (0 <= 5)%Z) by lia.
  destruct (simple_search_empty_query ascii_lower auth_cache H1 H2) as (_ & Hn & Hall).
  split; [exact H1|]. split; [exact H2|]. split; [rewrite Hn; reflexivity | exact Hall].
Defined.

(** X19. A negative limit cuts from the end: [results[:limit]] then drops
    the last [-limit] results of the ranking, so that a lexical search with
    the limit -1 returns all the documents that score but the last one. *)
Theorem simple_search_negative_limit (lower : str -> str) (c : DocumentCache)
        (query : str) (limit : Z) :
  (limit < 0)%Z ->
  length (simple_search lower c query limit)
  = length (scoring lower query c) - Z.to_nat (- limit)
  /\ simple_search lower c query limit
     = firstn (length (scoring lower query c) - Z.to_nat (- limit))
              (simple_search lower c query (Z.of_nat (length (scoring lower query c)))).
Proof.
  intros Hneg. rewrite !simple_search_results. unfold Py.slice_to.
  destruct (Z.leb_spec 0 limit); [lia|].
  destruct (Z.leb_spec 0 (Z.of_nat (length (scoring lower query c)))); [|lia].
  assert (Hlen : length (sort_desc similarity
                           (map (lexical_hit lower query) (scoring lower query c)))
                 = length (scoring lower query c))
    by now rewrite (Permutation_length (sort_desc_perm similarity _)), length_map.
  rewrite Hlen, Nat2Z.id. split.
  - rewrite length_firstn, Hlen. lia.
  - rewrite <- Hlen at 3. now rewrite firstn_all.
Qed.

Lemma simple_search_negative_limit_witness :
  (-1 < 0)%Z /\ length (simple_search ascii_lower auth_cache (lit "auth") (-1)) = 0.
Proof.
  assert (H : (-1 < 0)%Z) by lia. split; [exact H|].
  rewrite (proj1 (simple_search_negative_limit ascii_lower auth_cache (lit "auth") H)).
  reflexivity.
Defined.

(** ** Answering *)

Section AnswerSteps.

Variable lower : str -> str.

Lemma max_of_first rest : forall first,
  Forall (fun x => (x <= first)%Q) rest -> max_of first rest = first.
Proof.
  unfold max_of. induction rest as [|x rest IH]; intros first H; [reflexivity|].
  inversion H as [|? ? Hx Hrest]; subst. cbn [fold_left].
  apply Qle_bool_iff in Hx. rewrite Hx. now apply IH.
Qed.

Lemma descending_head first rest :
  descending (first :: rest) -> max_of first rest = first.
Proof. intros H. inversion H; subst. now apply max_of_first. Qed.

(** [answer_question] after its search. *)
Lemma answer_question_after question s hits s1 :
  search_documents lower question 3 s = (Ok hits, s1) ->
  answer_question lower question s =
  match hits with
  | [] => (Ok {| answer := no_information; sources := []; confidence := 0 |}, s1)
  | first :: rest =>
      (Ok {| answer :=
               if Py.truthy (flat_map answer_part hits)
               then Py.join [LF; LF] (flat_map answer_part hits)
               else lit "Based on the documentation, here's what I found: "
                    ++ match hit_snippet first with
                       | Some sn => sn
                       | None => lit "No specific information available"
                       end;
             sources := map source_of hits;
             confidence := max_of (similarity first) (map similarity rest) |}, s1)
  end.
Proof.
  intros H. unfold answer_question, bind. rewrite H. now destruct hits.
Qed.

Lemma simple_search_doc_hits c query limit :
  Forall (fun h => hit_snippet h = None) (simple_search lower c query limit).
Proof.
  rewrite simple_search_results. apply Forall_forall. intros h Hh.
  apply slice_to_incl in Hh.
  apply (Permutation_in _ (sort_desc_perm similarity _)) in Hh.
  apply in_map_iff in Hh. now destruct Hh as (d & <- & _).
Qed.

Lemma answer_part_none hits :
  Forall (fun h => hit_snippet h = None) hits -> flat_map answer_part hits = [].
Proof.
  induction 1 as [|h hits Hh _ IH]; [reflexivity|].
  cbn [flat_map]. unfold answer_part at 1. now rewrite Hh, IH.
Qed.



End AnswerSteps.

(** X20. Without an embedding model the answer carries no text of the
    documentation: [answer_question] returns, leaves the session as it is,
    and lists as sources the results of [simple_search] for the limit 3, in
    their order; its answer is the sentence that nothing was found when
    there is no result, and otherwise always the same sentence, "Based on
    the documentation, here's what I found: No specific information
    available", since a lexical result has no snippet; its confidence is
    the relevance of the first source, and 0 when there is none. *)
Theorem answer_question_lexical (lower : str -> str) (question : str)
        (s : VoiceflowMCP) :
  embedding_model s = None ->
  exists a,
    answer_question lower question s = (Ok a, s)
    /\ sources a = map source_of (simple_search lower (self_cache s) question 3)
    /\ length (sources a) <= 3
    /\ answer a = match sources a with
                  | [] => no_information
                  | _ :: _ => fallback_answer
                  end
    /\ confidence a = hd 0%Q (map relevance (sources a)).
Proof.
  intros Hm.
  rewrite (answer_question_after lower question s
             (search_documents_fallback lower question 3 s Hm)).
  pose proof (simple_search_doc_hits lower (self_cache s) question 3) as Hdoc.
  pose proof (simple_search_descending lower (self_cache s) question 3) as Hsort.
  assert (Hlen : (Z.of_nat (length (simple_search lower (self_cache s) question 3)) <= 3)%Z)
    by (apply simple_search_length; lia).
  destruct (simple_search lower (self_cache s) question 3) as [|first rest].
  - eexists. split; [reflexivity|]. cbn [sources answer confidence map length hd].
    split; [reflexivity|]. split; [lia|]. split; reflexivity.
  - eexists. split; [reflexivity|]. cbn [sources answer confidence].
    split; [reflexivity|]. split; [rewrite length_map; lia|]. split.
    + rewrite (answer_part_none Hdoc). cbn [Py.truthy map].
      inversion Hdoc as [|? ? Hf _]; subst. now rewrite Hf.
    + cbn [map hd source_of relevance]. now apply descending_head.
Qed.

Lemma answer_question_lexical_witness :
  embedding_model (lexical_session auth_cache) = None
  /\ exists a,
      answer_question ascii_lower (lit "auth") (lexical_session auth_cache)
      = (Ok a, lexical_session auth_cache)
      /\ answer a = fallback_answer.
Proof.
  assert (H : embedding_model (lexical_session auth_cache) = None) by reflexivity.
  split; [exact H|].
  destruct (@answer_question_lexical ascii_lower (lit "auth") _ H)
    as (a & Ha & Hs & _ & Hans & _).
  exists a. split; [exact Ha|]. rewrite Hans, Hs. reflexivity.
Defined.

(** X21. With nothing fetched there is nothing to answer from: when the
    cache holds no document and there is no index, [answer_question]
    returns the sentence that nothing was found, no source and the
    confidence 0, with or without an embedding model, and leaves the
    session as it is; it does not go to the network for the page. *)
Theorem answer_question_empty_store (lower : str -> str) (question : str)
        (s : VoiceflowMCP) :
  cache (self_cache s) = [] ->
  has_embeddings (self_cache s) = false ->
  answer_question lower question s
  = (Ok {| answer := no_information; sources := []; confidence := 0 |}, s).
Proof.
  intros Hc Hh.
  assert (Hb : build_embeddings s = (Ok tt, s)).
  { destruct (build_embeddings_cases s) as [Hb|(encode & _ & Hi & _)]; [exact Hb|].
    exfalso. apply Hi. unfold embedding_inputs. now rewrite Hc. }
  assert (Hs : search_documents lower question 3 s = (Ok [], s)).
  { rewrite search_documents_unfold.
    unfold ensure_index, bind, get_self. rewrite Hh, Hb. cbn [fst snd].
    assert (Hl : simple_search lower (self_cache s) question 3 = []).
    { unfold simple_search. rewrite Hc. reflexivity. }
    rewrite Hh, Hl. destruct (embedding_model s); [|reflexivity].
    now destruct (embeddings (self_cache s)). }
  now rewrite (answer_question_after lower question s Hs).
Qed.

Lemma answer_question_empty_store_witness :
  answer_question ascii_lower (lit "auth") fresh_session
  = (Ok {| answer := no_information; sources := []; confidence := 0 |}, fresh_session).
Proof.
  apply answer_question_empty_store; reflexivity.
Defined.



(** ** Warming up *)

Section WarmupSteps.

Variable lower : str -> str.
Variable server : nat -> str -> Reply.

(** What one call of [fetch_markdown_content] does to the session. *)
Lemma fetch_outcome u s :
  embedding_model (snd (fetch_markdown_content lower server u s)) = embedding_model s
  /\ embeddings (self_cache (snd (fetch_markdown_content lower server u s)))
     = embeddings (self_cache s)
  /\ documents (self_cache (snd (fetch_markdown_content lower server u s)))
     = documents (self_cache s)
  /\ (exists m1 m2,
         requests (snd (fetch_markdown_content lower server u s))
         = requests s ++ repeat (md_url u) m1 ++ repeat u m2)
  /\ (exists added,
         cache (self_cache (snd (fetch_markdown_content lower server u s)))
         = cache (self_cache s) ++ added
         /\ (added = []
             \/ exists d, fst (fetch_markdown_content lower server u s) = Ok (Some d)
                          /\ added = [(u, d)])).
Proof.
  rewrite fetch_unfold.
  destruct (get (self_cache s) u) as [d|] eqn:G.
  - cbn [fst snd]. split; [reflexivity|]. split; [reflexivity|]. split; [reflexivity|].
    split.
    + exists 0, 0. cbn [repeat app]. now rewrite app_nil_r.
    + exists []. split; [now rewrite app_nil_r | now left].
  - pose proof (_get_effects server (md_url u) s) as (m1 & _ & Hr1 & Hc1 & Hm1).
    destruct (_get server (md_url u) s) as [[r1|e1] s1]; cbn [fst snd] in *.
    2:{ rewrite Hc1. split; [exact Hm1|]. split; [reflexivity|]. split; [reflexivity|].
        split.
        - exists m1, 0. cbn [repeat]. now rewrite app_nil_r.
        - exists []. split; [now rewrite app_nil_r | now left]. }
    assert (Hstore : forall final b s0,
               self_cache s0 = self_cache s ->
               cache (self_cache (stored u (doc_data u final b) s0))
               = cache (self_cache s) ++ [(u, doc_data u final b)]).
    { intros final b s0 Hc0. unfold stored, set. cbn [self_cache cache].
      rewrite Hc0. now apply dict_set_absent. }
    destruct (body_of lower r1) as [b|].
    + cbn [fst snd]. unfold stored at 1 2 3 4. cbn [self_cache embedding_model requests].
      unfold set at 1 2. cbn [embeddings documents]. rewrite Hc1.
      split; [exact Hm1|]. split; [reflexivity|]. split; [reflexivity|]. split.
      * exists m1, 0. cbn [repeat]. now rewrite app_nil_r.
      * eexists. split; [apply (Hstore _ _ _ Hc1)|]. right. eexists. now split.
    + pose proof (_get_effects server u s1) as (m2 & _ & Hr2 & Hc2 & Hm2).
      assert (Hc : self_cache (snd (_get server u s1)) = self_cache s) by congruence.
      assert (Hm : embedding_model (snd (_get server u s1)) = embedding_model s)
        by congruence.
      assert (Hr : requests (snd (_get server u s1))
                   = requests s ++ repeat (md_url u) m1 ++ repeat u m2).
      { rewrite Hr2, Hr1. now rewrite <- app_assoc. }
      clear Hr2 Hc2 Hm2.
      destruct (_get server u s1) as [[r2|e2] s2]; cbn [fst snd] in *.
      2:{ rewrite Hc. split; [exact Hm|]. split; [reflexivity|]. split; [reflexivity|].
          split; [now exists m1, m2|].
          exists []. split; [now rewrite app_nil_r | now left]. }
      destruct (accepted lower r2) as [b|]; cbn [fst snd].
      * unfold stored at 1 2 3 4. cbn [self_cache embedding_model requests].
        unfold set at 1 2. cbn [embeddings documents]. rewrite Hc.
        split; [exact Hm|]. split; [reflexivity|]. split; [reflexivity|].
        split; [now exists m1, m2|].
        eexists. split; [apply (Hstore _ _ _ Hc)|]. right. eexists. now split.
      * rewrite Hc. split; [exact Hm|]. split; [reflexivity|]. split; [reflexivity|].
        split; [now exists m1, m2|].
        exists []. split; [now rewrite app_nil_r | now left].
Qed.

Variable limit : Z.

(** The loop of [warmup]: it only adds to the cache, at most one document
    for each unit of the limit that is left, and asks only for the URLs
    given and their markdown variants. *)
Lemma warmup_loop_effects urls : forall seen s,
  embedding_model (snd (warmup_loop lower server urls seen limit s)) = embedding_model s
  /\ embeddings (self_cache (snd (warmup_loop lower server urls seen limit s)))
     = embeddings (self_cache s)
  /\ documents (self_cache (snd (warmup_loop lower server urls seen limit s)))
     = documents (self_cache s)
  /\ exists added new,
      cache (self_cache (snd (warmup_loop lower server urls seen limit s)))
      = cache (self_cache s) ++ added
      /\ (Z.of_nat (length added) <= Z.max 0 (limit - seen))%Z
      /\ requests (snd (warmup_loop lower server urls seen limit s)) = requests s ++ new
      /\ Forall (fun q => exists u, In u urls /\ (q = u \/ q = md_url u)) new
      /\ ((limit <= seen)%Z -> new = []).
Proof.
  induction urls as [|u urls IH]; intros seen s.
  - cbn [warmup_loop snd ret]. unfold ret. cbn [snd].
    split; [reflexivity|]. split; [reflexivity|]. split; [reflexivity|].
    exists [], []. rewrite !app_nil_r. cbn [length].
    split; [reflexivity|]. split; [lia|]. split; [reflexivity|]. split; [constructor|].
    reflexivity.
  - cbn [warmup_loop]. destruct (Z.leb_spec limit seen) as [Hle|Hlt].
    + unfold ret. cbn [snd].
      split; [reflexivity|]. split; [reflexivity|]. split; [reflexivity|].
      exists [], []. rewrite !app_nil_r. cbn [length].
      split; [reflexivity|]. split; [lia|]. split; [reflexivity|]. split; [constructor|].
      reflexivity.
    + unfold bind.
      destruct (fetch_outcome u s)
        as (Fm & Fe & Fd & (m1 & m2 & Fr) & (added0 & Fc & Fa)).
      assert (Hreq : Forall (fun q => exists u0, In u0 (u :: urls)
                                                 /\ (q = u0 \/ q = md_url u0))
                            (repeat (md_url u) m1 ++ repeat u m2)).
      { apply Forall_app. split; apply Forall_forall; intros q Hq;
          apply repeat_spec in Hq; subst q; exists u.
        - split; [now left | now right].
        - split; [now left | now left]. }
      assert (Hnext : forall seen' s1,
                 snd (fetch_markdown_content lower server u s) = s1 ->
                 (Z.of_nat (length added0) + Z.max 0 (limit - seen')
                  <= Z.max 0 (limit - seen))%Z ->
                 embedding_model (snd (warmup_loop lower server urls seen' limit s1))
                 = embedding_model s
                 /\ embeddings (self_cache (snd (warmup_loop lower server urls seen' limit s1)))
                    = embeddings (self_cache s)
                 /\ documents (self_cache (snd (warmup_loop lower server urls seen' limit s1)))
                    = documents (self_cache s)
                 /\ exists added new,
                     cache (self_cache (snd (warmup_loop lower server urls seen' limit s1)))
                     = cache (self_cache s) ++ added
                     /\ (Z.of_nat (length added) <= Z.max 0 (limit - seen))%Z
                     /\ requests (snd (warmup_loop lower server urls seen' limit s1))
                        = requests s ++ new
                     /\ Forall (fun q => exists u0, In u0 (u :: urls)
                                                    /\ (q = u0 \/ q = md_url u0)) new
                     /\ ((limit <= seen)%Z -> new = [])).
      { intros seen' s1 Es Hbudget. subst s1.
        destruct (IH seen' (snd (fetch_markdown_content lower server u s)))
          as (Im & Ie & Id & added & new & Ic & Il & Ir & Iq & _).
        split; [congruence|]. split; [congruence|]. split; [congruence|].
        exists (added0 ++ added), ((repeat (md_url u) m1 ++ repeat u m2) ++ new).
        split; [rewrite Ic, Fc; now rewrite app_assoc|].
        split; [rewrite length_app; lia|].
        split; [rewrite Ir, Fr; now rewrite !app_assoc|].
        split; [|lia].
        apply Forall_app. split; [exact Hreq|].
        eapply Forall_impl; [|exact Iq].
        intros q (u0 & Hin & Hq). exists u0. split; [now right | exact Hq]. }
      destruct (fetch_markdown_content lower server u s) as [[[d|]|e] s1] eqn:Ef;
        cbn [fst snd] in *.
      * apply (Hnext _ _ eq_refl).
        destruct Fa as [->|(d' & _ & ->)]; cbn [length]; lia.
      * apply (Hnext _ _ eq_refl).
        destruct Fa as [->|(d' & Hd & _)]; [cbn [length]; lia | discriminate].
      * split; [exact Fm|]. split; [exact Fe|]. split; [exact Fd|].
        exists added0, (repeat (md_url u) m1 ++ repeat u m2).
        split; [exact Fc|].
        split; [destruct Fa as [->|(d' & Hd & _)]; [cbn [length]; lia | discriminate]|].
        split; [exact Fr|]. split; [exact Hreq | lia].
Qed.


Lemma build_embeddings_keeps s :
  cache (self_cache (snd (build_embeddings s))) = cache (self_cache s)
  /\ embedding_model (snd (build_embeddings s)) = embedding_model s
  /\ requests (snd (build_embeddings s)) = requests s.
Proof.
  destruct (build_embeddings_cases s) as [->|(encode & _ & _ & ->)];
    cbn [snd self_cache cache embedding_model requests]; now repeat split.
Qed.

Lemma build_embeddings_some s encode :
  embedding_model s = Some encode ->
  embedding_inputs (self_cache s) <> [] ->
  embeddings (self_cache (snd (build_embeddings s)))
  = Some (encode (map fst (embedding_inputs (self_cache (snd (build_embeddings s))))))
  /\ documents (self_cache (snd (build_embeddings s)))
     = map snd (embedding_inputs (self_cache (snd (build_embeddings s))))
  /\ has_embeddings (self_cache (snd (build_embeddings s))) = true.
Proof.
  intros Hm Hi. unfold build_embeddings, bind, get_self. rewrite Hm.
  destruct (embedding_inputs (self_cache s)) as [|i rest] eqn:Ei; [congruence|].
  cbn [Py.truthy]. unfold set_cache. cbn [snd self_cache].
  unfold has_embeddings.
  change (embedding_inputs
            {| cache := cache (self_cache s);
               embeddings := Some (encode (map fst (i :: rest)));
               documents := map snd (i :: rest) |})
    with (embedding_inputs (self_cache s)).
  cbn [embeddings documents]. rewrite Ei. now repeat split.
Qed.

(** [warmup] is its loop, then [build_embeddings] unless the loop
    raised. *)
Lemma warmup_unfold sitemap s :
  warmup lower server sitemap limit s =
  match warmup_loop lower server (warmup_candidates sitemap) 0 limit s with
  | (Ok _, s1) => build_embeddings s1
  | (Raise e, s1) => (Raise e, s1)
  end.
Proof. reflexivity. Qed.

End WarmupSteps.


(** X24. [warmup] ends with a fresh index: when it returns without an
    exception, a model is present and some chunk of the cache has a text to
    embed, the index that it leaves holds the vectors of exactly the texts
    of the cache as it is at the end, and one entry for each, so that the
    index and the cache agree. *)
Theorem warmup_rebuilds_index (lower : str -> str) (server : nat -> str -> Reply)
        (sitemap : list str) (limit : Z) (s : VoiceflowMCP) (encode : Encoder) :
  fst (warmup lower server sitemap limit s) = Ok tt ->
  embedding_model s = Some encode ->
  embedding_inputs (self_cache (snd (warmup lower server sitemap limit s))) <> [] ->
  embeddings (self_cache (snd (warmup lower server sitemap limit s)))
  = Some (encode (map fst (embedding_inputs
                             (self_cache (snd (warmup lower server sitemap limit s))))))
  /\ documents (self_cache (snd (warmup lower server sitemap limit s)))
     = map snd (embedding_inputs (self_cache (snd (warmup lower server sitemap limit s))))
  /\ has_embeddings (self_cache (snd (warmup lower server sitemap limit s))) = true.
Proof.
  rewrite warmup_unfold.
  destruct (warmup_loop_effects lower server limit (warmup_candidates sitemap) 0 s)
    as (Hm & _).
  destruct (warmup_loop lower server (warmup_candidates sitemap) 0 limit s)
    as [[[]|e] s1]; cbn [fst snd] in *; [|discriminate].
  intros _ Hs Hi. apply build_embeddings_some; [congruence|].
  destruct (build_embeddings_keeps s1) as (Bc & _).
  unfold embedding_inputs in *. now rewrite Bc in Hi.
Qed.

Lemma warmup_rebuilds_index_witness :
  fst (warmup ascii_lower markdown_server [reference_a] 1 vector_session) = Ok tt
  /\ has_embeddings
       (self_cache (snd (warmup ascii_lower markdown_server [reference_a] 1 vector_session)))
     = true.
Proof.
  assert (H1 : fst (warmup ascii_lower markdown_server [reference_a] 1 vector_session)
               = Ok tt) by (vm_compute; reflexivity).
  assert (H2 : embedding_model vector_session = Some length_encoder) by reflexivity.
  assert (H3 : embedding_inputs
                 (self_cache (snd (warmup ascii_lower markdown_server [reference_a] 1
                                          vector_session))) <> [])
    by (vm_compute; discriminate).
  split; [exact H1|].
  exact (proj2 (proj2 (warmup_rebuilds_index ascii_lower markdown_server [reference_a] 1
                                             vector_session H1 H2 H3))).
Defined.


